(** * braid-design-system: theme token compiler, type doc extractor, Rating

    A shallow embedding of
    - [lib/themes/makeBraidTheme.ts] (module [Theme]),
    - the type doc extractor (module [Docs]),
    - the prop assertion of [lib/components/Rating/Rating.tsx] (module [Rating]),
    together with the properties their specification states about them. *)

From Stdlib Require Import Floats ZArith NArith Ascii.
From Stdlib Require OrderedTypeEx.
From stdpp Require Import base option strings list sorting gmap.

Set Warnings "-inexact-float,-register-all".

(** * JavaScript values and completions shared by the three modules *)

Module Js.

(** The exceptions the modelled code can raise. [Error] is [new Error(message)];
    [TypeError] is what the engine raises on a property access on [undefined];
    [URIError] is what [encodeURIComponent] raises; [AssertionError] is raised
    by node's [assert]; [HostError] stands for an exception raised inside a
    library the code calls (the TypeScript checker, polished, sku/treat). *)
Inductive JsError :=
| Error (message : string)
| TypeError (message : string)
| URIError (message : string)
| AssertionError (message : string)
| HostError (message : string).

(** How the evaluation of an expression ends: with a value or with a [throw]. *)
Inductive Completion (A : Type) :=
| Normal (a : A)
| Throw (e : JsError).
Arguments Normal {A} a.
Arguments Throw {A} e.

Definition isThrow {A} (c : Completion A) : bool :=
  match c with Normal _ => false | Throw _ => true end.

#[export] Instance Completion_ret : MRet Completion := fun A a => Normal a.
#[export] Instance Completion_bind : MBind Completion := fun A B f c =>
  match c with Normal a => f a | Throw e => Throw e end.

#[export] Instance Completion_fmap : FMap Completion := fun A B f c =>
  match c with Normal a => Normal (f a) | Throw e => Throw e end.

(** [assert(value, message)] of node's assert module. *)
Definition assert (value : bool) (message : string) : Completion unit :=
  if value then Normal tt else Throw (AssertionError message).

(** The double quote character, for the string templates that contain it. *)
Definition dquote : string := String (Ascii.ascii_of_nat 34) EmptyString.

(** ** Objects with their keys in insertion order

    An object literal is the list of its own properties in the order they
    were added; [mapValues] and [values] enumerate in that order, which is
    observable when the callback throws. *)
Definition JsObject (V : Type) : Type := list (string * V).

(** [o[k]]; [None] is [undefined]. *)
Fixpoint get {V} (o : JsObject V) (k : string) : option V :=
  match o with
  | [] => None
  | (k', v) :: o' => if String.eqb k' k then Some v else get o' k
  end.

(** [o[k] = v]: an existing key keeps its position, a new one goes last. *)
Fixpoint set {V} (k : string) (v : V) (o : JsObject V) : JsObject V :=
  match o with
  | [] => [(k, v)]
  | (k', v') :: o' => if String.eqb k' k then (k', v) :: o' else (k', v') :: set k v o'
  end.

(** [{...o, ...source}] and one source of [Object.assign(o, source)]. *)
Definition spread {V} (o source : JsObject V) : JsObject V :=
  fold_left (fun acc kv => set kv.1 kv.2 acc) source o.

Definition keys {V} (o : JsObject V) : list string := map fst o.

(** lodash [values]. *)
Definition values {V} (o : JsObject V) : list V := map snd o.

(** lodash [mapValues(o, (value, key) => ...)] with a callback that may throw:
    the first throw, in enumeration order, ends the whole call. *)
Fixpoint mapValues {V W} (iteratee : V -> string -> Completion W)
    (o : JsObject V) : Completion (JsObject W) :=
  match o with
  | [] => Normal []
  | (k, v) :: o' =>
      w ← iteratee v k;
      rest ← mapValues iteratee o';
      mret ((k, w) :: rest)
  end.

(** [!v] for [v : string | undefined]: [undefined] and [''] are falsy. *)
Definition isFalsy (v : option string) : bool :=
  match v with
  | None | Some EmptyString => true
  | Some _ => false
  end.

(** ** Property reads on plain objects

    An object literal inherits from [Object.prototype]. A read [o[k]] finds
    an own property first and then the members of the prototype, and [k in o]
    holds of both; the prototype's members are functions, and [__proto__] is
    the prototype object itself, so all of them are truthy. *)
Definition objectPrototypeKeys : list string :=
  [ "constructor"; "__defineGetter__"; "__defineSetter__"; "hasOwnProperty";
    "__lookupGetter__"; "__lookupSetter__"; "isPrototypeOf"; "propertyIsEnumerable";
    "toString"; "valueOf"; "__proto__"; "toLocaleString" ].

Definition isInherited (k : string) : bool := existsb (String.eqb k) objectPrototypeKeys.

(** What a read [o[k]] gives. *)
Inductive Property (V : Type) :=
| Own (v : V)
| Inherited (member : string)
| Undefined.
Arguments Own {V} v.
Arguments Inherited {V} member.
Arguments Undefined {V}.

Definition read {V} (o : JsObject V) (k : string) : Property V :=
  match get o k with
  | Some v => Own v
  | None => if isInherited k then Inherited k else Undefined
  end.

(** [String(Object.prototype[member])], the property key an inherited member
    turns into when it is used as one: the source text of a native function
    as the engine prints it, and [[object Object]] for the prototype. The
    [constructor] of a plain object is the function [Object]. *)
Definition prototypeMemberToString (member : string) : string :=
  if String.eqb member "__proto__" then "[object Object]"
  else "function "
       +:+ (if String.eqb member "constructor" then "Object" else member)
       +:+ "() { [native code] }".

(** ** Numbers as strings, [Array.prototype.sort], [join], [encodeURIComponent] *)

Definition digitChar (d : N) : ascii := Ascii.ascii_of_N (48 + d).

Fixpoint toDigits (fuel : nat) (n : N) (acc : string) : string :=
  match fuel with
  | O => acc
  | S fuel' =>
      let acc' := String (digitChar (n mod 10)) acc in
      if (n / 10 =? 0)%N then acc' else toDigits fuel' (n / 10) acc'
  end.

(** [String(n)] for a natural number [n]: its decimal digits (the engine
    prints integers below 10^21 this way). A number has no more decimal
    digits than binary ones, so the fuel never runs out. *)
Definition Number_toString (n : N) : string :=
  toDigits (S (N.to_nat (N.log2 n))) n "".

(** Reading a decimal string back, most significant digit first. *)
Fixpoint parseDigits (s : string) (acc : N) : N :=
  match s with
  | EmptyString => acc
  | String c s' => parseDigits s' (10 * acc + (Ascii.N_of_ascii c - 48))%N
  end.

(** The order [sort()] uses when it is given no comparator: elements are
    compared as strings, code unit by code unit. *)
Definition sortLe (a b : N) : Prop :=
  String.leb (Number_toString a) (Number_toString b) = true.

#[export] Instance sortLe_dec a b : Decision (sortLe a b).
Proof. unfold sortLe. apply _. Defined.

(** [array.sort()]. Elements that compare equal print the same and so are the
    same number: every sorting algorithm gives this result. *)
Definition Array_sort (l : list N) : list N := merge_sort sortLe l.

(** [array.join(sep)] *)
Definition Array_join (sep : string) (l : list N) : string :=
  String.concat sep (map Number_toString l).

Definition isUnreserved (c : ascii) : bool :=
  let n := Ascii.N_of_ascii c in
  ((65 <=? n) && (n <=? 90) || (97 <=? n) && (n <=? 122) || (48 <=? n) && (n <=? 57)
   || bool_decide (n ∈ [45; 95; 46; 33; 126; 42; 39; 40; 41]))%N.

Definition hexDigit (d : N) : ascii :=
  if (d <? 10)%N then Ascii.ascii_of_N (48 + d) else Ascii.ascii_of_N (55 + d).

(** A string is held as its bytes in UTF-8, a lone surrogate (a UTF-16 code
    unit from D800 to DFFF without its partner) as the three bytes that
    generalised UTF-8 gives it: [ED], then a byte from [A0] to [BF], then a
    continuation byte. No other character has [ED] followed by [A0] or more. *)
Fixpoint hasLoneSurrogate (s : string) : bool :=
  match s with
  | EmptyString => false
  | String c s' =>
      match s' with
      | String d _ =>
          (Ascii.N_of_ascii c =? 237)%N && (160 <=? Ascii.N_of_ascii d)%N
          || hasLoneSurrogate s'
      | EmptyString => false
      end
  end.

(** The escaping of [encodeURIComponent], byte by byte: letters, digits and
    [- _ . ! ~ * ' ( )] stay, every other byte becomes [%XX]. *)
Fixpoint percentEncode (s : string) : string :=
  match s with
  | EmptyString => EmptyString
  | String c s' =>
      if isUnreserved c then String c (percentEncode s')
      else let n := Ascii.N_of_ascii c in
           String "%" (String (hexDigit (n / 16)) (String (hexDigit (n mod 16))
             (percentEncode s')))
  end.

(** [encodeURIComponent]: a [URIError] on a string with a lone surrogate,
    the escaped string otherwise. *)
Definition encodeURIComponent (s : string) : Completion string :=
  if hasLoneSurrogate s then Throw (URIError "URI malformed")
  else Normal (percentEncode s).

(** ** Facts about numbers as strings *)

Lemma digitChar_compare (a b : N) :
  (a < 10)%N -> (b < 10)%N -> Ascii.compare (digitChar a) (digitChar b) = (a ?= b)%N.
Proof.
  intros Ha Hb. unfold Ascii.compare, digitChar.
  rewrite !Ascii.N_ascii_embedding by lia.
  destruct (N.compare_spec a b) as [->|H|H];
    [apply N.compare_refl | apply N.compare_lt_iff; lia | apply N.compare_gt_iff; lia].
Qed.

Lemma Number_toString_threeDigits (n : N) :
  (100 <= n <= 999)%N ->
  Number_toString n
  = String (digitChar (n / 100)) (String (digitChar (n / 10 mod 10))
      (String (digitChar (n mod 10)) EmptyString)).
Proof.
  intros Hn. unfold Number_toString.
  assert (Hlog : (6 <= N.log2 n)%N) by (change 6%N with (N.log2 100); apply N.log2_le_mono; lia).
  destruct (N.to_nat (N.log2 n)) as [|[|fuel]] eqn:Hfuel; [lia..|].
  cbn [toDigits].
  assert (H10 : (n / 10 =? 0)%N = false).
  { apply N.eqb_neq. intros H. apply N.div_small_iff in H; lia. }
  assert (H100 : (n / 10 / 10 =? 0)%N = false).
  { apply N.eqb_neq. rewrite N.Div0.div_div. intros H. apply N.div_small_iff in H; lia. }
  assert (H1000 : (n / 10 / 10 / 10 =? 0)%N = true).
  { apply N.eqb_eq. rewrite !N.Div0.div_div. apply N.div_small. lia. }
  rewrite H10, H100, H1000. rewrite N.Div0.div_div. change (10 * 10)%N with 100%N.
  do 2 f_equal. f_equal. rewrite N.mod_small; [done|].
  apply N.Div0.div_lt_upper_bound. lia.
Qed.

Lemma digitChar_value (d : N) :
  (d < 10)%N -> (Ascii.N_of_ascii (digitChar d) - 48 = d)%N.
Proof. intros H. unfold digitChar. rewrite Ascii.N_ascii_embedding by lia. lia. Qed.

Lemma append_cons c (s r : string) : String c s +:+ r = String c (s +:+ r).
Proof. reflexivity. Qed.

Lemma append_nil (r : string) : EmptyString +:+ r = r.
Proof. reflexivity. Qed.

Lemma append_assoc (s1 s2 s3 : string) : (s1 +:+ s2) +:+ s3 = s1 +:+ (s2 +:+ s3).
Proof. induction s1 as [|c s1 IH]; [done|]. by rewrite !append_cons, IH. Qed.

Lemma length_append (s1 s2 : string) :
  String.length (s1 +:+ s2) = (String.length s1 + String.length s2)%nat.
Proof. induction s1 as [|c s1 IH]; [done|]. rewrite append_cons. simpl. by rewrite IH. Qed.

(** The digits [toDigits] puts before [acc] read back as [n]. *)
Lemma parseDigits_toDigits fuel : forall n acc a,
  (n < 2 ^ N.of_nat fuel)%N ->
  exists digits,
    toDigits fuel n acc = digits +:+ acc
    /\ forall rest, parseDigits (digits +:+ rest) a
         = parseDigits rest (a * 10 ^ N.of_nat (String.length digits) + n)%N.
Proof.
  induction fuel as [|fuel IH]; intros n acc a Hn.
  - exists EmptyString. split; [done|]. intros rest.
    change (2 ^ N.of_nat 0)%N with 1%N in Hn. assert (n = 0)%N as -> by lia.
    rewrite append_nil. change (10 ^ N.of_nat (String.length ""))%N with 1%N. f_equal. lia.
  - cbn [toDigits].
    pose proof (N.Div0.div_mod n 10) as Hdiv.
    pose proof (N.mod_lt n 10 ltac:(lia)) as Hmod.
    pose proof (digitChar_value (n mod 10) Hmod) as Hdigit.
    destruct (n / 10 =? 0)%N eqn:Hlast.
    + apply N.eqb_eq in Hlast.
      exists (String (digitChar (n mod 10)) EmptyString). split; [done|].
      intros rest. rewrite append_cons, append_nil. cbn [parseDigits]. rewrite Hdigit.
      change (10 ^ N.of_nat (String.length (String (digitChar (n mod 10)) "")))%N with 10%N.
      f_equal. clear Hn. lia.
    + assert (Hn' : (n / 10 < 2 ^ N.of_nat fuel)%N).
      { apply N.Div0.div_lt_upper_bound.
        rewrite Nat2N.inj_succ, N.pow_succ_r' in Hn. clear Hdiv Hmod Hdigit. lia. }
      destruct (IH (n / 10)%N (String (digitChar (n mod 10)) acc) a Hn')
        as (digits & Heq & Hparse).
      exists (digits +:+ String (digitChar (n mod 10)) EmptyString). split.
      * by rewrite Heq, append_assoc.
      * intros rest. rewrite append_assoc, Hparse, append_cons, append_nil.
        cbn [parseDigits]. rewrite Hdigit, length_append.
        cbn [String.length]. f_equal.
        rewrite Nat2N.inj_add, N.pow_add_r. change (10 ^ N.of_nat 1)%N with 10%N.
        clear Hn Hn' Hparse. generalize dependent (10 ^ N.of_nat (String.length digits))%N.
        intros. lia.
Qed.

Lemma parseDigits_Number_toString (n : N) :
  parseDigits (Number_toString n) 0%N = n.
Proof.
  unfold Number_toString.
  destruct (parseDigits_toDigits (S (N.to_nat (N.log2 n))) n EmptyString 0%N)
    as (digits & Heq & Hparse).
  { rewrite Nat2N.inj_succ, N2Nat.id.
    destruct (N.eq_dec n 0%N) as [->|Hn]; [done|]. apply N.log2_spec. lia. }
  rewrite Heq, (Hparse EmptyString). simpl. lia.
Qed.

Lemma Number_toString_inj (a b : N) :
  Number_toString a = Number_toString b -> a = b.
Proof.
  intros H. rewrite <- (parseDigits_Number_toString a), <- (parseDigits_Number_toString b).
  by rewrite H.
Qed.

Lemma String_leb_iff (s1 s2 : string) :
  String.leb s1 s2 = true <-> s1 = s2 \/ OrderedTypeEx.String_as_OT.lt s1 s2.
Proof.
  unfold String.leb. rewrite <- OrderedTypeEx.String_as_OT.cmp_lt.
  rewrite <- (OrderedTypeEx.String_as_OT.cmp_eq s1 s2).
  change (OrderedTypeEx.String_as_OT.cmp s1 s2) with (String.compare s1 s2).
  destruct (String.compare s1 s2); intuition discriminate.
Qed.

Lemma String_leb_trans (s1 s2 s3 : string) :
  String.leb s1 s2 = true -> String.leb s2 s3 = true -> String.leb s1 s3 = true.
Proof.
  rewrite !String_leb_iff. intros [->|H12] [->|H23]; auto.
  right. by apply (OrderedTypeEx.String_as_OT.lt_trans s1 s2 s3).
Qed.

(** ** Facts about objects *)

Lemma mapValues_Normal {V W} (f : V -> string -> Completion W) o r :
  mapValues f o = Normal r ->
  Forall2 (fun kv kw => kv.1 = kw.1 /\ f kv.2 kv.1 = Normal kw.2) o r.
Proof.
  revert r. induction o as [|[k v] o IH]; simpl; intros r H.
  - injection H as <-. constructor.
  - destruct (f v k) as [w|e] eqn:Hf; simpl in H; [|discriminate].
    destruct (mapValues f o) as [rest|e]; simpl in H; [|discriminate].
    injection H as <-. constructor; auto.
Qed.

Lemma mapValues_Throw {V W} (f : V -> string -> Completion W) o :
  isThrow (mapValues f o) = true <->
  exists k v, (k, v) ∈ o /\ isThrow (f v k) = true.
Proof.
  induction o as [|[k v] o IH]; simpl.
  - split; [discriminate|]. intros (k & v & Hin & _). inversion Hin.
  - destruct (f v k) as [w|e] eqn:Hf; simpl.
    + destruct (mapValues f o) as [rest|e]; simpl in *.
      * split; [discriminate|]. intros (k' & v' & Hin & Ht).
        apply elem_of_cons in Hin as [[= -> ->]|Hin].
        -- rewrite Hf in Ht. discriminate.
        -- apply IH. eauto.
      * split; [|reflexivity]. intros _.
        destruct IH as [IH _]. destruct (IH eq_refl) as (k' & v' & Hin & Ht).
        exists k', v'. split; [by apply elem_of_cons; right | done].
    + split; [|reflexivity]. intros _. exists k, v.
      split; [apply elem_of_cons; by left | by rewrite Hf].
Qed.

Lemma get_mapValues {V W} (f : V -> string -> Completion W) o r k v :
  mapValues f o = Normal r -> get o k = Some v ->
  exists w, f v k = Normal w /\ get r k = Some w.
Proof.
  revert r. induction o as [|[k' v'] o IH]; simpl; intros r H Hget; [discriminate|].
  destruct (f v' k') as [w|e] eqn:Hf; simpl in H; [|discriminate].
  destruct (mapValues f o) as [rest|e]; simpl in H; [|discriminate].
  injection H as <-. simpl.
  destruct (String.eqb k' k) eqn:Hk.
  - apply String.eqb_eq in Hk as ->. injection Hget as ->. eauto.
  - eauto.
Qed.

Lemma get_app {V} (o1 o2 : JsObject V) k :
  get (o1 ++ o2) k = match get o1 k with Some v => Some v | None => get o2 k end.
Proof.
  induction o1 as [|[k' v'] o1 IH]; simpl; [done|]. by destruct (String.eqb k' k).
Qed.

Lemma get_Some_elem_of {V} (o : JsObject V) k v : get o k = Some v -> (k, v) ∈ o.
Proof.
  induction o as [|[k' v'] o IH]; simpl; [done|].
  destruct (String.eqb k' k) eqn:Hk.
  - apply String.eqb_eq in Hk as ->. intros [= ->]. by left.
  - intros H. right. by apply IH.
Qed.

Lemma get_is_Some {V} (o : JsObject V) k : is_Some (get o k) <-> k ∈ keys o.
Proof.
  unfold keys. induction o as [|[k' v'] o IH]; simpl.
  - split; [by intros [? ?] | by intros ?%elem_of_nil].
  - destruct (String.eqb k' k) eqn:Hk.
    + apply String.eqb_eq in Hk as ->. split; [by left | by eexists].
    + apply String.eqb_neq in Hk. rewrite IH, elem_of_cons. clear IH.
      split; [by right | by intros [?|?]].
Qed.


(** When [mapValues] throws, the error is the one of the first entry, in
    enumeration order, on which the callback throws. *)
Lemma mapValues_Throw_first {V W} (f : V -> string -> Completion W) o e :
  mapValues f o = Throw e ->
  exists before k v after,
    o = before ++ (k, v) :: after
    /\ Forall (fun kv => isThrow (f kv.2 kv.1) = false) before
    /\ f v k = Throw e.
Proof.
  induction o as [|[k v] o IH]; simpl; [done|].
  destruct (f v k) as [w|e'] eqn:Hf; simpl.
  - destruct (mapValues f o) as [rest|e'']; simpl; [done|]. intros [= ->].
    destruct (IH eq_refl) as (before & k' & v' & after & -> & Hbefore & Hthrow).
    exists ((k, v) :: before), k', v', after. split; [done|]. split; [|done].
    constructor; [simpl; by rewrite Hf | done].
  - intros [= ->]. by exists [], k, v, o.
Qed.

(** ** More facts about objects built by assignment *)

Lemma elem_of_set {V} (k : string) (v : V) (o : JsObject V) kv :
  kv ∈ set k v o -> kv = (k, v) \/ kv ∈ o.
Proof.
  induction o as [|[k' v'] o IH]; simpl.
  - intros ->%list_elem_of_singleton. by left.
  - destruct (String.eqb k' k) eqn:Hk.
    + apply String.eqb_eq in Hk as ->.
      intros [->|H]%elem_of_cons; [by left | right; by right].
    + intros [->|H]%elem_of_cons; [right; by left|].
      destruct (IH H) as [->|H']; [by left | right; by right].
Qed.

Lemma keys_set {V} (k : string) (v : V) (o : JsObject V) :
  keys (set k v o) = if bool_decide (k ∈ keys o) then keys o else keys o ++ [k].
Proof.
  unfold keys. induction o as [|[k' v'] o IH]; simpl; [done|].
  destruct (String.eqb k' k) eqn:Hk.
  - apply String.eqb_eq in Hk as ->. simpl.
    rewrite bool_decide_eq_true_2; [done | by left].
  - apply String.eqb_neq in Hk. simpl. rewrite IH.
    case_bool_decide as H1; case_bool_decide as H2; try done.
    + exfalso. apply H2. by right.
    + exfalso. apply elem_of_cons in H2 as [->|H2]; done.
Qed.

Lemma spread_snoc {V} (o source : JsObject V) kv :
  spread o (source ++ [kv]) = set kv.1 kv.2 (spread o source).
Proof. unfold spread. by rewrite fold_left_app. Qed.

Lemma elem_of_spread {V} (o source : JsObject V) kv :
  kv ∈ spread o source -> kv ∈ o \/ kv ∈ source.
Proof.
  induction source as [|[k v] source IH] using rev_ind; [by left|].
  rewrite spread_snoc. simpl. intros [->|H]%elem_of_set.
  - right. apply elem_of_app. right. by left.
  - destruct (IH H) as [?|?]; [by left | right; apply elem_of_app; by left].
Qed.

Lemma keys_spread {V} (o source : JsObject V) :
  NoDup (keys o) ->
  NoDup (keys (spread o source))
  /\ forall k, k ∈ keys (spread o source) <-> k ∈ keys o \/ k ∈ keys source.
Proof.
  intros Ho. induction source as [|[k v] source [IH1 IH2]] using rev_ind.
  - split; [done|]. intros k. split; [by left | intros [?|H]; [done | inversion H]].
  - rewrite spread_snoc. simpl. rewrite keys_set.
    assert (Hkeys : keys (source ++ [(k, v)]) = keys source ++ [k])
      by (unfold keys; by rewrite map_app).
    rewrite Hkeys. clear Hkeys.
    case_bool_decide as Hk.
    + split; [done|]. intros k'. rewrite IH2, elem_of_app, list_elem_of_singleton.
      split; [intros [?|?]; auto|]. intros [?|[?| ->]]; auto. by apply IH2.
    + split.
      * apply NoDup_app. split; [done|]. split; [|apply NoDup_singleton].
        intros k' H ->%list_elem_of_singleton. done.
      * intros k'. rewrite !elem_of_app, IH2, list_elem_of_singleton. tauto.
Qed.

Lemma set_app_notin {V} (k : string) (v : V) (o1 o2 : JsObject V) :
  k ∉ keys o1 -> set k v (o1 ++ o2) = o1 ++ set k v o2.
Proof.
  unfold keys. induction o1 as [|[k' v'] o1 IH]; simpl; [done|].
  intros [Hne Hnotin]%not_elem_of_cons.
  destruct (String.eqb k' k) eqn:Hk; [by apply String.eqb_eq in Hk|].
  by rewrite IH.
Qed.

Lemma set_here {V} (k : string) (v v' : V) (o : JsObject V) :
  set k v ((k, v') :: o) = (k, v) :: o.
Proof. simpl. by rewrite String.eqb_refl. Qed.

(** Spreading an object's own values, mapped, over it replaces every value
    in place. *)
Lemma spread_mapped_from {V} (g : V -> V) (todo : JsObject V) : forall before : JsObject V,
  NoDup (keys (before ++ todo)) ->
  spread (before ++ todo) (map (fun kv => (kv.1, g kv.2)) todo)
  = before ++ map (fun kv => (kv.1, g kv.2)) todo.
Proof.
  unfold keys, spread. induction todo as [|[k v] todo IH]; intros before Hdup; simpl; [done|].
  rewrite map_app in Hdup. simpl in Hdup.
  apply NoDup_app in Hdup as (Hbefore & Hk & Htodo).
  rewrite set_app_notin, set_here by (intros H; by apply (Hk k H); left).
  rewrite (cons_middle _ before todo), app_assoc. rewrite IH.
  - by rewrite <- app_assoc.
  - rewrite <- app_assoc, map_app. simpl. apply NoDup_app. done.
Qed.

Lemma spread_mapped {V} (g : V -> V) (o : JsObject V) :
  NoDup (keys o) ->
  spread o (map (fun kv => (kv.1, g kv.2)) o) = map (fun kv => (kv.1, g kv.2)) o.
Proof. intros H. by apply (spread_mapped_from g o []). Qed.

Lemma set_notin {V} (k : string) (v : V) (o : JsObject V) :
  k ∉ keys o -> set k v o = o ++ [(k, v)].
Proof. intros H. rewrite <- (app_nil_r o) at 1. by rewrite set_app_notin. Qed.

(** Assigning the properties of an object to an empty one copies it. *)
Lemma spread_empty {V} (o : JsObject V) : NoDup (keys o) -> spread [] o = o.
Proof.
  unfold keys. induction o as [|[k v] o IH] using rev_ind; [done|].
  rewrite map_app. intros (Ho & Hk & _)%NoDup_app.
  rewrite spread_snoc, IH by done. simpl. apply set_notin.
  intros H. apply (Hk k H). by left.
Qed.

(** ** Facts about completions *)

Lemma bind_Normal_inv {A B} (c : Completion A) (k : A -> Completion B) b :
  c ≫= k = Normal b <-> exists a, c = Normal a /\ k a = Normal b.
Proof.
  destruct c as [a|e]; simpl; split.
  - intros H. by exists a.
  - by intros (a' & [= <-] & H).
  - discriminate.
  - by intros (a' & [=] & _).
Qed.

Lemma bind_Throw_inv {A B} (c : Completion A) (k : A -> Completion B) e :
  c ≫= k = Throw e <-> c = Throw e \/ exists a, c = Normal a /\ k a = Throw e.
Proof.
  destruct c as [a|e']; simpl; split.
  - intros H. right. by exists a.
  - by intros [[=]|(a' & [= <-] & H)].
  - intros [= ->]. by left.
  - intros [[= ->]|(a' & H & _)]; [done | discriminate H].
Qed.

Lemma isThrow_true {A} (c : Completion A) : isThrow c = true <-> exists e, c = Throw e.
Proof. destruct c; simpl; split; try done; [by intros [? ?] | by eexists]. Qed.


(** ** Facts about [encodeURIComponent] *)

(** Text of the first 128 characters only. *)
Fixpoint isAsciiText (s : string) : bool :=
  match s with
  | EmptyString => true
  | String c s' => (Ascii.N_of_ascii c <? 128)%N && isAsciiText s'
  end.

Lemma isAsciiText_append (s t : string) :
  isAsciiText (s +:+ t) = isAsciiText s && isAsciiText t.
Proof.
  induction s as [|c s IH]; [by rewrite append_nil|].
  rewrite append_cons. simpl. by rewrite IH, andb_assoc.
Qed.

Lemma isAsciiText_no_surrogate (t : string) : isAsciiText t = true -> hasLoneSurrogate t = false.
Proof.
  induction t as [|c t IH]; [done|]. simpl. intros [Hc Ht]%andb_true_iff.
  destruct t as [|d t]; [done|]. rewrite (IH Ht), orb_false_r.
  apply andb_false_iff. left. apply N.eqb_neq. apply N.ltb_lt in Hc. lia.
Qed.

(** Appending plain text to a string neither makes nor completes a lone
    surrogate. *)
Lemma hasLoneSurrogate_append (s t : string) :
  isAsciiText t = true -> hasLoneSurrogate (s +:+ t) = hasLoneSurrogate s.
Proof.
  intros Ht. induction s as [|c s IH].
  - rewrite append_nil. by apply isAsciiText_no_surrogate.
  - rewrite append_cons. destruct s as [|d s].
    + rewrite append_nil. simpl. destruct t as [|d t]; [done|].
      rewrite (isAsciiText_no_surrogate _ Ht), orb_false_r.
      simpl in Ht. apply andb_true_iff in Ht as [Hd _]. apply N.ltb_lt in Hd.
      apply andb_false_iff. right. apply N.leb_gt. lia.
    + rewrite append_cons in *. cbn [hasLoneSurrogate] in *. by rewrite IH.
Qed.

Lemma isAsciiText_toDigits fuel : forall n acc,
  isAsciiText acc = true -> isAsciiText (toDigits fuel n acc) = true.
Proof.
  induction fuel as [|fuel IH]; intros n acc Hacc; [done|]. simpl.
  assert (Hd : isAsciiText (String (digitChar (n mod 10)) acc) = true).
  { simpl. rewrite Hacc, andb_true_r. apply N.ltb_lt. unfold digitChar.
    pose proof (N.mod_lt n 10 ltac:(lia)) as Hlt.
    rewrite Ascii.N_ascii_embedding by lia. lia. }
  destruct (n / 10 =? 0)%N; [done | by apply IH].
Qed.

Lemma isAsciiText_Array_join (l : list N) : isAsciiText (Array_join "," l) = true.
Proof.
  unfold Array_join. induction l as [|n l IH]; [done|].
  assert (Hn : isAsciiText (Number_toString n) = true)
    by (by apply isAsciiText_toDigits).
  simpl. destruct (map Number_toString l) as [|m ms] eqn:E; [done|].
  by rewrite isAsciiText_append, Hn, isAsciiText_append, IH.
Qed.

End Js.

(** * The theme token compiler, [lib/themes/makeBraidTheme.ts] *)

Module Theme.
Import Js.

(** ** Token trees *)

(** [TreatTokens['color']['background']]: fifteen colour strings. *)
Record Background := {
  body : string;
  brand : string;
  input : string;
  inputDisabled : string;
  brandAccent : string;
  formAccent : string;
  formAccentDisabled : string;
  selection : string;
  info : string;
  promote : string;
  card : string;
  critical : string;
  caution : string;
  positive : string;
  neutral : string;
}.

(** The own properties of a [Background], enumerated in the order the
    interface declares them. *)
Definition Background_entries (b : Background) : JsObject string :=
  [ ("body", body b); ("brand", brand b); ("input", input b);
    ("inputDisabled", inputDisabled b); ("brandAccent", brandAccent b);
    ("formAccent", formAccent b); ("formAccentDisabled", formAccentDisabled b);
    ("selection", selection b); ("info", info b); ("promote", promote b);
    ("card", card b); ("critical", critical b); ("caution", caution b);
    ("positive", positive b); ("neutral", neutral b) ]%string.

(** ** Text sizes, [fontSizeToCapHeight] and [normaliseSizingToCapHeight] *)
Module Sizing.

(** [CapHeightText | FontSizeText]; the test ['fontSize' in size] tells the
    two apart. *)
Inductive TextSize :=
| CapHeightText (capHeight rows : float)
| FontSizeText (fontSize rows : float).

Definition rows (size : TextSize) : float :=
  match size with
  | CapHeightText _ rows_ | FontSizeText _ rows_ => rows_
  end.

(** [Record<TextBreakpoint, CapHeightText | FontSizeText>] *)
Record TextDefinition := { mobile : TextSize; tablet : TextSize }.

Record Heading := {
  weight : JsObject string;
  level : JsObject TextDefinition;
}.

(** [TreatTokens['typography']], with the font metrics of type [M]. *)
Record Typography (M : Type) := {
  fontFamily : string;
  webFont : option string;
  fontMetrics : M;
  fontWeight : JsObject N;
  heading : Heading;
  text : JsObject TextDefinition;
}.
Arguments fontFamily {M} _.
Arguments webFont {M} _.
Arguments fontMetrics {M} _.
Arguments fontWeight {M} _.
Arguments heading {M} _.
Arguments text {M} _.

Lemma Typography_eq {M} (a b : Typography M) :
  fontFamily a = fontFamily b -> webFont a = webFont b ->
  fontMetrics a = fontMetrics b -> fontWeight a = fontWeight b ->
  weight (heading a) = weight (heading b) -> level (heading a) = level (heading b) ->
  text a = text b ->
  a = b.
Proof. destruct a as [? ? ? ? [? ?] ?], b as [? ? ? ? [? ?] ?]; simpl; congruence. Qed.

(** lodash [mapValues] with a callback that does not throw. *)
Definition mapValues {V W} (iteratee : V -> W) (o : JsObject V) : JsObject W :=
  map (fun kv => (kv.1, iteratee kv.2)) o.

(** Whether both sizes of a definition are given as cap heights. *)
Definition isCapHeight (size : TextSize) : bool :=
  match size with CapHeightText _ _ => true | FontSizeText _ _ => false end.

Section CapHeight.

(** [FontMetrics] and [getCapHeight({ fontSize, fontMetrics })] of capsize. *)
Variable FontMetrics : Type.
Variable getCapHeight : float -> FontMetrics -> float.

(** One breakpoint of [fontSizeToCapHeight]:
    [{ capHeight: 'fontSize' in size ? getCapHeight(...) : size.capHeight, rows: size.rows }] *)
Definition toCapHeight (size : TextSize) (fontMetrics_ : FontMetrics) : TextSize :=
  CapHeightText
    match size with
    | FontSizeText fontSize _ => getCapHeight fontSize fontMetrics_
    | CapHeightText capHeight _ => capHeight
    end
    (rows size).

Definition fontSizeToCapHeight (definition : TextDefinition) (fontMetrics_ : FontMetrics)
    : TextDefinition :=
  {| mobile := toCapHeight (mobile definition) fontMetrics_;
     tablet := toCapHeight (tablet definition) fontMetrics_ |}.

Definition normaliseSizingToCapHeight (typography : Typography FontMetrics)
    : Typography FontMetrics :=
  let heading_ := heading typography in
  let text_ := text typography in
  let fontMetrics_ := fontMetrics typography in
  {| fontFamily := fontFamily typography;
     webFont := webFont typography;
     fontMetrics := fontMetrics typography;
     fontWeight := fontWeight typography;
     heading :=
       {| weight := weight heading_;
          level := spread [] (mapValues (fun definition =>
                                           fontSizeToCapHeight definition fontMetrics_)
                                        (level heading_)) |};
     text := spread text_ (mapValues (fun definition =>
                                        fontSizeToCapHeight definition fontMetrics_) text_) |}.

Lemma mapValues_does_not_throw {V W} (iteratee : V -> W) (o : JsObject V) :
  Js.mapValues (fun value _ => Normal (iteratee value)) o = Normal (mapValues iteratee o).
Proof.
  unfold mapValues. induction o as [|[k v] o IH]; simpl; [done|]. by rewrite IH.
Qed.

Lemma keys_mapValues_pure {V W} (iteratee : V -> W) (o : JsObject V) :
  keys (mapValues iteratee o) = keys o.
Proof. unfold keys, mapValues. rewrite map_map. by apply map_ext. Qed.

Lemma get_mapValues_pure {V W} (iteratee : V -> W) (o : JsObject V) k :
  get (mapValues iteratee o) k = iteratee <$> get o k.
Proof.
  unfold mapValues. induction o as [|[k' v'] o IH]; simpl; [done|].
  by destruct (String.eqb k' k).
Qed.

(** X16: a definition that went through [fontSizeToCapHeight] gives cap
    heights at both breakpoints and keeps its rows; a cap height that was
    given is kept as it is, whatever the font metrics; and converting a second
    time, with any font metrics, changes nothing. *)
Theorem fontSizeToCapHeight_idempotent (definition : TextDefinition)
    (fontMetrics1 fontMetrics2 : FontMetrics) :
  let converted := fontSizeToCapHeight definition fontMetrics1 in
  isCapHeight (mobile converted) = true
  /\ isCapHeight (tablet converted) = true
  /\ rows (mobile converted) = rows (mobile definition)
  /\ rows (tablet converted) = rows (tablet definition)
  /\ (isCapHeight (mobile definition) = true -> mobile converted = mobile definition)
  /\ (isCapHeight (tablet definition) = true -> tablet converted = tablet definition)
  /\ fontSizeToCapHeight converted fontMetrics2 = converted.
Proof.
  destruct definition as [[c1 r1|f1 r1] [c2 r2|f2 r2]]; simpl; repeat split; done.
Qed.

Lemma normaliseSizingToCapHeight_maps (typography : Typography FontMetrics) :
  NoDup (keys (level (heading typography))) ->
  NoDup (keys (text typography)) ->
  level (heading (normaliseSizingToCapHeight typography))
  = mapValues (fun definition => fontSizeToCapHeight definition (fontMetrics typography))
      (level (heading typography))
  /\ text (normaliseSizingToCapHeight typography)
     = mapValues (fun definition => fontSizeToCapHeight definition (fontMetrics typography))
         (text typography).
Proof.
  intros Hlevel Htext. simpl. split.
  - apply spread_empty. by rewrite keys_mapValues_pure.
  - by apply spread_mapped.
Qed.

(** X17: [normaliseSizingToCapHeight] converts every heading level and every
    text size with the font metrics of the typography itself, under the same
    keys in the same order, and leaves the rest of the typography (the font
    family, the web font, the font weights, the metrics and the heading
    weights) as it was. *)
Theorem normaliseSizingToCapHeight_sizes (typography : Typography FontMetrics) :
  NoDup (keys (level (heading typography))) ->
  NoDup (keys (text typography)) ->
  let normalised := normaliseSizingToCapHeight typography in
  keys (level (heading normalised)) = keys (level (heading typography))
  /\ keys (text normalised) = keys (text typography)
  /\ (forall key,
        get (level (heading normalised)) key
        = (fun definition => fontSizeToCapHeight definition (fontMetrics typography))
            <$> get (level (heading typography)) key)
  /\ (forall key,
        get (text normalised) key
        = (fun definition => fontSizeToCapHeight definition (fontMetrics typography))
            <$> get (text typography) key)
  /\ fontFamily normalised = fontFamily typography
  /\ webFont normalised = webFont typography
  /\ fontWeight normalised = fontWeight typography
  /\ fontMetrics normalised = fontMetrics typography
  /\ weight (heading normalised) = weight (heading typography).
Proof.
  intros Hlevel Htext normalised.
  destruct (normaliseSizingToCapHeight_maps typography Hlevel Htext) as [El Et].
  subst normalised. rewrite El, Et, !keys_mapValues_pure.
  repeat split; try done; intros key; apply get_mapValues_pure.
Qed.

(** X18: normalising a typography that is already normalised changes
    nothing. *)
Theorem normaliseSizingToCapHeight_idempotent (typography : Typography FontMetrics) :
  NoDup (keys (level (heading typography))) ->
  NoDup (keys (text typography)) ->
  normaliseSizingToCapHeight (normaliseSizingToCapHeight typography)
  = normaliseSizingToCapHeight typography.
Proof.
  intros Hlevel Htext.
  destruct (normaliseSizingToCapHeight_maps typography Hlevel Htext) as [El Et].
  assert (Hlevel' : NoDup (keys (level (heading (normaliseSizingToCapHeight typography)))))
    by (by rewrite El, keys_mapValues_pure).
  assert (Htext' : NoDup (keys (text (normaliseSizingToCapHeight typography))))
    by (by rewrite Et, keys_mapValues_pure).
  destruct (normaliseSizingToCapHeight_maps _ Hlevel' Htext') as [El' Et'].
  assert (Hidem : forall o : JsObject TextDefinition,
            mapValues (fun definition =>
                         fontSizeToCapHeight definition (fontMetrics typography))
              (mapValues (fun definition =>
                            fontSizeToCapHeight definition (fontMetrics typography)) o)
            = mapValues (fun definition =>
                           fontSizeToCapHeight definition (fontMetrics typography)) o).
  { intros o. unfold mapValues. rewrite map_map. apply map_ext. intros [k d]. simpl.
    reflexivity. }
  rewrite El, Hidem in El'. rewrite Et, Hidem in Et'.
  rewrite <- El in El'. rewrite <- Et in Et'.
  apply Typography_eq; try reflexivity; [exact El' | exact Et'].
Qed.

End CapHeight.

(** A text size given as a font size and a heading level given as a cap
    height, with metrics that halve the font size. *)
Definition sampleTypography : Typography float :=
  {| fontFamily := "Helvetica"; webFont := None; fontMetrics := 0.5%float;
     fontWeight := [("regular", 400%N)];
     heading := {| weight := [("regular", "regular")];
                   level := [("1", {| mobile := CapHeightText 20 9;
                                      tablet := FontSizeText 42 11 |})] |};
     text := [("standard", {| mobile := FontSizeText 16 6; tablet := FontSizeText 16 6 |});
              ("large", {| mobile := CapHeightText 12 7; tablet := CapHeightText 12 7 |})] |}.

Definition sampleCapHeight (fontSize metrics : float) : float := (fontSize * metrics)%float.

Lemma sample_sizes_normalised :
  let normalised := normaliseSizingToCapHeight float sampleCapHeight sampleTypography in
  text normalised
  = [("standard", {| mobile := CapHeightText 8 6; tablet := CapHeightText 8 6 |});
     ("large", {| mobile := CapHeightText 12 7; tablet := CapHeightText 12 7 |})]
  /\ keys (level (heading normalised)) = keys (level (heading sampleTypography))
  /\ keys (text normalised) = keys (text sampleTypography)
  /\ (forall key,
        get (level (heading normalised)) key
        = (fun definition =>
             fontSizeToCapHeight float sampleCapHeight definition
               (fontMetrics sampleTypography))
            <$> get (level (heading sampleTypography)) key)
  /\ (forall key,
        get (text normalised) key
        = (fun definition =>
             fontSizeToCapHeight float sampleCapHeight definition
               (fontMetrics sampleTypography))
            <$> get (text sampleTypography) key)
  /\ fontFamily normalised = fontFamily sampleTypography
  /\ webFont normalised = webFont sampleTypography
  /\ fontWeight normalised = fontWeight sampleTypography
  /\ fontMetrics normalised = fontMetrics sampleTypography
  /\ weight (heading normalised) = weight (heading sampleTypography).
Proof.
  intros normalised. split; [vm_compute; reflexivity|].
  apply (normaliseSizingToCapHeight_sizes float sampleCapHeight sampleTypography).
  - vm_compute. apply NoDup_singleton.
  - vm_compute. apply NoDup_cons. split; [|apply NoDup_singleton].
    by intros [=]%list_elem_of_singleton.
Defined.

Lemma sample_sizes_normalised_twice :
  NoDup (keys (level (heading sampleTypography)))
  /\ NoDup (keys (text sampleTypography))
  /\ normaliseSizingToCapHeight float sampleCapHeight
       (normaliseSizingToCapHeight float sampleCapHeight sampleTypography)
     = normaliseSizingToCapHeight float sampleCapHeight sampleTypography.
Proof.
  assert (H1 : NoDup (keys (level (heading sampleTypography))))
    by (vm_compute; apply NoDup_singleton).
  assert (H2 : NoDup (keys (text sampleTypography))).
  { vm_compute. apply NoDup_cons. split; [|apply NoDup_singleton].
    by intros [=]%list_elem_of_singleton. }
  split; [exact H1|]. split; [exact H2|].
  exact (normaliseSizingToCapHeight_idempotent float sampleCapHeight sampleTypography H1 H2).
Defined.

End Sizing.

(** ** The rest of a token tree *)

Record Breakpoints := { mobile : N; tablet : N; desktop : N }.

(** The colours of a token tree, with the background palette of type [B]:
    [Background] for the tokens a theme supplies, an object with the derived
    colours added for the decorated ones. *)
Record Color (B : Type) := {
  foreground : JsObject string;
  background : B;
}.
Arguments foreground {B} _.
Arguments background {B} _.

(** A token tree, with font metrics of type [M] and the palette of type [B].
    [utils] is what [decorateTokens] adds; the tokens a theme supplies have
    no such property, and its type [U] is [unit] there. The token groups
    left out ([contentWidth], [touchableSize], [transforms], [transitions],
    [border], [shadows]) are copied by [decorateTokens] as they are and read
    by none of the functions of this module. *)
Record Tokens (M B U : Type) := {
  name : string;
  displayName : string;
  typography : Sizing.Typography M;
  breakpoint : Breakpoints;
  grid : N;
  space : JsObject N;
  color : Color B;
  utils : U;
}.
Arguments name {M B U} _.
Arguments displayName {M B U} _.
Arguments typography {M B U} _.
Arguments breakpoint {M B U} _.
Arguments grid {M B U} _.
Arguments space {M B U} _.
Arguments color {M B U} _.
Arguments utils {M B U} _.

Definition TreatTokens (M : Type) : Type := Tokens M Background unit.
Definition TreatTheme (M U : Type) : Type := Tokens M (JsObject string) U.

(** [{ ...tokens, utils }] *)
Definition withUtils {M B U V} (tokens : Tokens M B U) (utils_ : V) : Tokens M B V :=
  {| name := name tokens;
     displayName := displayName tokens;
     typography := typography tokens;
     breakpoint := breakpoint tokens;
     grid := grid tokens;
     space := space tokens;
     color := color tokens;
     utils := utils_ |}.

Inductive Lightness := light | dark.

#[export] Instance Lightness_eq_dec : EqDecision Lightness.
Proof. solve_decision. Defined.

Record LinkDescriptor := { linkTag : string }.

Record SpaceTokens := { space_grid : N; space_space : JsObject N }.

(** What [makeRuntimeTokens] returns. [rt_background] is
    [tokens.color.background.body], [undefined] when the palette has none. *)
Record RuntimeTokens := {
  rt_name : string;
  rt_displayName : string;
  rt_background : option string;
  webFonts : list LinkDescriptor;
  rt_space : SpaceTokens;
  rt_breakpoint : Breakpoints;
  rt_color : Color (JsObject string);
  backgroundLightness : JsObject Lightness;
}.

(** What [makeBraidTheme] returns: what [createTheme] of sku/treat made of
    the decorated tokens, a value of type [T], and the runtime tokens. *)
Record BraidTheme (T : Type) := {
  treatTheme : T;
  runtimeTokens : RuntimeTokens;
}.
Arguments treatTheme {T} _.
Arguments runtimeTokens {T} _.

(** ** Web font links *)

(** The template string of [makeWebFonts], around the encoded family and
    weights. *)
Definition linkTagTemplate (family : string) : string :=
  "<link href=" +:+ dquote +:+ "https://fonts.googleapis.com/css?family="
  +:+ family
  +:+ dquote +:+ " rel=" +:+ dquote +:+ "stylesheet" +:+ dquote +:+ " />".

(** The link tag for a family name and its weights; it raises when
    [encodeURIComponent] does. *)
Definition webFontLinkTag (name : string) (weights : list N) : Completion string :=
  linkTagTemplate <$> encodeURIComponent (name +:+ ":" +:+ Array_join "," weights).

Definition makeWebFonts {M B U} (tokens : Tokens M B U) : Completion (list LinkDescriptor) :=
  match Sizing.webFont (typography tokens) with
  | None | Some EmptyString => mret []                      (* !name *)
  | Some name =>
      let weights := values (Sizing.fontWeight (typography tokens)) in
      linkTag_ ← webFontLinkTag name (Array_sort weights);
      mret [ {| linkTag := linkTag_ |} ]
  end.

(** What the specification asks of the weight list: the declared weights as
    a set, in ascending numeric order. *)
Definition weightSetAscending (weights : list N) : list N :=
  merge_sort N.le (remove_dups weights).

(** ** The compiler

    What the module imports: [darken] and [lighten] from polished, [isLight]
    and [getLightVariant] from [lib/utils] (which calls polished),
    [getCapHeight] from capsize, [makeThemeUtils] from [./themeUtils] and
    [createTheme] from sku/treat. None of them is part of this module, and the
    compiler is modelled over any functions of their types. The colour
    functions raise on a string they cannot read as a colour, and nothing is
    known of [makeThemeUtils] and [createTheme], so all of these may raise;
    [getCapHeight] is arithmetic on numbers and does not. [M] is the type of
    the font metrics, [U] of the theme utilities, [T] of the theme
    [createTheme] makes. *)
Record Imports (M U T : Type) := {
  isLight : string -> Completion bool;
  darken : float -> string -> Completion string;
  lighten : float -> string -> Completion string;
  getLightVariant : string -> Completion string;
  getCapHeight : float -> M -> float;
  makeThemeUtils : TreatTheme M unit -> Completion U;
  createTheme : TreatTheme M U -> Completion T;
}.
Arguments isLight {M U T} _.
Arguments darken {M U T} _.
Arguments lighten {M U T} _.
Arguments getLightVariant {M U T} _.
Arguments getCapHeight {M U T} _.
Arguments makeThemeUtils {M U T} _.
Arguments createTheme {M U T} _.

Section Compiler.

Context {FontMetrics Utils CreatedTheme : Type}.
Variable lib : Imports FontMetrics Utils CreatedTheme.

Definition getActiveColor (x : string) : Completion string :=
  isLight_ ← isLight lib x;
  if isLight_ : bool then darken lib 0.1 x else darken lib 0.05 x.

Definition getHoverColor (x : string) : Completion string :=
  isLight_ ← isLight lib x;
  if isLight_ : bool then darken lib 0.05 x else lighten lib 0.05 x.

(** The [background] object literal of [decorateTokens]: the spread of the
    supplied palette, then the twelve derived colours, computed in the order
    the literal lists them. *)
Definition decorateBackground (b : Background) : Completion (JsObject string) :=
  formAccentActive ← getActiveColor (formAccent b);
  formAccentHover ← getHoverColor (formAccent b);
  brandAccentActive ← getActiveColor (brandAccent b);
  brandAccentHover ← getHoverColor (brandAccent b);
  criticalActive ← getActiveColor (critical b);
  criticalHover ← getHoverColor (critical b);
  infoLight ← getLightVariant lib (info b);
  promoteLight ← getLightVariant lib (promote b);
  criticalLight ← getLightVariant lib (critical b);
  positiveLight ← getLightVariant lib (positive b);
  cautionLight ← getLightVariant lib (caution b);
  neutralLight ← getLightVariant lib (neutral b);
  mret (spread (Background_entries b)
          [ ("formAccentActive", formAccentActive);
            ("formAccentHover", formAccentHover);
            ("brandAccentActive", brandAccentActive);
            ("brandAccentHover", brandAccentHover);
            ("criticalActive", criticalActive);
            ("criticalHover", criticalHover);
            ("infoLight", infoLight);
            ("promoteLight", promoteLight);
            ("criticalLight", criticalLight);
            ("positiveLight", positiveLight);
            ("cautionLight", cautionLight);
            ("neutralLight", neutralLight) ]%string).

Definition decorateTokens (treatTokens : TreatTokens FontMetrics)
    : Completion (TreatTheme FontMetrics Utils) :=
  background_ ← decorateBackground (background (color treatTokens));
  let decoratedTokens : TreatTheme FontMetrics unit :=
    {| name := name treatTokens;
       displayName := displayName treatTokens;
       typography := Sizing.normaliseSizingToCapHeight FontMetrics (getCapHeight lib)
                       (typography treatTokens);
       breakpoint := breakpoint treatTokens;
       grid := grid treatTokens;
       space := space treatTokens;
       color := {| foreground := foreground (color treatTokens);
                   background := background_ |};
       utils := tt |} in
  utils_ ← makeThemeUtils lib decoratedTokens;
  mret (withUtils decoratedTokens utils_).

(** ** Background lightness *)

Definition referenceColorMap : JsObject string :=
  [ ("brandAccentActive", "brandAccent"); ("brandAccentHover", "brandAccent");
    ("formAccentActive", "formAccent"); ("formAccentHover", "formAccent") ]%string.

(** The colour whose lightness classifies the entry [name]. For a [name]
    that is [in referenceColorMap] it is the palette's colour under
    [referenceColorMap[name]]: the base colour for the four keys the map
    lists; for a name the map inherits ([toString], ...) the value is a
    member of [Object.prototype], which as a property key is its string.
    Otherwise it is the entry's own value. [None] is [undefined]. *)
Definition referenceColor {M U} (tokens : TreatTheme M U) (background_ name_ : string)
    : option string :=
  match read referenceColorMap name_ with
  | Own base => get (background (color tokens)) base
  | Inherited member => get (background (color tokens)) (prototypeMemberToString member)
  | Undefined => Some background_
  end.

Definition lightnessError {M U} (tokens : TreatTheme M U) (background_ : string) : JsError :=
  Error ("Error resolving background lightness for background " +:+ dquote
         +:+ background_ +:+ dquote +:+ " in " +:+ dquote +:+ name tokens
         +:+ dquote +:+ " theme.").

(** [tokens.name === 'jobsDb' && /^brandAccent/.test(name)], the manual
    override: the entry is [dark] whatever its colour. *)
Definition forcedDark {M U} (tokens : TreatTheme M U) (name_ : string) : bool :=
  String.eqb (name tokens) "jobsDb" && String.prefix "brandAccent" name_.

(** [isLight(c) ? 'light' : 'dark'] *)
Definition classify (c : string) : Completion Lightness :=
  isLight_ ← isLight lib c;
  mret (if isLight_ : bool then light else dark).

(** The callback [makeRuntimeTokens] gives to [mapValues]. *)
Definition lightnessOf {M U} (tokens : TreatTheme M U) (background_ name_ : string)
    : Completion Lightness :=
  if forcedDark tokens name_ then Normal dark
  else
    match referenceColor tokens background_ name_ with
    | None | Some EmptyString => Throw (lightnessError tokens background_)
    | Some reference => classify reference
    end.

Definition makeRuntimeTokens {M U} (tokens : TreatTheme M U) : Completion RuntimeTokens :=
  webFonts_ ← makeWebFonts tokens;
  lightness ← mapValues (lightnessOf tokens) (background (color tokens));
  mret {| rt_name := name tokens;
          rt_displayName := displayName tokens;
          rt_background := get (background (color tokens)) "body";
          webFonts := webFonts_;
          rt_space := {| space_grid := grid tokens; space_space := space tokens |};
          rt_breakpoint := breakpoint tokens;
          rt_color := color tokens;
          backgroundLightness := lightness |}.

Definition makeBraidTheme (treatTokens : TreatTokens FontMetrics)
    : Completion (BraidTheme CreatedTheme) :=
  decoratedTokens ← decorateTokens treatTokens;
  treatTheme_ ← createTheme lib decoratedTokens;
  runtime ← makeRuntimeTokens decoratedTokens;
  mret {| treatTheme := treatTheme_; runtimeTokens := runtime |}.

End Compiler.

(** ** A grey-scale instance of the imports

    polished, [lib/utils], capsize, [./themeUtils] and sku/treat are not part
    of the sources at hand. In this instance a colour string is a grey
    written as its lightness in percent (["62"] is 62% light); any other
    string is not a colour. *)
Module Grey.

Fixpoint allDigits (c : string) : bool :=
  match c with
  | EmptyString => true
  | String d c' =>
      (48 <=? Ascii.N_of_ascii d)%N && (Ascii.N_of_ascii d <=? 57)%N && allDigits c'
  end.

(** Reading a colour string: an error, as polished raises one, on a string
    that is not a colour. *)
Definition lightnessPercent (c : string) : Completion N :=
  match c with
  | EmptyString => Throw (HostError "Couldn't parse the color string.")
  | _ => if allDigits c then Normal (parseDigits c 0)
         else Throw (HostError "Couldn't parse the color string.")
  end.

(** [amount * 100], rounded down. *)
Definition percentOf (amount : float) : N :=
  match Prim2SF (amount * 100) with
  | S754_finite false m e => Z.to_N (Z.shiftl (Z.pos m) e)
  | _ => 0%N
  end.

(** Modelled from the spec: [isLight] of [lib/utils], "perceptually light
    (above a fixed lightness threshold)"; the threshold is 60% here. *)
Definition isLight (c : string) : Completion bool :=
  percent ← lightnessPercent c; mret (60 <? percent)%N.

(** Modelled from the spec: [darken] of polished, "darken it by" the given
    amount: the lightness goes down by that many percent, not below 0. *)
Definition darken (amount : float) (c : string) : Completion string :=
  percent ← lightnessPercent c; mret (Number_toString (percent - percentOf amount)).

(** Modelled from the spec: [lighten] of polished, "lighten by a small
    amount": the lightness goes up by that many percent, not above 100. *)
Definition lighten (amount : float) (c : string) : Completion string :=
  percent ← lightnessPercent c;
  mret (Number_toString (N.min 100 (percent + percentOf amount))).

(** Modelled from the spec: [getLightVariant] of [lib/utils], "a
    desaturated/lightened variant used for subtle backgrounds",
    "parameterized only by the base color". *)
Definition getLightVariant (c : string) : Completion string :=
  percent ← lightnessPercent c; mret (Number_toString (N.max 90 percent)).

(** The cap height of a font is seven tenths of its size, whatever the
    metrics; there are no theme utilities; the theme made of a token tree is
    named as the token tree. *)
Definition imports : Imports unit unit string :=
  {| Theme.isLight := isLight;
     Theme.darken := darken;
     Theme.lighten := lighten;
     Theme.getLightVariant := getLightVariant;
     Theme.getCapHeight := fun fontSize _ => (fontSize * 0.7)%float;
     Theme.makeThemeUtils := fun _ => Normal tt;
     Theme.createTheme := fun decoratedTokens => Normal (name decoratedTokens) |}.

Definition paletteOn (body_ accent crit : string) : Background :=
  {| body := body_; brand := "30"; input := "100"; inputDisabled := "95";
     brandAccent := accent; formAccent := accent; formAccentDisabled := "80";
     selection := "90"; info := "40"; promote := "45"; card := "100";
     critical := crit; caution := "70"; positive := "50"; neutral := "35" |}.

Definition palette (accent crit : string) : Background := paletteOn "100" accent crit.

Definition typography_ (font : option string) (weights : JsObject N)
    : Sizing.Typography unit :=
  {| Sizing.fontFamily := "Helvetica"; Sizing.webFont := font;
     Sizing.fontMetrics := tt; Sizing.fontWeight := weights;
     Sizing.heading :=
       {| Sizing.weight := [("regular", "medium")];
          Sizing.level := [("1", {| Sizing.mobile := Sizing.FontSizeText 28 9;
                                    Sizing.tablet := Sizing.FontSizeText 42 11 |})] |};
     Sizing.text := [("standard", {| Sizing.mobile := Sizing.FontSizeText 16 6;
                                     Sizing.tablet := Sizing.CapHeightText 11 6 |})] |}.

Definition tokens (themeName : string) (font : option string)
    (weights : JsObject N) (palette_ : Background) : TreatTokens unit :=
  {| name := themeName; displayName := themeName;
     typography := typography_ font weights;
     breakpoint := {| mobile := 0; tablet := 740; desktop := 992 |};
     grid := 4;
     space := [("gutter", 6%N); ("xxsmall", 1%N); ("xsmall", 2%N); ("small", 3%N);
               ("medium", 5%N); ("large", 8%N); ("xlarge", 12%N); ("xxlarge", 24%N)];
     color := {| foreground := [("link", "35"); ("neutral", "10")];
                 background := palette_ |};
     utils := tt |}.

(** A decorated token tree with the palette [palette_], as
    [makeRuntimeTokens] may be given one. *)
Definition decorated (themeName : string) (palette_ : JsObject string) : TreatTheme unit unit :=
  {| name := themeName; displayName := themeName;
     typography := typography_ None [];
     breakpoint := {| mobile := 0; tablet := 740; desktop := 992 |};
     grid := 4; space := [];
     color := {| foreground := []; background := palette_ |};
     utils := tt |}.

End Grey.

(** The keys [decorateTokens] adds to the palette, in the order it adds them. *)
Definition derivedKeys : list string :=
  [ "formAccentActive"; "formAccentHover"; "brandAccentActive"; "brandAccentHover";
    "criticalActive"; "criticalHover"; "infoLight"; "promoteLight"; "criticalLight";
    "positiveLight"; "cautionLight"; "neutralLight" ].

(** Whether the callback of [makeRuntimeTokens] raises on an entry of the
    palette. *)
Definition offending {M U T M' U'} (lib : Imports M U T) (tokens : TreatTheme M' U')
    (entry : string * string) : bool :=
  isThrow (lightnessOf lib tokens entry.2 entry.1).

(** An error that one of the imported functions raised. *)
Definition thrownByImport {M U T} (lib : Imports M U T) (e : JsError) : Prop :=
  (exists c, isLight lib c = Throw e)
  \/ (exists amount c, darken lib amount c = Throw e)
  \/ (exists amount c, lighten lib amount c = Throw e)
  \/ (exists c, getLightVariant lib c = Throw e)
  \/ (exists decoratedTokens, makeThemeUtils lib decoratedTokens = Throw e)
  \/ (exists decoratedTokens, createTheme lib decoratedTokens = Throw e).

(** ** Properties of the web font links *)

#[export] Instance sortLe_total : Total sortLe.
Proof. intros a b. apply String.leb_total. Qed.

#[export] Instance sortLe_trans : Transitive sortLe.
Proof. intros a b c. apply String_leb_trans. Qed.

Lemma sortLe_antisym (a b : N) : sortLe a b -> sortLe b a -> a = b.
Proof. intros Hab Hba. by apply Number_toString_inj, String.leb_antisym. Qed.

(** [sort()] gives the same array for every order of the same elements. *)
Lemma Array_sort_Permutation (l1 l2 : list N) :
  l1 ≡ₚ l2 -> Array_sort l1 = Array_sort l2.
Proof.
  intros Hperm. apply (Sorted_unique_strong sortLe).
  - intros a b _ _. apply sortLe_antisym.
  - apply (Sorted_merge_sort sortLe).
  - apply (Sorted_merge_sort sortLe).
  - unfold Array_sort. by rewrite !merge_sort_Permutation.
Qed.

(** On the numbers from 100 to 999 the order of the decimal strings is the
    order of the numbers. *)
Lemma sortLe_threeDigits (a b : N) :
  (100 <= a <= 999)%N -> (100 <= b <= 999)%N -> sortLe a b -> (a <= b)%N.
Proof.
  intros Ha Hb. unfold sortLe, String.leb.
  rewrite !Number_toString_threeDigits by done. cbn [String.compare].
  assert (Hdigits : forall n, (100 <= n <= 999)%N ->
            (n / 100 < 10 /\ n / 10 mod 10 < 10 /\ n mod 10 < 10
             /\ n = 100 * (n / 100) + 10 * (n / 10 mod 10) + n mod 10)%N).
  { intros n Hn.
    pose proof (N.Div0.div_mod n 10) as E1. pose proof (N.Div0.div_mod (n / 10) 10) as E2.
    rewrite N.Div0.div_div in E2. change (10 * 10)%N with 100%N in E2.
    pose proof (N.mod_lt n 10 ltac:(lia)). pose proof (N.mod_lt (n / 10) 10 ltac:(lia)).
    assert (n / 100 < 10)%N by (apply N.Div0.div_lt_upper_bound; lia). lia. }
  destruct (Hdigits a Ha) as (Ha2 & Ha1 & Ha0 & Ea), (Hdigits b Hb) as (Hb2 & Hb1 & Hb0 & Eb).
  rewrite !digitChar_compare by done. clear Hdigits.
  revert Ha2 Ha1 Ha0 Ea Hb2 Hb1 Hb0 Eb.
  generalize (a / 100)%N, (a / 10 mod 10)%N, (a mod 10)%N,
             (b / 100)%N, (b / 10 mod 10)%N, (b mod 10)%N.
  intros a2 a1 a0 b2 b1 b0 Ha2 Ha1 Ha0 Ea Hb2 Hb1 Hb0 Eb.
  destruct (N.compare_spec a2 b2) as [E2|L2|G2]; [|lia|done].
  destruct (N.compare_spec a1 b1) as [E1|L1|G1]; [|lia|done].
  destruct (N.compare_spec a0 b0) as [E0|L0|G0]; [lia|lia|done].
Qed.

Lemma Sorted_sortLe_threeDigits (l : list N) :
  Forall (fun w => 100 <= w <= 999)%N l -> Sorted sortLe l -> Sorted N.le l.
Proof.
  intros Hall Hs. induction Hs as [|a l Hs IH Hhd]; [constructor|].
  apply Forall_cons in Hall as [Ha Hl]. constructor; [auto|].
  destruct Hhd as [|b l Hab]; constructor.
  apply Forall_cons in Hl as [Hb _]. by apply sortLe_threeDigits.
Qed.

Lemma Forall_Array_sort (P : N -> Prop) (l : list N) :
  Forall P l -> Forall P (Array_sort l).
Proof. intros H. unfold Array_sort. by rewrite merge_sort_Permutation. Qed.

Lemma Array_sort_threeDigits (l : list N) :
  Forall (fun w => 100 <= w <= 999)%N l -> Sorted N.le (Array_sort l).
Proof.
  intros H. apply Sorted_sortLe_threeDigits; [by apply Forall_Array_sort|].
  apply (Sorted_merge_sort sortLe).
Qed.

Lemma webFontLinkTag_Normal (family : string) (weights : list N) :
  hasLoneSurrogate family = false ->
  webFontLinkTag family weights
  = Normal (linkTagTemplate (percentEncode (family +:+ ":" +:+ Array_join "," weights))).
Proof.
  intros H. unfold webFontLinkTag, encodeURIComponent.
  rewrite hasLoneSurrogate_append, H; [done|].
  change (":" +:+ Array_join "," weights)
    with (String ":" EmptyString +:+ Array_join "," weights).
  by rewrite isAsciiText_append, isAsciiText_Array_join.
Qed.

Lemma webFontLinkTag_Throw (family : string) (weights : list N) :
  hasLoneSurrogate family = true ->
  webFontLinkTag family weights = Throw (URIError "URI malformed").
Proof.
  intros H. unfold webFontLinkTag, encodeURIComponent.
  rewrite hasLoneSurrogate_append, H; [done|].
  change (":" +:+ Array_join "," weights)
    with (String ":" EmptyString +:+ Array_join "," weights).
  by rewrite isAsciiText_append, isAsciiText_Array_join.
Qed.

Lemma makeWebFonts_empty {M B U} (tokens : Tokens M B U) :
  isFalsy (Sizing.webFont (typography tokens)) = true -> makeWebFonts tokens = Normal [].
Proof.
  unfold makeWebFonts. by destruct (Sizing.webFont (typography tokens)) as [[|]|].
Qed.

Lemma makeWebFonts_link {M B U} (tokens : Tokens M B U) (family : string) :
  Sizing.webFont (typography tokens) = Some family -> family <> EmptyString ->
  makeWebFonts tokens
  = (fun tag => [ {| linkTag := tag |} ])
      <$> webFontLinkTag family (Array_sort (values (Sizing.fontWeight (typography tokens)))).
Proof.
  unfold makeWebFonts. intros -> Hne. destruct family; [done|].
  by destruct (webFontLinkTag _ _).
Qed.

(** C2, amended: without a web font name ([null] or the empty string)
    [makeWebFonts] returns the empty list; with a non-empty name it returns
    exactly one link descriptor, whose weight list holds every declared weight
    as often as the font-weight table lists it (nothing is deduplicated), in
    the order of [sort()]; that order is ascending numeric order when all
    weights lie between 100 and 999. The result does not depend on the order
    in which the table lists the weights. (On a name with a lone surrogate,
    which is not text, [encodeURIComponent] raises and so does
    [makeWebFonts].) *)
Theorem makeWebFonts_weights {M B U} (tokens : Tokens M B U) :
  let weights := values (Sizing.fontWeight (typography tokens)) in
  (isFalsy (Sizing.webFont (typography tokens)) = true -> makeWebFonts tokens = Normal [])
  /\ (forall family, Sizing.webFont (typography tokens) = Some family ->
        family <> EmptyString ->
        exists sorted,
          (hasLoneSurrogate family = false ->
             makeWebFonts tokens
             = Normal [ {| linkTag := linkTagTemplate
                             (percentEncode (family +:+ ":" +:+ Array_join "," sorted)) |} ])
          /\ (hasLoneSurrogate family = true ->
                makeWebFonts tokens = Throw (URIError "URI malformed"))
          /\ sorted ≡ₚ weights
          /\ Sorted sortLe sorted
          /\ (Forall (fun w => 100 <= w <= 999)%N weights -> Sorted N.le sorted))
  /\ (forall tokens' : Tokens M B U,
        Sizing.webFont (typography tokens') = Sizing.webFont (typography tokens) ->
        values (Sizing.fontWeight (typography tokens')) ≡ₚ weights ->
        makeWebFonts tokens' = makeWebFonts tokens).
Proof.
  intros weights. split; [apply makeWebFonts_empty|]. split.
  - intros family Hfont Hne. exists (Array_sort weights).
    rewrite (makeWebFonts_link tokens family Hfont Hne). fold weights.
    split; [intros H; by rewrite webFontLinkTag_Normal|].
    split; [intros H; by rewrite webFontLinkTag_Throw|].
    split; [apply merge_sort_Permutation|].
    split; [apply (Sorted_merge_sort sortLe)|].
    apply Array_sort_threeDigits.
  - intros tokens' Hfont Hperm. unfold makeWebFonts. rewrite Hfont.
    by rewrite (Array_sort_Permutation _ _ Hperm).
Qed.

(** ** The href of a web font link *)

Lemma hexDigit_unreserved (d : N) : (d < 16)%N -> isUnreserved (hexDigit d) = true.
Proof.
  intros H. destruct d as [|p]; [reflexivity|].
  do 4 (destruct p as [p|p|]; try reflexivity); lia.
Qed.

Lemma percentEncode_chars (s : string) (c : ascii) :
  c ∈ String.list_ascii_of_string (percentEncode s) ->
  isUnreserved c = true \/ c = "%"%char.
Proof.
  induction s as [|c' s IH]; simpl; [by intros ?%elem_of_nil|].
  destruct (isUnreserved c') eqn:Hc'; simpl.
  - intros [->|H]%elem_of_cons; auto.
  - pose proof (Ascii.N_ascii_bounded c') as Hbound.
    intros [->|[->|[->|H]%elem_of_cons]%elem_of_cons]%elem_of_cons; auto; left.
    + apply hexDigit_unreserved, N.Div0.div_lt_upper_bound. lia.
    + apply hexDigit_unreserved, N.mod_lt. lia.
Qed.

(** X6: every link [makeWebFonts] returns is the fixed tag around a
    percent-encoded [family:weights] string; whatever the family name
    holds, that string has no double quote, angle bracket, ampersand or space
    in it (only letters, digits, [- _ . ! ~ * ' ( )] and [%]). *)
Theorem makeWebFonts_href_is_encoded {M B U} (tokens : Tokens M B U)
    (links : list LinkDescriptor) (link : LinkDescriptor) :
  makeWebFonts tokens = Normal links ->
  link ∈ links ->
  exists href,
    linkTag link
    = "<link href=" +:+ dquote +:+ "https://fonts.googleapis.com/css?family="
      +:+ href +:+ dquote +:+ " rel=" +:+ dquote +:+ "stylesheet" +:+ dquote +:+ " />"
    /\ (forall c, c ∈ String.list_ascii_of_string href ->
          isUnreserved c = true \/ c = "%"%char)
    /\ (forall c, c ∈ String.list_ascii_of_string (dquote +:+ "<>& ") ->
          c ∉ String.list_ascii_of_string href).
Proof.
  unfold makeWebFonts.
  destruct (Sizing.webFont (typography tokens)) as [[|c0 family]|];
    try (by intros [= <-] ?%elem_of_nil).
  unfold webFontLinkTag, encodeURIComponent.
  destruct (hasLoneSurrogate _); [done|].
  unfold fmap, Completion_fmap, mbind, Completion_bind, mret, Completion_ret.
  intros [= <-] ->%list_elem_of_singleton.
  exists (percentEncode (String c0 family +:+ ":" +:+ Array_join ","
            (Array_sort (values (Sizing.fontWeight (typography tokens)))))).
  split; [reflexivity|].
  split; [apply percentEncode_chars|].
  intros c Hc Hin. apply percentEncode_chars in Hin.
  simpl in Hc.
  repeat (apply elem_of_cons in Hc as [->|Hc]); try (by apply elem_of_nil in Hc);
    destruct Hin as [Hin|Hin]; discriminate Hin.
Qed.

(** ** Properties of the colour derivation and of the lightness map *)

Section CompilerFacts.

Context {FontMetrics Utils CreatedTheme : Type}.
Variable lib : Imports FontMetrics Utils CreatedTheme.

(** C6: the active and hover colours are functions of the colour string
    alone; a light colour is darkened by 0.1 for its active variant and by
    0.05 for its hover variant, a dark colour is darkened by 0.05 for its
    active variant and lightened by 0.05 for its hover variant. (When
    [isLight] raises on the colour, so do both.) *)
Theorem active_hover_colours (x : string) :
  (isLight lib x = Normal true ->
     getActiveColor lib x = darken lib 0.1 x
     /\ getHoverColor lib x = darken lib 0.05 x)
  /\ (isLight lib x = Normal false ->
     getActiveColor lib x = darken lib 0.05 x
     /\ getHoverColor lib x = lighten lib 0.05 x)
  /\ (forall e, isLight lib x = Throw e ->
     getActiveColor lib x = Throw e /\ getHoverColor lib x = Throw e).
Proof.
  unfold getActiveColor, getHoverColor.
  split; [|split]; [intros -> | intros -> | intros e ->]; split; reflexivity.
Qed.



(** ** The decorated tokens *)

Lemma decorateBackground_Normal (b : Background) (palette : JsObject string) :
  decorateBackground lib b = Normal palette ->
  exists formAccentActive formAccentHover brandAccentActive brandAccentHover
         criticalActive criticalHover infoLight promoteLight criticalLight
         positiveLight cautionLight neutralLight,
    getActiveColor lib (formAccent b) = Normal formAccentActive
    /\ getHoverColor lib (formAccent b) = Normal formAccentHover
    /\ getActiveColor lib (brandAccent b) = Normal brandAccentActive
    /\ getHoverColor lib (brandAccent b) = Normal brandAccentHover
    /\ getActiveColor lib (critical b) = Normal criticalActive
    /\ getHoverColor lib (critical b) = Normal criticalHover
    /\ getLightVariant lib (info b) = Normal infoLight
    /\ getLightVariant lib (promote b) = Normal promoteLight
    /\ getLightVariant lib (critical b) = Normal criticalLight
    /\ getLightVariant lib (positive b) = Normal positiveLight
    /\ getLightVariant lib (caution b) = Normal cautionLight
    /\ getLightVariant lib (neutral b) = Normal neutralLight
    /\ palette
       = Background_entries b ++
         [ ("formAccentActive", formAccentActive); ("formAccentHover", formAccentHover);
           ("brandAccentActive", brandAccentActive); ("brandAccentHover", brandAccentHover);
           ("criticalActive", criticalActive); ("criticalHover", criticalHover);
           ("infoLight", infoLight); ("promoteLight", promoteLight);
           ("criticalLight", criticalLight); ("positiveLight", positiveLight);
           ("cautionLight", cautionLight); ("neutralLight", neutralLight) ].
Proof.
  unfold decorateBackground. intros H.
  apply bind_Normal_inv in H as (v1 & H1 & H). apply bind_Normal_inv in H as (v2 & H2 & H).
  apply bind_Normal_inv in H as (v3 & H3 & H). apply bind_Normal_inv in H as (v4 & H4 & H).
  apply bind_Normal_inv in H as (v5 & H5 & H). apply bind_Normal_inv in H as (v6 & H6 & H).
  apply bind_Normal_inv in H as (v7 & H7 & H). apply bind_Normal_inv in H as (v8 & H8 & H).
  apply bind_Normal_inv in H as (v9 & H9 & H). apply bind_Normal_inv in H as (v10 & H10 & H).
  apply bind_Normal_inv in H as (v11 & H11 & H). apply bind_Normal_inv in H as (v12 & H12 & H).
  injection H as <-.
  exists v1, v2, v3, v4, v5, v6, v7, v8, v9, v10, v11, v12.
  repeat (split; [assumption|]). reflexivity.
Qed.


(** What [decorateTokens] returns, when it returns. *)
Lemma decorateTokens_Normal (treatTokens : TreatTokens FontMetrics)
    (decorated : TreatTheme FontMetrics Utils) :
  decorateTokens lib treatTokens = Normal decorated ->
  exists palette,
    decorateBackground lib (background (color treatTokens)) = Normal palette
    /\ name decorated = name treatTokens
    /\ displayName decorated = displayName treatTokens
    /\ typography decorated
       = Sizing.normaliseSizingToCapHeight FontMetrics (getCapHeight lib)
           (typography treatTokens)
    /\ breakpoint decorated = breakpoint treatTokens
    /\ grid decorated = grid treatTokens
    /\ space decorated = space treatTokens
    /\ color decorated = {| foreground := foreground (color treatTokens);
                            background := palette |}
    /\ makeThemeUtils lib (withUtils decorated tt) = Normal (utils decorated).
Proof.
  unfold decorateTokens. intros H.
  apply bind_Normal_inv in H as (palette & Hpalette & H).
  apply bind_Normal_inv in H as (utils_ & Hutils & H). injection H as <-.
  exists palette. repeat (split; [done|]). exact Hutils.
Qed.


Lemma decorateTokens_palette (treatTokens : TreatTokens FontMetrics)
    (decorated : TreatTheme FontMetrics Utils) :
  decorateTokens lib treatTokens = Normal decorated ->
  let supplied := Background_entries (background (color treatTokens)) in
  let palette := background (color decorated) in
  (forall key value, get supplied key = Some value -> get palette key = Some value)
  /\ keys palette = keys supplied ++ derivedKeys
  /\ NoDup (keys palette)
  /\ name decorated = name treatTokens
  /\ Sizing.fontFamily (typography decorated) = Sizing.fontFamily (typography treatTokens)
  /\ Sizing.webFont (typography decorated) = Sizing.webFont (typography treatTokens)
  /\ Sizing.fontWeight (typography decorated) = Sizing.fontWeight (typography treatTokens).
Proof.
  intros (palette' & Hpalette & Hname & _ & Htypography & _ & _ & _ & Hcolor & _)
    %decorateTokens_Normal supplied palette.
  subst supplied palette. rewrite Hcolor, Htypography, Hname. cbn [background].
  apply decorateBackground_Normal in Hpalette
    as (v1 & v2 & v3 & v4 & v5 & v6 & v7 & v8 & v9 & v10 & v11 & v12 & Hv).
  do 12 destruct Hv as [_ Hv]. subst palette'.
  split; [|split; [|split]].
  - intros key value H. by rewrite get_app, H.
  - unfold keys. by rewrite map_app.
  - unfold keys. rewrite map_app. apply (bool_decide_unpack _). vm_compute. reflexivity.
  - done.
Qed.


(** ** The lightness of one entry *)

Lemma lightnessOf_Throw {M U} (tokens : TreatTheme M U) background_ name_ e :
  lightnessOf lib tokens background_ name_ = Throw e <->
  forcedDark tokens name_ = false
  /\ ((isFalsy (referenceColor tokens background_ name_) = true
       /\ e = lightnessError tokens background_)
      \/ exists reference,
           referenceColor tokens background_ name_ = Some reference
           /\ reference <> EmptyString
           /\ isLight lib reference = Throw e).
Proof.
  unfold lightnessOf, classify.
  destruct (forcedDark tokens name_).
  - split; [discriminate | by intros [? _]].
  - destruct (referenceColor tokens background_ name_) as [[|c r]|]; simpl.
    + split.
      * intros [= <-]. split; [done|]. by left.
      * intros [_ [[_ ->]|(reference & [= <-] & Hne & _)]]; done.
    + split.
      * intros H. split; [done|]. right. exists (String c r).
        split; [done|]. split; [done|].
        apply bind_Throw_inv in H as [H|(? & _ & H)]; [done | discriminate H].
      * intros [_ [[? _]|(reference & [= <-] & _ & ->)]]; done.
    + split.
      * intros [= <-]. split; [done|]. by left.
      * intros [_ [[_ ->]|(reference & [=] & _)]]; done.
Qed.

Lemma lightnessOf_Normal {M U} (tokens : TreatTheme M U) background_ name_ l :
  lightnessOf lib tokens background_ name_ = Normal l ->
  (forcedDark tokens name_ = true /\ l = dark)
  \/ (forcedDark tokens name_ = false
      /\ exists reference, referenceColor tokens background_ name_ = Some reference
           /\ reference <> EmptyString /\ classify lib reference = Normal l).
Proof.
  unfold lightnessOf.
  destruct (forcedDark tokens name_).
  - intros [= <-]. by left.
  - destruct (referenceColor tokens background_ name_) as [[|c r]|]; try discriminate.
    intros H. right. split; [done|]. by exists (String c r).
Qed.

(** ** The runtime tokens *)

Lemma makeWebFonts_Throw {M B U} (tokens : Tokens M B U) (e : JsError) :
  makeWebFonts tokens = Throw e <->
  e = URIError "URI malformed"
  /\ exists family, Sizing.webFont (typography tokens) = Some family
                    /\ hasLoneSurrogate family = true.
Proof.
  unfold makeWebFonts.
  destruct (Sizing.webFont (typography tokens)) as [[|c family]|].
  - split; [discriminate | by intros [_ (family & [= <-] & H)]].
  - destruct (hasLoneSurrogate (String c family)) eqn:Hs.
    + rewrite webFontLinkTag_Throw by done. simpl. split.
      * intros [= <-]. split; [done|]. by exists (String c family).
      * by intros [-> _].
    + rewrite webFontLinkTag_Normal by done. simpl. split; [discriminate|].
      intros [_ (family' & [= <-] & H)]. congruence.
  - split; [discriminate | by intros [_ (family & [=] & _)]].
Qed.

Lemma makeRuntimeTokens_Normal {M U} (tokens : TreatTheme M U) rt :
  makeRuntimeTokens lib tokens = Normal rt ->
  makeWebFonts tokens = Normal (webFonts rt)
  /\ mapValues (lightnessOf lib tokens) (background (color tokens))
     = Normal (backgroundLightness rt)
  /\ rt_name rt = name tokens
  /\ rt_displayName rt = displayName tokens
  /\ rt_background rt = get (background (color tokens)) "body"
  /\ rt_color rt = color tokens.
Proof.
  unfold makeRuntimeTokens. intros H.
  apply bind_Normal_inv in H as (links & Hlinks & H).
  apply bind_Normal_inv in H as (lightness & Hlightness & H). by injection H as <-.
Qed.

Lemma makeRuntimeTokens_Throw {M U} (tokens : TreatTheme M U) e :
  makeRuntimeTokens lib tokens = Throw e <->
  makeWebFonts tokens = Throw e
  \/ ((exists links, makeWebFonts tokens = Normal links)
      /\ mapValues (lightnessOf lib tokens) (background (color tokens)) = Throw e).
Proof.
  unfold makeRuntimeTokens. rewrite bind_Throw_inv. split.
  - intros [H|(links & Hlinks & H)]; [by left|]. right. split; [by exists links|].
    apply bind_Throw_inv in H as [H|(? & _ & H)]; [done | discriminate H].
  - intros [H|[[links Hlinks] H]]; [by left|]. right. exists links. split; [done|].
    by rewrite H.
Qed.

(** C8, amended: [makeRuntimeTokens] raises exactly when some entry of the
    palette, other than the entries the jobsDb override classifies without
    looking at any colour, has a reference colour that is undefined or the
    empty string, or one on which [isLight] raises; or when the web font name
    has a lone surrogate, on which [encodeURIComponent] raises. Otherwise it
    returns, and every entry of [backgroundLightness] is [dark] by the
    override or the classification of its non-empty reference colour. *)
Theorem makeRuntimeTokens_raises {M U} (tokens : TreatTheme M U) :
  (isThrow (makeRuntimeTokens lib tokens) = true <->
     (exists family, Sizing.webFont (typography tokens) = Some family
                     /\ hasLoneSurrogate family = true)
     \/ exists key value, (key, value) ∈ background (color tokens)
          /\ forcedDark tokens key = false
          /\ (isFalsy (referenceColor tokens value key) = true
              \/ exists reference,
                   referenceColor tokens value key = Some reference
                   /\ isThrow (isLight lib reference) = true))
  /\ (forall rt, makeRuntimeTokens lib tokens = Normal rt ->
        Forall2 (fun kv kl => kv.1 = kl.1 /\
            ((forcedDark tokens kv.1 = true /\ kl.2 = dark)
             \/ (forcedDark tokens kv.1 = false
                 /\ exists reference,
                      referenceColor tokens kv.2 kv.1 = Some reference
                      /\ reference <> EmptyString
                      /\ classify lib reference = Normal kl.2)))
          (background (color tokens)) (backgroundLightness rt)).
Proof.
  split.
  - rewrite isThrow_true. split.
    + intros [e [H|[_ H]]%makeRuntimeTokens_Throw].
      * left. by apply makeWebFonts_Throw in H as [_ H].
      * right. assert (Ht : isThrow (mapValues (lightnessOf lib tokens)
                                       (background (color tokens))) = true)
          by (by rewrite H).
        apply mapValues_Throw in Ht as (k & v & Hin & [e' He']%isThrow_true).
        exists k, v. split; [done|].
        apply lightnessOf_Throw in He' as [Hforced [[Hfalsy _]|(reference & Href & _ & He')]].
        -- split; [done|]. by left.
        -- split; [done|]. right. exists reference. split; [done|]. by rewrite He'.
    + intros [(family & Hfont & Hs)|(k & v & Hin & Hforced & H)].
      * exists (URIError "URI malformed"). apply makeRuntimeTokens_Throw. left.
        apply makeWebFonts_Throw. eauto.
      * destruct (makeWebFonts tokens) as [links|e] eqn:Hlinks.
        -- assert (Ht : isThrow (mapValues (lightnessOf lib tokens)
                                   (background (color tokens))) = true).
           { apply mapValues_Throw. exists k, v. split; [done|].
             unfold lightnessOf. rewrite Hforced.
             destruct H as [H|(reference & Href & H)].
             - by destruct (referenceColor tokens v k) as [[|c r]|].
             - rewrite Href. destruct reference as [|c r]; [done|].
               unfold classify. by destruct (isLight lib (String c r)). }
           apply isThrow_true in Ht as [e He]. exists e.
           apply makeRuntimeTokens_Throw. right. split; [by exists links | done].
        -- exists e. apply makeRuntimeTokens_Throw. by left.
  - intros rt (_ & H & _)%makeRuntimeTokens_Normal. apply mapValues_Normal in H.
    eapply Forall2_impl; [exact H|]. intros [k v] [k' l] [Hk Hl]. split; [done|].
    by apply lightnessOf_Normal.
Qed.

(** X2: when [makeRuntimeTokens] raises on a theme whose web font name is
    text, the error is the one of the first entry of the palette, in
    enumeration order, on which the callback raises: the configuration error
    that quotes that entry's own value (not its key, and not the colour it
    refers to), or the error [isLight] raised on the entry's reference
    colour. *)
Theorem makeRuntimeTokens_first_failure {M U} (tokens : TreatTheme M U) (e : JsError) :
  makeRuntimeTokens lib tokens = Throw e ->
  isThrow (makeWebFonts tokens) = false ->
  exists before key value after,
    background (color tokens) = before ++ (key, value) :: after
    /\ Forall (fun entry => offending lib tokens entry = false) before
    /\ offending lib tokens (key, value) = true
    /\ ((isFalsy (referenceColor tokens value key) = true
         /\ e = lightnessError tokens value)
        \/ exists reference,
             referenceColor tokens value key = Some reference
             /\ reference <> EmptyString
             /\ isLight lib reference = Throw e).
Proof.
  intros [H|[_ H]]%makeRuntimeTokens_Throw Hfonts; [by rewrite H in Hfonts|].
  apply mapValues_Throw_first in H as (before & k & v & after & Heq & Hbefore & Hthrow).
  exists before, k, v, after. split; [done|]. split; [done|].
  split; [unfold offending; simpl; by rewrite Hthrow|].
  by apply lightnessOf_Throw in Hthrow as [_ Hthrow].
Qed.

(** ** The theme *)

Lemma makeBraidTheme_Normal (treatTokens : TreatTokens FontMetrics)
    (theme : BraidTheme CreatedTheme) :
  makeBraidTheme lib treatTokens = Normal theme ->
  exists decorated,
    decorateTokens lib treatTokens = Normal decorated
    /\ createTheme lib decorated = Normal (treatTheme theme)
    /\ makeRuntimeTokens lib decorated = Normal (runtimeTokens theme).
Proof.
  unfold makeBraidTheme. intros H.
  apply bind_Normal_inv in H as (decorated & Hdecorated & H).
  apply bind_Normal_inv in H as (created & Hcreated & H).
  apply bind_Normal_inv in H as (runtime & Hruntime & H). injection H as <-.
  by exists decorated.
Qed.

(** The entry of the lightness map for a key of the decorated palette. *)
Lemma backgroundLightness_lookup decorated rt key value :
  makeRuntimeTokens lib decorated = Normal rt ->
  get (background (color (decorated : TreatTheme FontMetrics Utils))) key = Some value ->
  exists l, lightnessOf lib decorated value key = Normal l
            /\ get (backgroundLightness rt) key = Some l.
Proof.
  intros (_ & H & _)%makeRuntimeTokens_Normal Hget. eapply get_mapValues; eauto.
Qed.

(** The derived colours of a theme are these functions of its base colours,
    whatever else the token tree holds. *)
Lemma decorateTokens_variants treatTokens decorated :
  decorateTokens lib treatTokens = Normal decorated ->
  let b := background (color treatTokens) in
  let palette := background (color decorated) in
  Some <$> getActiveColor lib (formAccent b) = Normal (get palette "formAccentActive")
  /\ Some <$> getHoverColor lib (formAccent b) = Normal (get palette "formAccentHover")
  /\ Some <$> getActiveColor lib (brandAccent b) = Normal (get palette "brandAccentActive")
  /\ Some <$> getHoverColor lib (brandAccent b) = Normal (get palette "brandAccentHover")
  /\ Some <$> getActiveColor lib (critical b) = Normal (get palette "criticalActive")
  /\ Some <$> getHoverColor lib (critical b) = Normal (get palette "criticalHover")
  /\ get palette "formAccent" = Some (formAccent b)
  /\ get palette "brandAccent" = Some (brandAccent b)
  /\ get palette "critical" = Some (critical b).
Proof.
  intros (palette' & Hpalette & _ & _ & _ & _ & _ & _ & Hcolor & _)%decorateTokens_Normal b palette.
  subst b palette. rewrite Hcolor. cbn [background].
  apply decorateBackground_Normal in Hpalette
    as (v1 & v2 & v3 & v4 & v5 & v6 & v7 & v8 & v9 & v10 & v11 & v12
        & -> & -> & -> & -> & -> & -> & _ & _ & _ & _ & _ & _ & ->).
  repeat split; reflexivity.
Qed.

Lemma referenceColor_own {M U} (tokens : TreatTheme M U) background_ name_ :
  get referenceColorMap name_ = None -> isInherited name_ = false ->
  referenceColor tokens background_ name_ = Some background_.
Proof. unfold referenceColor, read. by intros -> ->. Qed.

(** The hover and active variants of [formAccent] and [brandAccent] have the
    lightness of their base colour. *)
Lemma accent_variants_inherit treatTokens theme :
  makeBraidTheme lib treatTokens = Normal theme ->
  let lightness := backgroundLightness (runtimeTokens theme) in
  get lightness "formAccentHover" = get lightness "formAccent"
  /\ get lightness "formAccentActive" = get lightness "formAccent"
  /\ get lightness "brandAccentHover" = get lightness "brandAccent"
  /\ get lightness "brandAccentActive" = get lightness "brandAccent".
Proof.
  intros (decorated & Hdecorated & _ & Hruntime)%makeBraidTheme_Normal lightness.
  subst lightness.
  pose proof (decorateTokens_variants _ _ Hdecorated)
    as (Hfa & Hfh & Hba & Hbh & _ & _ & Hf & Hb & _).
  pose proof (fun key value => backgroundLightness_lookup decorated _ key value Hruntime) as L.
  assert (Hvariant : forall variant base value,
            get referenceColorMap variant = Some base ->
            get (background (color decorated)) base = Some value ->
            forall v, get (background (color decorated)) variant = Some v ->
            forcedDark decorated variant = forcedDark decorated base ->
            get referenceColorMap base = None -> isInherited base = false ->
            get (backgroundLightness (runtimeTokens theme)) variant
            = get (backgroundLightness (runtimeTokens theme)) base).
  { intros variant base value Hmap Hbase v Hv Hforced Hnone Hown.
    destruct (L variant v Hv) as (l1 & H1 & ->).
    destruct (L base value Hbase) as (l2 & H2 & ->).
    unfold lightnessOf in H1, H2. rewrite Hforced in H1.
    rewrite (referenceColor_own _ _ _ Hnone Hown) in H2.
    unfold referenceColor, read in H1. rewrite Hmap, Hbase in H1.
    destruct (forcedDark decorated base); [congruence|].
    destruct value; [done|congruence]. }
  destruct (getHoverColor lib (formAccent _)) as [fh|] eqn:Efh; [|discriminate Hfh].
  destruct (getActiveColor lib (formAccent _)) as [fa|] eqn:Efa; [|discriminate Hfa].
  destruct (getHoverColor lib (brandAccent _)) as [bh|] eqn:Ebh; [|discriminate Hbh].
  destruct (getActiveColor lib (brandAccent _)) as [ba|] eqn:Eba; [|discriminate Hba].
  injection Hfh as Hfh. injection Hfa as Hfa. injection Hbh as Hbh. injection Hba as Hba.
  repeat split.
  - by eapply (Hvariant "formAccentHover" "formAccent").
  - by eapply (Hvariant "formAccentActive" "formAccent").
  - by eapply (Hvariant "brandAccentHover" "brandAccent").
  - by eapply (Hvariant "brandAccentActive" "brandAccent").
Qed.

(** The entry of an unmapped key that the override does not touch is the
    classification of the entry's own colour. *)
Lemma own_colour_lightness decorated rt key value :
  makeRuntimeTokens lib decorated = Normal rt ->
  get (background (color (decorated : TreatTheme FontMetrics Utils))) key = Some value ->
  String.prefix "brandAccent" key = false ->
  get referenceColorMap key = None -> isInherited key = false ->
  exists l, classify lib value = Normal l /\ get (backgroundLightness rt) key = Some l.
Proof.
  intros Hruntime Hget Hprefix Hnone Hown.
  destruct (backgroundLightness_lookup _ _ _ _ Hruntime Hget) as (l & Hl & Hlookup).
  exists l. split; [|done].
  apply lightnessOf_Normal in Hl as [[Hforced _]|(_ & reference & Href & _ & Hl)].
  - unfold forcedDark in Hforced. by rewrite Hprefix, andb_false_r in Hforced.
  - rewrite (referenceColor_own _ _ _ Hnone Hown) in Href. by injection Href as <-.
Qed.

(** C1 on the code: the hover and active variants of [critical] are not keys
    of [referenceColorMap]; their entries of [backgroundLightness] are the
    classification of the variant's own colour, and differ from the entry of
    [critical] whenever darkening moves the colour across the threshold. *)
Theorem critical_variants_not_inherited treatTokens theme :
  makeBraidTheme lib treatTokens = Normal theme ->
  let b := background (color treatTokens) in
  let lightness := backgroundLightness (runtimeTokens theme) in
  exists ofCritical ofHover ofActive,
    classify lib (critical b) = Normal ofCritical
    /\ getHoverColor lib (critical b) ≫= classify lib = Normal ofHover
    /\ getActiveColor lib (critical b) ≫= classify lib = Normal ofActive
    /\ get lightness "critical" = Some ofCritical
    /\ get lightness "criticalHover" = Some ofHover
    /\ get lightness "criticalActive" = Some ofActive.
Proof.
  intros (decorated & Hdecorated & _ & Hruntime)%makeBraidTheme_Normal b lightness.
  subst b lightness.
  pose proof (decorateTokens_variants _ _ Hdecorated)
    as (_ & _ & _ & _ & Hca & Hch & _ & _ & Hc).
  destruct (getHoverColor lib (critical _)) as [ch|] eqn:Ech; [|discriminate Hch].
  destruct (getActiveColor lib (critical _)) as [ca|] eqn:Eca; [|discriminate Hca].
  injection Hch as Hch. injection Hca as Hca. symmetry in Hch, Hca.
  destruct (own_colour_lightness _ _ "critical" _ Hruntime Hc) as (l0 & H0 & G0); try done.
  destruct (own_colour_lightness _ _ "criticalHover" _ Hruntime Hch) as (l1 & H1 & G1);
    try done.
  destruct (own_colour_lightness _ _ "criticalActive" _ Hruntime Hca) as (l2 & H2 & G2);
    try done.
  by exists l0, l1, l2.
Qed.



(** X5: in the theme named [jobsDb], [brandAccent] and its active and hover
    variants are classified [dark] whatever their colour; under every other
    name the three have the classification of the [brandAccent] colour. *)
Theorem brandAccent_lightness (treatTokens : TreatTokens FontMetrics)
    (theme : BraidTheme CreatedTheme) :
  makeBraidTheme lib treatTokens = Normal theme ->
  let lightness := backgroundLightness (runtimeTokens theme) in
  exists expected,
    (if String.eqb (name treatTokens) "jobsDb" then Normal dark
     else classify lib (brandAccent (background (color treatTokens))))
    = Normal expected
    /\ get lightness "brandAccent" = Some expected
    /\ get lightness "brandAccentActive" = Some expected
    /\ get lightness "brandAccentHover" = Some expected.
Proof.
  intros H lightness. subst lightness.
  pose proof (accent_variants_inherit _ _ H) as (_ & _ & -> & ->).
  apply makeBraidTheme_Normal in H as (decorated & Hdecorated & _ & Hruntime).
  pose proof (decorateTokens_variants _ _ Hdecorated) as (_ & _ & _ & _ & _ & _ & _ & Hb & _).
  pose proof (decorateTokens_palette _ _ Hdecorated)
    as (_ & _ & _ & Hname & _).
  destruct (backgroundLightness_lookup _ _ _ _ Hruntime Hb) as (l & Hl & ->).
  exists l. split; [|done].
  unfold lightnessOf, forcedDark in Hl. rewrite Hname in Hl. simpl in Hl.
  rewrite andb_true_r in Hl.
  destruct (String.eqb (name treatTokens) "jobsDb"); [done|].
  by destruct (brandAccent (background (color treatTokens))).
Qed.

End CompilerFacts.

(** ** The compiler on grey-scale themes *)

(** Near-white: darkened by 10% when active, by 5% on hover. Near-black:
    darkened by 5% when active, lightened by 5% on hover. What is not a
    colour is refused. *)
Lemma active_hover_near_white_near_black :
  getActiveColor Grey.imports "98" = Normal "88"
  /\ getHoverColor Grey.imports "98" = Normal "93"
  /\ getActiveColor Grey.imports "7" = Normal "2"
  /\ getHoverColor Grey.imports "7" = Normal "12"
  /\ getActiveColor Grey.imports "transparent"
     = Throw (HostError "Couldn't parse the color string.")
  /\ getHoverColor Grey.imports ""
     = Throw (HostError "Couldn't parse the color string.").
Proof. vm_compute. repeat split. Qed.

(** C2, as stated, at a font-weight table that lists one weight twice
    ([regular] and [medium] both 400): the link carries [400,400,700], with
    the duplicate kept, where the set of declared weights is [400,700]. *)
Lemma makeWebFonts_keeps_duplicates :
  let theme := Grey.tokens "apac" (Some "Roboto")
                 [("regular", 400); ("medium", 400); ("strong", 700)]%N
                 (Grey.palette "30" "40") in
  (linkTag_ ← webFontLinkTag "Roboto" [400; 400; 700]%N;
   mret [ {| linkTag := linkTag_ |} ]) = makeWebFonts theme
  /\ makeWebFonts theme
     = Normal [ {| linkTag := linkTagTemplate "Roboto%3A400%2C400%2C700" |} ]
  /\ weightSetAscending (values (Sizing.fontWeight (typography theme))) = [400; 700]%N
  /\ webFontLinkTag "Roboto" (weightSetAscending [400; 400; 700]%N)
     = Normal (linkTagTemplate "Roboto%3A400%2C700").
Proof. vm_compute. repeat split. Qed.

(** [sort()] orders the weights as strings: 1000 comes before 400. *)
Lemma makeWebFonts_string_order :
  makeWebFonts (Grey.tokens "apac" (Some "Roboto")
                  [("regular", 400); ("medium", 700); ("strong", 1000)]%N
                  (Grey.palette "30" "40"))
  = Normal [ {| linkTag := linkTagTemplate "Roboto%3A1000%2C400%2C700" |} ].
Proof. vm_compute. reflexivity. Qed.

(** A web font name that is the empty string gives no link either. *)
Lemma makeWebFonts_empty_name :
  makeWebFonts (Grey.tokens "apac" (Some "")
                  [("regular", 400); ("medium", 500); ("strong", 700)]%N
                  (Grey.palette "30" "40")) = Normal [].
Proof. reflexivity. Qed.

(** The table of C2 in another order: the same link. *)
Lemma makeWebFonts_out_of_order :
  makeWebFonts (Grey.tokens "apac" (Some "Roboto")
                  [("strong", 700); ("regular", 400); ("medium", 500)]%N
                  (Grey.palette "30" "40"))
  = Normal [ {| linkTag := linkTagTemplate "Roboto%3A400%2C500%2C700" |} ].
Proof. vm_compute. reflexivity. Qed.

(** A web font name that ends in the lone surrogate U+D800 (the bytes
    ED A0 80): [encodeURIComponent] raises, and with it [makeWebFonts],
    [makeRuntimeTokens] and [makeBraidTheme]. *)
Definition loneSurrogate : string :=
  String (Ascii.ascii_of_N 237) (String (Ascii.ascii_of_N 160)
    (String (Ascii.ascii_of_N 128) EmptyString)).

Lemma makeWebFonts_lone_surrogate :
  let theme := Grey.tokens "apac" (Some ("Roboto" +:+ loneSurrogate))
                 [("regular", 400%N)] (Grey.palette "30" "40") in
  makeWebFonts theme = Throw (URIError "URI malformed")
  /\ (exists decorated,
        decorateTokens Grey.imports theme = Normal decorated
        /\ makeRuntimeTokens Grey.imports decorated = Throw (URIError "URI malformed"))
  /\ makeBraidTheme Grey.imports theme = Throw (URIError "URI malformed").
Proof. split; [|split]; [|eexists; split|]; vm_compute; reflexivity. Qed.

(** A family name with a quote, a space and an angle bracket in it. *)
Lemma href_of_a_hostile_family_name :
  let tokens := Grey.tokens "apac" (Some (dquote +:+ "><b x"))
                  [("regular", 400%N); ("strong", 700%N)] (Grey.palette "98" "40") in
  let link :=
    {| linkTag := "<link href=" +:+ dquote
         +:+ "https://fonts.googleapis.com/css?family=%22%3E%3Cb%20x%3A400%2C700"
         +:+ dquote +:+ " rel=" +:+ dquote +:+ "stylesheet" +:+ dquote +:+ " />" |} in
  makeWebFonts tokens = Normal [link]
  /\ exists href,
       linkTag link
       = "<link href=" +:+ dquote +:+ "https://fonts.googleapis.com/css?family="
         +:+ href +:+ dquote +:+ " rel=" +:+ dquote +:+ "stylesheet" +:+ dquote +:+ " />"
       /\ (forall c, c ∈ String.list_ascii_of_string href ->
             isUnreserved c = true \/ c = "%"%char)
       /\ (forall c, c ∈ String.list_ascii_of_string (dquote +:+ "<>& ") ->
             c ∉ String.list_ascii_of_string href).
Proof.
  intros tokens link.
  assert (E : makeWebFonts tokens = Normal [link]) by (vm_compute; reflexivity).
  split; [exact E|].
  apply (makeWebFonts_href_is_encoded tokens [link] link E). apply list_elem_of_here.
Defined.


(** A [critical] colour of 62% lightness is light; its hover (57%) and
    active (52%) variants are classified dark, while the variants of
    [formAccent], of the same colour, stay light. *)
Lemma critical_hover_flips :
  exists theme,
    makeBraidTheme Grey.imports
      (Grey.tokens "seekBusiness" None [] (Grey.palette "62" "62")) = Normal theme
    /\ get (backgroundLightness (runtimeTokens theme)) "critical" = Some light
    /\ get (backgroundLightness (runtimeTokens theme)) "criticalHover" = Some dark
    /\ get (backgroundLightness (runtimeTokens theme)) "criticalActive" = Some dark.
Proof.
  assert (H : exists theme,
    makeBraidTheme Grey.imports
      (Grey.tokens "seekBusiness" None [] (Grey.palette "62" "62")) = Normal theme).
  { eexists. vm_compute. reflexivity. }
  destruct H as [theme H]. exists theme. split; [exact H|].
  destruct (critical_variants_not_inherited Grey.imports _ theme H)
    as (l0 & l1 & l2 & H0 & H1 & H2 & G0 & G1 & G2).
  vm_compute in H0, H1, H2.
  injection H0 as <-. injection H1 as <-. injection H2 as <-. done.
Defined.

Lemma formAccent_hover_stays_light :
  exists theme,
    makeBraidTheme Grey.imports
      (Grey.tokens "seekBusiness" None [] (Grey.palette "62" "62")) = Normal theme
    /\ get (background (rt_color (runtimeTokens theme))) "formAccentHover" = Some "57"
    /\ get (backgroundLightness (runtimeTokens theme)) "formAccent" = Some light
    /\ get (backgroundLightness (runtimeTokens theme)) "formAccentHover" = Some light.
Proof. eexists. vm_compute. auto. Qed.

(** C8, as stated, at a theme whose [body] colour is the empty string:
    [decorateTokens] returns (it derives nothing from [body]), every colour
    the lookup refers to is defined, and [makeRuntimeTokens] raises. *)
Lemma makeRuntimeTokens_raises_on_empty_string :
  exists tokens,
    decorateTokens Grey.imports
      (Grey.tokens "apac" None [] (Grey.paletteOn "" "30" "40")) = Normal tokens
    /\ Forall (fun entry => is_Some (referenceColor tokens entry.2 entry.1))
         (background (color tokens))
    /\ makeRuntimeTokens Grey.imports tokens = Throw (lightnessError tokens "").
Proof.
  eexists. split; [vm_compute; reflexivity|].
  split; [|vm_compute; reflexivity].
  repeat first [apply Forall_nil_2 | apply Forall_cons_2; [by eexists|]].
Qed.

(** A [body] that is defined and not empty, but not a colour: [isLight]
    raises on it, and the error is not the configuration error. *)
Lemma makeRuntimeTokens_raises_on_unparsable :
  exists tokens,
    decorateTokens Grey.imports
      (Grey.tokens "apac" None [] (Grey.paletteOn "transparent" "30" "40")) = Normal tokens
    /\ referenceColor tokens "transparent" "body" = Some "transparent"
    /\ makeRuntimeTokens Grey.imports tokens
       = Throw (HostError "Couldn't parse the color string.").
Proof. eexists. split; [|split]; vm_compute; reflexivity. Qed.

(** A variant whose base colour is missing: the lookup of [brandAccent]
    gives [undefined] and [makeRuntimeTokens] raises... *)
Lemma makeRuntimeTokens_raises_on_undefined :
  let tokens := Grey.decorated "apac" [("body", "100"); ("brandAccentHover", "57")] in
  referenceColor tokens "57" "brandAccentHover" = None
  /\ makeRuntimeTokens Grey.imports tokens = Throw (lightnessError tokens "57").
Proof. vm_compute. auto. Qed.

(** ...unless the theme is jobsDb, where the entry is [dark] without any
    lookup. *)
Lemma makeRuntimeTokens_jobsDb_no_lookup :
  let tokens := Grey.decorated "jobsDb" [("body", "100"); ("brandAccentHover", "57")] in
  referenceColor tokens "57" "brandAccentHover" = None
  /\ backgroundLightness <$> makeRuntimeTokens Grey.imports tokens
     = Normal [("body", light); ("brandAccentHover", dark)].
Proof. vm_compute. auto. Qed.

(** A palette object with a key that names a member of [Object.prototype]:
    [name in referenceColorMap] holds, the map gives the inherited function,
    and the palette has nothing under the function's text. The entry's own
    colour is defined, and [makeRuntimeTokens] raises. *)
Lemma makeRuntimeTokens_inherited_key :
  let tokens := Grey.decorated "apac" [("body", "100"); ("toString", "50")] in
  read referenceColorMap "toString" = Inherited "toString"
  /\ referenceColor tokens "50" "toString" = None
  /\ makeRuntimeTokens Grey.imports tokens = Throw (lightnessError tokens "50").
Proof. vm_compute. auto. Qed.

(** A palette object whose second entry refers to a missing base colour and
    whose third is empty: the error is the second entry's, and quotes its
    value. *)
Lemma first_failure_quotes_the_entry_value :
  let tokens := Grey.decorated "apac" [("body", "100"); ("brandAccentHover", "57");
                                       ("card", "")] in
  makeRuntimeTokens Grey.imports tokens = Throw (lightnessError tokens "57")
  /\ isThrow (makeWebFonts tokens) = false
  /\ exists before key value after,
       background (color tokens) = before ++ (key, value) :: after
       /\ Forall (fun entry => offending Grey.imports tokens entry = false) before
       /\ offending Grey.imports tokens (key, value) = true
       /\ ((isFalsy (referenceColor tokens value key) = true
            /\ lightnessError tokens "57" = lightnessError tokens value)
           \/ exists reference,
                referenceColor tokens value key = Some reference
                /\ reference <> EmptyString
                /\ Grey.isLight reference = Throw (lightnessError tokens "57")).
Proof.
  intros tokens.
  assert (H : makeRuntimeTokens Grey.imports tokens = Throw (lightnessError tokens "57"))
    by (vm_compute; reflexivity).
  split; [exact H|]. split; [reflexivity|].
  exact (makeRuntimeTokens_first_failure Grey.imports tokens _ H eq_refl).
Defined.

(** The jobsDb theme with a near-white [brandAccent]. *)
Lemma jobsDb_light_brandAccent_is_dark :
  exists theme,
    makeBraidTheme Grey.imports
      (Grey.tokens "jobsDb" None [] (Grey.palette "98" "40")) = Normal theme
    /\ Grey.isLight "98" = Normal true
    /\ get (backgroundLightness (runtimeTokens theme)) "brandAccent" = Some dark
    /\ get (backgroundLightness (runtimeTokens theme)) "brandAccentActive" = Some dark
    /\ get (backgroundLightness (runtimeTokens theme)) "brandAccentHover" = Some dark.
Proof.
  assert (H : exists theme,
    makeBraidTheme Grey.imports
      (Grey.tokens "jobsDb" None [] (Grey.palette "98" "40")) = Normal theme).
  { eexists. vm_compute. reflexivity. }
  destruct H as [theme H]. exists theme. split; [exact H|]. split; [reflexivity|].
  destruct (brandAccent_lightness Grey.imports _ theme H) as (l & Hl & G).
  vm_compute in Hl. by injection Hl as <-.
Defined.


(** A theme whose [critical] colour is not a colour: [decorateTokens]
    raises the error of the colour library, and [makeBraidTheme] with it. *)
Lemma makeBraidTheme_raises_on_unparsable :
  makeBraidTheme Grey.imports
    (Grey.tokens "apac" None [] (Grey.palette "30" "transparent"))
  = Throw (HostError "Couldn't parse the color string.")
  /\ thrownByImport Grey.imports (HostError "Couldn't parse the color string.").
Proof.
  split; [vm_compute; reflexivity|]. left. exists "". reflexivity.
Qed.

End Theme.
(** * The type doc extractor *)

Module Docs.
Import Js.

(** ** Evaluation with a console

    The extractor writes to the console and can throw. [Eval A] is what
    evaluating an expression gives: the console lines it wrote, and how it
    ended. [None] is kept for the recursion below running out of fuel; the
    source has no such outcome, and [normaliseType_terminates] shows it is
    never reached. *)

Inductive LogEntry :=
| console_warn (message : string)
| console_log (message : string) (name : string)
| console_error (e : JsError).

Definition Eval (A : Type) : Type := list LogEntry * option (Completion A).

#[export] Instance Eval_ret : MRet Eval := fun A a => ([], Some (Normal a)).

#[export] Instance Eval_bind : MBind Eval := fun A B f m =>
  match m with
  | (log, Some (Normal a)) => let '(log', r) := f a in (log ++ log', r)
  | (log, Some (Throw e)) => (log, Some (Throw e))
  | (log, None) => (log, None)
  end.

#[export] Instance Eval_fmap : FMap Eval := fun A B f m =>
  match m with
  | (log, Some (Normal a)) => (log, Some (Normal (f a)))
  | (log, Some (Throw e)) => (log, Some (Throw e))
  | (log, None) => (log, None)
  end.

Definition lift {A} (c : Completion A) : Eval A := ([], Some c).
Definition throw {A} (e : JsError) : Eval A := ([], Some (Throw e)).
Definition write (entry : LogEntry) : Eval unit := ([entry], Some (Normal tt)).
Definition outOfFuel {A} : Eval A := ([], None).

(** [try { body } catch (e) { handler }] *)
Definition try_catch {A} (body : Eval A) (handler : JsError -> Eval A) : Eval A :=
  match body with
  | (log, Some (Throw e)) => let '(log', r) := handler e in (log ++ log', r)
  | _ => body
  end.

(** [array.map(callback)] with a callback that writes and throws: the
    elements are visited from left to right. *)
Fixpoint Array_map {A B} (callback : A -> Eval B) (array : list A) : Eval (list B) :=
  match array with
  | [] => mret []
  | x :: rest =>
      y ← callback x;
      ys ← Array_map callback rest;
      mret (y :: ys)
  end.

Definition terminates {A} (m : Eval A) : Prop := is_Some m.2.

(** ** The output: normalised types and export docs *)

(** A JSDoc tag, [{ name, text }]. *)
Record Tag := { tag_name : string; tag_text : string }.

(** [TypeInherited member] is none of the four forms the type
    [NormalisedPropType] of the source lists: it is the member of
    [Object.prototype] (a function or, for [__proto__], the prototype itself)
    that [stringAliases[typeString]] gives when the display string of a type
    is the name of one. *)
Inductive NormalisedPropType :=
| TypeString (s : string)
| TypeUnion (types : list NormalisedPropType)
| TypeAlias (alias : string) (params : list NormalisedPropType)
| TypeInterface (interface : NormalisedInterface)
| TypeInherited (member : string)
with NormalisedInterface :=
| Interface (props : JsObject PropDoc)
with PropDoc :=
| Prop_ (propName : string) (required : bool) (type : NormalisedPropType)
        (deprecated : bool) (tags : list Tag) (description : string).

(** [{ exportType: 'component', props }] *)
Record ComponentDoc := { cd_props : NormalisedInterface }.

(** [{ exportType: 'hook', params, returnType }] *)
Record HookDoc := {
  hd_params : list NormalisedPropType;
  hd_returnType : NormalisedPropType;
}.

Inductive ExportDoc :=
| ExportComponent (doc : ComponentDoc)
| ExportHook (doc : HookDoc).

(** What an entry of the extractor's result holds: an [ExportDoc], or the
    object [{ type: 'interface', props }], which has no [exportType]. *)
Inductive ExportEntry :=
| Documented (doc : ExportDoc)
| BareInterface (interface : NormalisedInterface).

(** ** The compiler's semantic model

    Types are handles into the checker, which may hold infinitely many of
    them; [typeObject] gives the object behind a handle. *)

Definition Node : Type := N.
Definition TsType : Type := N.

Record Symbol := {
  escapedName : string;
  getName : string;
  valueDeclaration : option Node;
  declarations : list Node;
  getFlags : N;
  getJsDocTags : list Tag;
  getDocumentationComment : list string;   (* the [text] of each part *)
}.

Record Signature := {
  getParameters : list Symbol;
  getReturnType : TsType;
}.

Record TypeObject := {
  aliasSymbol : option Symbol;
  aliasTypeArguments : option (list TsType);
  unionTypes : option (list TsType);        (* [isUnion()] and [types] *)
  isClassOrInterface : bool;
  getProperties : list Symbol;
  getCallSignatures : list Signature;
  getNonNullableType : TsType;
}.

Record SourceFile := {
  isDeclarationFile : bool;
  fileName : string;
}.

Record TypeChecker := {
  typeObject : TsType -> TypeObject;
  typeToString : TsType -> string;
  getTypeOfSymbolAtLocation : Symbol -> option Node -> Completion TsType;
  getTypeAtLocation : option Node -> Completion TsType;
  getSymbolAtLocation : SourceFile -> option Symbol;
  getExportsOfModule : Symbol -> list Symbol;
}.

(** ** Constants *)

Definition MAX_DEPTH : nat := 10.
Definition aliasWhitelist : list string := ["ResponsiveProp"].
Definition propBlacklist : list string := ["key"].

Definition stringAliases : JsObject string :=
  [ ("boolean", "boolean");
    ("CSSProperties", "CSSProperties");
    ("string | number | boolean | ClassDictionary | ClassArray",
     "string | number | boolean | ClassDictionary | ClassArray") ].

Definition reactNodeTypes : list string :=
  [ "string"; "number"; "false"; "true"; "{}";
    "ReactElement<any, string | JSXElementConstructor<any>>" ].

Definition reactNodeNoStringsTypes : list string :=
  [ "false"; "true"; "ReactElement<any, string | JSXElementConstructor<any>>";
    "ReactNodeArray" ].

Definition maxDepthWarning : string :=
  "Max depth reached normalising type. Return builtin string representation".

Definition newline : string := String (Ascii.ascii_of_nat 10) EmptyString.

(** [array.includes(x)] on strings *)
Definition includes (array : list string) (x : string) : bool :=
  existsb (String.eqb x) array.

Fixpoint toLowerAscii (s : string) : string :=
  match s with
  | EmptyString => EmptyString
  | String c s' =>
      let n := Ascii.N_of_ascii c in
      String (if (65 <=? n)%N && (n <=? 90)%N then Ascii.ascii_of_N (n + 32) else c)
             (toLowerAscii s')
  end.

(** [/^deprecated$/i.test(name)] *)
Definition isDeprecatedTag (name : string) : bool :=
  String.eqb (toLowerAscii name) "deprecated".

(** [exp.valueDeclaration || exp.declarations[0]] *)
Definition declarationOf (exp : Symbol) : option Node :=
  match valueDeclaration exp with
  | Some declaration => Some declaration
  | None => head (declarations exp)
  end.

(** [Object.assign({}, ...sources)] for sources with one property each,
    whose values are objects. [Object.assign] writes with [target[key] =
    value]: for the key [__proto__] that is the setter of [Object.prototype],
    which makes the value the prototype of the target and adds no property. *)
Definition Object_assign {V} (sources : list (string * V)) : JsObject V :=
  spread [] (filter (fun source => source.1 <> "__proto__") sources).

(** TypeScript's [escapeLeadingUnderscores], which makes the [escapedName]
    of a symbol from its name: a name that starts with two underscores gets
    a third. *)
Definition escapeLeadingUnderscores (identifier : string) : string :=
  if String.prefix "__" identifier then "_" +:+ identifier else identifier.

Section Extractor.

Variable checker : TypeChecker.
(** [ts.SymbolFlags.Optional] *)
Variable SymbolFlags_Optional : N.
(** The path of [lib/components/index.ts] *)
Variable componentsFile : string.

(** The loop over the call signatures in [getComponentPropsType]. *)
Fixpoint propsParamOf (callSignatures : list Signature) : option Symbol :=
  match callSignatures with
  | [] => None
  | sig :: rest =>
      match getParameters sig with
      | [] => propsParamOf rest
      | propsParam :: _ =>
          if String.eqb (getName propsParam) "props"
             || (length (getParameters sig) =? 1)
          then Some propsParam
          else propsParamOf rest
      end
  end.

(** A signature [getComponentPropsType] takes the props parameter from: it
    has parameters, and the first is named [props] or is the only one. *)
Definition usableSignature (sig : Signature) : bool :=
  match getParameters sig with
  | [] => false
  | propsParam :: _ =>
      String.eqb (getName propsParam) "props" || (length (getParameters sig) =? 1)
  end.

(** The resolution as the specification words it: only the first signature
    with at least one parameter is looked at. *)
Definition propsParamFirstSignatureOnly (callSignatures : list Signature)
    : option Symbol :=
  match List.find (fun sig => negb (bool_decide (getParameters sig = []))) callSignatures with
  | Some sig => if usableSignature sig then head (getParameters sig) else None
  | None => None
  end.

Definition getComponentPropsType (exp : Symbol) : Eval (option Symbol) :=
  type ← lift (getTypeOfSymbolAtLocation checker exp (declarationOf exp));
  mret (propsParamOf (getCallSignatures (typeObject checker type))).

(** The callback of [normalizeInterface] for one property; [normaliseType]
    is the function it recurses into. *)
Definition normalizeProp (normaliseType : TsType -> Symbol -> nat -> Eval NormalisedPropType)
    (propsObj : Symbol) (depth : nat) (extractComments : bool) (prop : Symbol)
    : Eval (string * PropDoc) :=
  let propName := getName prop in
  let tags := filter (fun tag => tag_name tag <> "see") (getJsDocTags prop) in
  let deprecated := existsb (fun tag => isDeprecatedTag (tag_name tag)) tags in
  let description :=
    if extractComments then String.concat newline (getDocumentationComment prop)
    else EmptyString in
  symbolType ← lift (getTypeOfSymbolAtLocation checker prop (valueDeclaration propsObj));
  let propType := getNonNullableType (typeObject checker symbolType) in
  let isOptional := negb (N.land (getFlags prop) SymbolFlags_Optional =? 0)%N in
  declaredType ← lift (getTypeAtLocation checker (valueDeclaration prop));
  let typeAlias := typeToString checker declaredType in
  type ← (if includes aliasWhitelist typeAlias then mret (TypeString typeAlias)
          else normaliseType propType propsObj (depth + 1));
  mret (propName, Prop_ propName (negb isOptional) type deprecated tags description).

Definition normalizeInterfaceWith
    (normaliseType : TsType -> Symbol -> nat -> Eval NormalisedPropType)
    (propsType : TsType) (propsObj : Symbol) (depth : nat) (extractComments : bool)
    : Eval NormalisedInterface :=
  entries ← Array_map (normalizeProp normaliseType propsObj depth extractComments)
            (filter (fun prop => negb (includes propBlacklist (getName prop)))
                    (getProperties (typeObject checker propsType)));
  mret (Interface (Object_assign entries)).

(** [type.aliasSymbol] when its name is in [aliasWhitelist]. *)
Definition whitelistedAlias (type : TypeObject) : option string :=
  match aliasSymbol type with
  | Some symbol =>
      if includes aliasWhitelist (getName symbol) then Some (getName symbol) else None
  | None => None
  end.

(** [normaliseType], with one unit of fuel per nested call. The lookup
    [stringAliases[typeString]] is a property read: it finds the three keys
    the object lists and the members [stringAliases] inherits from
    [Object.prototype], all of which are truthy. *)
Fixpoint normaliseTypeFuel (fuel : nat) (type : TsType) (propsObj : Symbol)
    (depth : nat) : Eval NormalisedPropType :=
  match fuel with
  | O => outOfFuel
  | S fuel' =>
      let typeString := typeToString checker type in
      match read stringAliases typeString with
      | Own (String _ _ as alias) => mret (TypeString alias)
      | Inherited member => mret (TypeInherited member)
      | _ =>
          if MAX_DEPTH <? depth then
            _ ← write (console_warn maxDepthWarning);
            mret (TypeString typeString)
          else
            match whitelistedAlias (typeObject checker type) with
            | Some alias =>
                params ← Array_map
                  (fun aliasArg => normaliseTypeFuel fuel' aliasArg propsObj (depth + 1))
                  (default [] (aliasTypeArguments (typeObject checker type)));
                mret (TypeAlias alias params)
            | None =>
                match unionTypes (typeObject checker type) with
                | Some members =>
                    let types := map (typeToString checker) members in
                    if bool_decide (take 6 types = reactNodeTypes)
                    then mret (TypeString "ReactNode")
                    else if bool_decide (types = reactNodeNoStringsTypes)
                    then mret (TypeString "ReactNodeNoStrings")
                    else
                      types ← Array_map
                        (fun unionItem => normaliseTypeFuel fuel' unionItem propsObj (depth + 1))
                        members;
                      mret (TypeUnion types)
                | None =>
                    if isClassOrInterface (typeObject checker type) then
                      TypeInterface <$>
                        normalizeInterfaceWith (normaliseTypeFuel fuel')
                          type propsObj (depth + 1) false
                    else mret (TypeString typeString)
                end
            end
      end
  end.

(** The fuel a call at [depth] is given: calls nest at most this deep. *)
Definition fuelFor (depth : nat) : nat := S (MAX_DEPTH + 1 - depth).

Definition normaliseType (type : TsType) (propsObj : Symbol) (depth : nat)
    : Eval NormalisedPropType :=
  normaliseTypeFuel (fuelFor depth) type propsObj depth.

Definition normalizeInterface (propsType : TsType) (propsObj : Symbol)
    (depth : nat) (extractComments : bool) : Eval NormalisedInterface :=
  normalizeInterfaceWith normaliseType propsType propsObj depth extractComments.

Definition getComponentDocs (exp : Symbol) : Eval ExportEntry :=
  propsObj ← getComponentPropsType exp;
  match propsObj with
  | Some propsObj =>
      match valueDeclaration propsObj with
      | Some declaration =>
          propsType ← lift (getTypeOfSymbolAtLocation checker propsObj (Some declaration));
          props ← normalizeInterface propsType propsObj 0 true;
          mret (Documented (ExportComponent {| cd_props := props |}))
      | None => mret (BareInterface (Interface []))
      end
  | None => mret (BareInterface (Interface []))
  end.

Definition getHookDocs (exp : Symbol) : Eval HookDoc :=
  type ← lift (getTypeOfSymbolAtLocation checker exp (declarationOf exp));
  match head (getCallSignatures (typeObject checker type)) with
  | None => throw (TypeError "Cannot read property 'getParameters' of undefined")
  | Some callSignature =>
      params ← Array_map
        (fun param =>
           paramType ← lift (getTypeOfSymbolAtLocation checker param (valueDeclaration exp));
           normaliseType paramType exp 0)
        (getParameters callSignature);
      returnType ← normaliseType (getReturnType callSignature) exp 0;
      mret {| hd_params := params; hd_returnType := returnType |}
  end.

(** [moduleExport.getName().startsWith('use') ? getHookDocs(...) : getComponentDocs(...)] *)
Definition exportTypeOf (moduleExport : Symbol) : Eval ExportEntry :=
  if String.prefix "use" (getName moduleExport)
  then (fun doc => Documented (ExportHook doc)) <$> getHookDocs moduleExport
  else getComponentDocs moduleExport.

Definition failedToExtract : string := "Failed to extract type from".

(** The callback given to [map] over the exports: one property for a
    documented export, [undefined] for one whose documentation threw. *)
Definition exportProperty (moduleExport : Symbol) : Eval (option (string * ExportEntry)) :=
  try_catch
    (exportType ← exportTypeOf moduleExport;
     mret (Some (escapedName moduleExport, exportType)))
    (fun e =>
       _ ← write (console_log failedToExtract (escapedName moduleExport));
       _ ← write (console_error e);
       mret None).

(** [Object.assign({}, ...properties)]; [undefined] sources are skipped.
    The keys are escaped names: the compiler escapes a leading double
    underscore ([escapeLeadingUnderscores], above), so none of them is
    [__proto__], the one key [Object.assign] would not write as a property. *)
Definition assignAll (properties : list (option (string * ExportEntry)))
    : gmap string ExportEntry :=
  foldl (fun result property =>
           match property with
           | Some (name, entry) => <[name := entry]> result
           | None => result
           end) ∅ properties.

(** The keys [assignAll] writes, in order. *)
Definition assignedKeys (properties : list (option (string * ExportEntry))) : list string :=
  (omap id properties).*1.

Definition docsOfModule (moduleSymbol : Symbol) : Eval (gmap string ExportEntry) :=
  properties ← Array_map exportProperty (getExportsOfModule checker moduleSymbol);
  mret (assignAll properties).

(** The property an export contributes to the result, if any. *)
Definition propertyOf (exp : Symbol) : option (string * ExportEntry) :=
  match (exportTypeOf exp).2 with
  | Some (Normal entry) => Some (escapedName exp, entry)
  | _ => None
  end.

(** What documenting an export writes to the console. *)
Definition consoleOf (exp : Symbol) : list LogEntry :=
  (exportTypeOf exp).1 ++
  match (exportTypeOf exp).2 with
  | Some (Throw e) => [console_log failedToExtract (escapedName exp); console_error e]
  | _ => []
  end.

(** The loop over the source files of the program; [None] is [undefined],
    returned when no file is the components file with a module symbol. *)
Fixpoint extractDocs (sourceFiles : list SourceFile)
    : Eval (option (gmap string ExportEntry)) :=
  match sourceFiles with
  | [] => mret None
  | sourceFile :: rest =>
      if negb (isDeclarationFile sourceFile)
         && String.eqb (fileName sourceFile) componentsFile
      then
        match getSymbolAtLocation checker sourceFile with
        | Some moduleSymbol => Some <$> docsOfModule moduleSymbol
        | None => extractDocs rest
        end
      else extractDocs rest
  end.

End Extractor.

(** ** A sample program

    A checker for a small components module. The handle of a type is also
    the node of its declaration, so a symbol declared at node [n] has the
    type [n]. The types from 100 on are an interface [Nested] whose one
    property [next] has the next of them as its type: a type that never
    stops expanding. The type 5 is displayed as [valueOf]; the interface 16
    has a property named [__proto__]. *)
Module Sample.
Local Open Scope N_scope.

Definition symbol (name : string) (declaration : option Node) (flags : N)
    (jsDocTags : list Tag) : Symbol :=
  {| escapedName := escapeLeadingUnderscores name; getName := name;
     valueDeclaration := declaration;
     declarations := match declaration with Some d => [d] | None => [] end;
     getFlags := flags; getJsDocTags := jsDocTags;
     getDocumentationComment := [] |}.

Definition Optional : N := 16777216.

Definition plainType : TypeObject :=
  {| aliasSymbol := None; aliasTypeArguments := None; unionTypes := None;
     isClassOrInterface := false; getProperties := []; getCallSignatures := [];
     getNonNullableType := 0%N |}.

Definition interfaceType (self : TsType) (properties : list Symbol) : TypeObject :=
  {| aliasSymbol := None; aliasTypeArguments := None; unionTypes := None;
     isClassOrInterface := true; getProperties := properties; getCallSignatures := [];
     getNonNullableType := self |}.

Definition functionType (self : TsType) (signatures : list Signature) : TypeObject :=
  {| aliasSymbol := None; aliasTypeArguments := None; unionTypes := None;
     isClassOrInterface := false; getProperties := []; getCallSignatures := signatures;
     getNonNullableType := self |}.

Definition boxProps : list Symbol :=
  [ symbol "key" (Some 3%N) Optional [];
    symbol "padding" (Some 3%N) Optional [];
    symbol "hidden" (Some 0%N) 0 [ {| tag_name := "Deprecated"; tag_text := "use display" |};
                                    {| tag_name := "see"; tag_text := "Hidden" |} ];
    symbol "content" (Some 100%N) 0 [] ].

Definition typeObjectOf (type : TsType) : TypeObject :=
  if (100 <=? type)%N then interfaceType type [ symbol "next" (Some (type + 1)%N) 0 [] ]
  else if (type =? 0)%N then
    {| aliasSymbol := None; aliasTypeArguments := None; unionTypes := Some [1%N; 2%N];
       isClassOrInterface := false; getProperties := []; getCallSignatures := [];
       getNonNullableType := 0%N |}
  else if (type =? 10)%N then
    functionType 10%N [ {| getParameters := [symbol "props" (Some 11%N) 0 []];
                         getReturnType := 3%N |} ]
  else if (type =? 11)%N then interfaceType 11%N boxProps
  else if (type =? 16)%N then
    interfaceType 16%N [ symbol "__proto__" (Some 3%N) 0 []; symbol "size" (Some 4%N) 0 [] ]
  else if (type =? 12)%N then
    functionType 12
      [ {| getParameters := []; getReturnType := 3%N |};
        {| getParameters := [symbol "first" (Some 3%N) 0 []; symbol "second" (Some 4%N) 0 []];
           getReturnType := 3%N |};
        {| getParameters := [symbol "options" (Some 11%N) 0 []]; getReturnType := 3%N |} ]
  else if (type =? 15)%N then
    functionType 15%N [ {| getParameters := [symbol "name" (Some 3%N) 0 []];
                         getReturnType := 0%N |} ]
  else {| aliasSymbol := plainType.(aliasSymbol); aliasTypeArguments := None;
          unionTypes := None; isClassOrInterface := false; getProperties := [];
          getCallSignatures := []; getNonNullableType := type |}.

Definition typeToStringOf (type : TsType) : string :=
  if (100 <=? type)%N then "Nested"
  else if (type =? 0)%N then "boolean"
  else if (type =? 1)%N then "false"
  else if (type =? 2)%N then "true"
  else if (type =? 3)%N then "string"
  else if (type =? 4)%N then "number"
  else if (type =? 5)%N then "valueOf"
  else if (type =? 11)%N then "BoxProps"
  else if (type =? 16)%N then "ProtoProps"
  else "any".

Definition componentsFile : string := "/braid/lib/components/index.ts".

(** The exports of the module: two components, a value that is not
    callable, and two hooks, the first of which is not callable either. *)
Definition Box : Symbol := symbol "Box" (Some 10%N) 0 [].
Definition Stack : Symbol := symbol "Stack" (Some 12%N) 0 [].
Definition Badge : Symbol := symbol "Badge" (Some 13%N) 0 [].
Definition useToggle : Symbol := symbol "useToggle" (Some 14%N) 0 [].
Definition useColor : Symbol := symbol "useColor" (Some 15%N) 0 [].
Definition componentsModule : Symbol := symbol "index" None 0 [].

(** A second module, with an export whose name starts with two
    underscores. *)
Definition InternalBadge : Symbol := symbol "__Badge" (Some 13%N) 0 [].

Definition checker : TypeChecker :=
  {| typeObject := typeObjectOf;
     typeToString := typeToStringOf;
     getTypeOfSymbolAtLocation := fun symbol_ location =>
       match valueDeclaration symbol_ with
       | Some declaration => Normal declaration
       | None => Throw (HostError "symbol has no declaration")
       end;
     getTypeAtLocation := fun location =>
       match location with
       | Some declaration => Normal declaration
       | None => Throw (HostError "no node")
       end;
     getSymbolAtLocation := fun sourceFile =>
       if String.eqb (fileName sourceFile) componentsFile
       then Some componentsModule else None;
     getExportsOfModule := fun moduleSymbol =>
       if String.eqb (getName moduleSymbol) "internals" then [InternalBadge; Box]
       else [Box; useToggle; Badge; Stack; useColor] |}.

(** [depth] interfaces [Nested] inside one another, then the string. *)
Fixpoint nested (levels : nat) : NormalisedPropType :=
  match levels with
  | O => TypeString "Nested"
  | S levels' =>
      TypeInterface (Interface [("next", Prop_ "next" true (nested levels') false [] "")])
  end.

End Sample.


(** ** Facts about evaluation *)

Lemma ret_bind {A B} (a : A) (k : A -> Eval B) : mret a ≫= k = k a.
Proof. unfold mbind, Eval_bind, mret, Eval_ret. by destruct (k a). Qed.

Lemma terminates_ret {A} (a : A) : terminates (mret a).
Proof. by eexists. Qed.

Lemma terminates_lift {A} (c : Completion A) : terminates (lift c).
Proof. by eexists. Qed.

Lemma terminates_write entry : terminates (write entry).
Proof. by eexists. Qed.

Lemma terminates_bind {A B} (m : Eval A) (k : A -> Eval B) :
  terminates m -> (forall a, terminates (k a)) -> terminates (m ≫= k).
Proof.
  destruct m as [log [[a|e]|]]; intros [c Hc] Hk; simpl in *; try discriminate.
  - unfold mbind, Eval_bind. specialize (Hk a). by destruct (k a).
  - by eexists.
Qed.

Lemma terminates_fmap {A B} (f : A -> B) (m : Eval A) :
  terminates m -> terminates (f <$> m).
Proof.
  destruct m as [log [[a|e]|]]; intros [c Hc]; simpl in *; try discriminate; by eexists.
Qed.

Lemma bind_ext {A B} (m : Eval A) (k1 k2 : A -> Eval B) :
  (forall a, k1 a = k2 a) -> m ≫= k1 = m ≫= k2.
Proof.
  intros H. destruct m as [log [[a|e]|]]; try reflexivity.
  unfold mbind, Eval_bind. by rewrite H.
Qed.

Lemma terminates_try_catch {A} (body : Eval A) handler :
  terminates body -> (forall e, terminates (handler e)) -> terminates (try_catch body handler).
Proof.
  destruct body as [log [[a|e]|]]; intros [c Hc] Hh; simpl in *; try discriminate.
  - by eexists.
  - specialize (Hh e). by destruct (handler e).
Qed.

Lemma terminates_Array_map {A B} (f : A -> Eval B) (l : list A) :
  (forall x, x ∈ l -> terminates (f x)) -> terminates (Array_map f l).
Proof.
  induction l as [|x l IH]; intros H; simpl; [apply terminates_ret|].
  apply terminates_bind; [apply H; by left|]. intros y.
  apply terminates_bind; [apply IH; intros; apply H; by right|]. intros ys.
  apply terminates_ret.
Qed.

Lemma Array_map_ext {A B} (f g : A -> Eval B) (l : list A) :
  (forall x, x ∈ l -> f x = g x) -> Array_map f l = Array_map g l.
Proof.
  induction l as [|x l IH]; intros H; simpl; [done|].
  rewrite (H x) by (by left). rewrite IH; [done|]. intros; apply H; by right.
Qed.

Create HintDb terminates.
#[export] Hint Resolve terminates_ret terminates_lift terminates_write : terminates.

(** Goes through binds, maps and [fmap]s, leaving what is not a return, a
    checker call or a console write. *)
Ltac terminates_steps :=
  repeat first
    [ solve [auto with terminates]
    | apply terminates_fmap
    | apply terminates_bind; [|intros ?]
    | apply terminates_Array_map; intros ? _ ].

Lemma Array_map_total {A B} (f : A -> Eval B) (console : A -> list LogEntry)
    (value : A -> B) (l : list A) :
  (forall x, x ∈ l -> f x = (console x, Some (Normal (value x)))) ->
  Array_map f l = (concat (map console l), Some (Normal (map value l))).
Proof.
  induction l as [|x l IH]; intros H; [done|]. simpl.
  rewrite (H x) by (by left). rewrite IH by (intros; apply H; by right).
  unfold mbind, Eval_bind, mret, Eval_ret. by rewrite app_nil_r.
Qed.


Lemma assignAll_lookup_from properties : forall (result : gmap string ExportEntry) k v,
  NoDup (assignedKeys properties) ->
  foldl (fun result property =>
           match property with
           | Some (name, entry) => <[name := entry]> result
           | None => result
           end) result properties !! k = Some v
  <-> Some (k, v) ∈ properties
      \/ (result !! k = Some v /\ k ∉ assignedKeys properties).
Proof.
  unfold assignedKeys.
  induction properties as [|[[k0 v0]|] properties IH]; intros result k v Hdup; simpl in *.
  - split; [intros H; right; split; [done|apply not_elem_of_nil]|].
    intros [H|[H _]]; [by apply elem_of_nil in H | done].
  - apply NoDup_cons in Hdup as [Hk0 Hdup]. rewrite IH by done.
    rewrite elem_of_cons, not_elem_of_cons.
    destruct (decide (k0 = k)) as [->|Hne].
    + rewrite lookup_insert_eq. split.
      * intros [H|[[= ->] H]]; [by left; right | by left; left].
      * intros [[[= ->]|H]|[_ [H _]]]; [by right | by left | done].
    + rewrite lookup_insert_ne by done. split.
      * intros [H|[H1 H2]]; [by left; right | right; split; [done|split; [congruence|done]]].
      * intros [[[= -> ->]|H]|[H1 [_ H2]]]; [done | by left | by right].
  - rewrite IH by done. rewrite elem_of_cons. split.
    + intros [H|H]; [left; by right | by right].
    + intros [[H|H]|H]; [done | by left | by right].
Qed.

Lemma assignAll_lookup properties k v :
  NoDup (assignedKeys properties) ->
  assignAll properties !! k = Some v <-> Some (k, v) ∈ properties.
Proof.
  intros Hdup. unfold assignAll. rewrite assignAll_lookup_from by done.
  rewrite lookup_empty. split; [intros [H|[H _]]; done | by left].
Qed.

(** ** The lookup in [stringAliases] *)

Lemma stringAliases_value (typeString alias : string) :
  get stringAliases typeString = Some alias -> alias = typeString.
Proof.
  intros H%get_Some_elem_of. unfold stringAliases in H.
  repeat (apply elem_of_cons in H as [[= -> ->]|H]); try done. inversion H.
Qed.

(** The three things [stringAliases[typeString]] can be: the display
    string itself, for one of the three aliases; a member of
    [Object.prototype]; [undefined]. *)
Lemma read_stringAliases (typeString : string) :
  (exists c alias, typeString = String c alias
     /\ get stringAliases typeString = Some typeString
     /\ read stringAliases typeString = Own (String c alias))
  \/ (get stringAliases typeString = None /\ isInherited typeString = true
      /\ read stringAliases typeString = Inherited typeString)
  \/ (get stringAliases typeString = None /\ isInherited typeString = false
      /\ read stringAliases typeString = Undefined).
Proof.
  unfold read. destruct (get stringAliases typeString) as [alias|] eqn:Hget.
  - left. pose proof (stringAliases_value _ _ Hget) as ->.
    destruct typeString as [|c alias]; [by vm_compute in Hget|]. by exists c, alias.
  - right. destruct (isInherited typeString); [left | right]; done.
Qed.

(** The case analysis every fact about [normaliseTypeFuel] starts with: an
    alias, an inherited member, or the rest of the function. *)
Ltac alias_cases typeString :=
  cbn [normaliseTypeFuel];
  destruct (read_stringAliases typeString)
    as [(c & alias & Hdisplay & Hget & Hread)|[(Hget & Hinherited & Hread)
                                              |(Hget & Hinherited & Hread)]];
  rewrite Hread; cbv beta iota.

Section ExtractorFacts.

Variable checker : TypeChecker.
Variable SymbolFlags_Optional : N.
Variable componentsFile : string.

Lemma normalizeInterfaceWith_ext n1 n2 propsType propsObj depth extractComments :
  (forall type, n1 type propsObj (depth + 1) = n2 type propsObj (depth + 1)) ->
  normalizeInterfaceWith checker SymbolFlags_Optional n1 propsType propsObj depth extractComments
  = normalizeInterfaceWith checker SymbolFlags_Optional n2 propsType propsObj depth extractComments.
Proof.
  intros H. unfold normalizeInterfaceWith. f_equal.
  apply Array_map_ext. intros prop _. unfold normalizeProp.
  apply bind_ext; intros symbolType. apply bind_ext; intros declaredType.
  by rewrite H.
Qed.

Lemma normalizeInterfaceWith_terminates n propsType propsObj depth extractComments :
  (forall type, terminates (n type propsObj (depth + 1))) ->
  terminates (normalizeInterfaceWith checker SymbolFlags_Optional n propsType propsObj
                depth extractComments).
Proof.
  intros H. unfold normalizeInterfaceWith, normalizeProp. terminates_steps.
  destruct (includes _ _); [terminates_steps | apply H].
Qed.

Lemma fuelFor_succ depth fuel :
  (MAX_DEPTH <? depth) = false -> fuelFor depth <= S fuel -> fuelFor (depth + 1) <= fuel.
Proof. unfold fuelFor, MAX_DEPTH. intros H%Nat.ltb_ge. lia. Qed.

Lemma fuelFor_mono depth fuel : fuelFor depth <= fuel -> fuelFor (depth + 1) <= fuel.
Proof. unfold fuelFor. lia. Qed.

(** Past the fuel a depth is given, more fuel changes nothing. *)
Lemma normaliseTypeFuel_stable fuel1 : forall fuel2 type propsObj depth,
  fuelFor depth <= fuel1 -> fuelFor depth <= fuel2 ->
  normaliseTypeFuel checker SymbolFlags_Optional fuel1 type propsObj depth
  = normaliseTypeFuel checker SymbolFlags_Optional fuel2 type propsObj depth.
Proof.
  induction fuel1 as [|fuel1 IH]; intros [|fuel2] type propsObj depth H1 H2;
    try (unfold fuelFor in *; lia).
  alias_cases (typeToString checker type); [reflexivity..|].
  all: destruct (MAX_DEPTH <? depth) eqn:Hdepth; try reflexivity.
  all: pose proof (fuelFor_succ _ _ Hdepth H1) as H1';
       pose proof (fuelFor_succ _ _ Hdepth H2) as H2'.
  all: destruct (whitelistedAlias _);
       [ f_equal; apply Array_map_ext; intros; by apply IH |].
  all: destruct (unionTypes _);
       [ repeat case_bool_decide; try reflexivity;
         f_equal; apply Array_map_ext; intros; by apply IH |].
  all: destruct (isClassOrInterface _); try reflexivity.
  all: f_equal; apply normalizeInterfaceWith_ext; intros;
       apply IH; by apply fuelFor_mono.
Qed.

(** With the fuel its depth is given, a call never runs out of fuel. *)
Lemma normaliseTypeFuel_terminates fuel : forall type propsObj depth,
  fuelFor depth <= fuel ->
  terminates (normaliseTypeFuel checker SymbolFlags_Optional fuel type propsObj depth).
Proof.
  induction fuel as [|fuel IH]; intros type propsObj depth H;
    [unfold fuelFor in *; lia|].
  alias_cases (typeToString checker type); [apply terminates_ret..|].
  all: destruct (MAX_DEPTH <? depth) eqn:Hdepth;
       [apply terminates_bind; [apply terminates_write | intros; apply terminates_ret]|].
  all: pose proof (fuelFor_succ _ _ Hdepth H) as H'.
  all: destruct (whitelistedAlias _);
       [ apply terminates_bind; [|intros; apply terminates_ret];
         apply terminates_Array_map; intros; by apply IH |].
  all: destruct (unionTypes _);
       [ repeat case_bool_decide; try apply terminates_ret;
         apply terminates_bind; [|intros; apply terminates_ret];
         apply terminates_Array_map; intros; by apply IH |].
  all: destruct (isClassOrInterface _); try apply terminates_ret.
  all: apply terminates_fmap, normalizeInterfaceWith_terminates; intros;
       apply IH; by apply fuelFor_mono.
Qed.

Lemma normaliseType_terminates type propsObj depth :
  terminates (normaliseType checker SymbolFlags_Optional type propsObj depth).
Proof. by apply normaliseTypeFuel_terminates. Qed.

Lemma normalizeInterface_terminates propsType propsObj depth extractComments :
  terminates (normalizeInterface checker SymbolFlags_Optional propsType propsObj
                depth extractComments).
Proof.
  apply normalizeInterfaceWith_terminates. intros. apply normaliseType_terminates.
Qed.

#[local] Hint Resolve normaliseType_terminates normalizeInterface_terminates : terminates.

(** C3 on the code: [normaliseType] terminates on every type, at every
    depth: calls nest no deeper than the fuel a depth is given, which shrinks
    as the depth grows ([fuelFor depth] is at most [MAX_DEPTH + 2]), and more
    fuel changes nothing. At a depth above [MAX_DEPTH], on a type whose
    display string is not a passthrough alias, one unit of fuel is enough
    (nothing is recursed into); a warning is written and the display string
    is returned, unless the display string names a member of
    [Object.prototype]: then that member is returned, and nothing is
    written. *)
Theorem normaliseType_depth_bound type propsObj depth :
  terminates (normaliseType checker SymbolFlags_Optional type propsObj depth)
  /\ fuelFor depth <= MAX_DEPTH + 2
  /\ (forall fuel, fuelFor depth <= fuel ->
        normaliseTypeFuel checker SymbolFlags_Optional fuel type propsObj depth
        = normaliseType checker SymbolFlags_Optional type propsObj depth)
  /\ (MAX_DEPTH < depth ->
      get stringAliases (typeToString checker type) = None ->
      fuelFor depth = 1
      /\ normaliseType checker SymbolFlags_Optional type propsObj depth
         = if isInherited (typeToString checker type)
           then ([], Some (Normal (TypeInherited (typeToString checker type))))
           else ([console_warn maxDepthWarning],
                 Some (Normal (TypeString (typeToString checker type))))).
Proof.
  split; [apply normaliseType_terminates|].
  split; [unfold fuelFor; lia|].
  split; [intros fuel H; by apply normaliseTypeFuel_stable|].
  intros Hdepth Hnone.
  assert (Hfuel : fuelFor depth = 1) by (unfold fuelFor, MAX_DEPTH in *; lia).
  split; [done|]. unfold normaliseType. rewrite Hfuel.
  alias_cases (typeToString checker type); [congruence|by rewrite Hinherited|].
  rewrite Hinherited. apply Nat.ltb_lt in Hdepth. by rewrite Hdepth.
Qed.

Lemma stringAliases_key (typeString : string) :
  typeString ∈ keys stringAliases ->
  exists c alias, typeString = String c alias
    /\ get stringAliases typeString = Some (String c alias).
Proof.
  unfold keys, stringAliases. simpl.
  intros H. repeat (apply elem_of_cons in H as [->|H]); [by eexists _, _..|].
  by apply elem_of_nil in H.
Qed.

(** C9: a type whose display string is a key of [stringAliases] is
    normalised to that string, at every depth and with nothing written to
    the console; one unit of fuel is enough, so nothing is expanded. *)
Theorem normaliseType_passthrough type propsObj depth :
  typeToString checker type ∈ keys stringAliases ->
  normaliseType checker SymbolFlags_Optional type propsObj depth
  = mret (TypeString (typeToString checker type))
  /\ normaliseTypeFuel checker SymbolFlags_Optional 1 type propsObj depth
     = mret (TypeString (typeToString checker type)).
Proof.
  intros (c & alias & Hs & Hget)%stringAliases_key.
  assert (Hread : read stringAliases (typeToString checker type) = Own (String c alias))
    by (unfold read; by rewrite Hget).
  unfold normaliseType, fuelFor. cbn [normaliseTypeFuel]. by rewrite Hread, <- Hs.
Qed.

(** ** The props parameter *)

Lemma propsParamOf_find (callSignatures : list Signature) :
  propsParamOf callSignatures
  = sig ← List.find usableSignature callSignatures; head (getParameters sig).
Proof.
  induction callSignatures as [|sig rest IH]; [done|]. simpl.
  unfold usableSignature at 1.
  destruct (getParameters sig) as [|propsParam others] eqn:Hp; [done|].
  destruct (_ || _); [simpl; by rewrite Hp | done].
Qed.

(** C4, amended: the props parameter is the first parameter of the first
    call signature that has at least one parameter and whose first parameter
    is named [props] or is its only parameter. A signature with several
    parameters, the first not named [props], is passed over and the later
    signatures are consulted. Without such a signature the result is [null]. *)
Theorem getComponentPropsType_first_usable (exp : Symbol) :
  getComponentPropsType checker exp
  = (type ← lift (getTypeOfSymbolAtLocation checker exp (declarationOf exp));
     mret (sig ← List.find usableSignature (getCallSignatures (typeObject checker type));
           head (getParameters sig))).
Proof.
  unfold getComponentPropsType. apply bind_ext. intros type.
  by rewrite propsParamOf_find.
Qed.

(** ** The pass over the exports *)

Lemma getComponentDocs_terminates exp :
  terminates (getComponentDocs checker SymbolFlags_Optional exp).
Proof.
  unfold getComponentDocs, getComponentPropsType. terminates_steps.
  destruct a as [propsObj|]; [|terminates_steps].
  destruct (valueDeclaration propsObj); terminates_steps.
Qed.

Lemma getHookDocs_terminates exp :
  terminates (getHookDocs checker SymbolFlags_Optional exp).
Proof.
  unfold getHookDocs. terminates_steps.
  destruct (head _); [|by eexists].
  terminates_steps.
Qed.

Lemma exportTypeOf_terminates exp :
  terminates (exportTypeOf checker SymbolFlags_Optional exp).
Proof.
  unfold exportTypeOf. destruct (String.prefix _ _).
  - apply terminates_fmap, getHookDocs_terminates.
  - apply getComponentDocs_terminates.
Qed.

Lemma exportProperty_total exp :
  exportProperty checker SymbolFlags_Optional exp
  = (consoleOf checker SymbolFlags_Optional exp,
     Some (Normal (propertyOf checker SymbolFlags_Optional exp))).
Proof.
  unfold exportProperty, consoleOf, propertyOf.
  destruct (exportTypeOf_terminates exp) as [c Hc].
  destruct (exportTypeOf checker SymbolFlags_Optional exp) as [log [[entry|e]|]];
    simpl in *; [done|done|discriminate].
Qed.

(** The pass as a whole: it returns, with the properties of the exports
    whose documentation did not throw. *)
Lemma docsOfModule_total moduleSymbol :
  docsOfModule checker SymbolFlags_Optional moduleSymbol
  = (concat (map (consoleOf checker SymbolFlags_Optional)
                 (getExportsOfModule checker moduleSymbol)),
     Some (Normal (assignAll (map (propertyOf checker SymbolFlags_Optional)
                                  (getExportsOfModule checker moduleSymbol))))).
Proof.
  unfold docsOfModule.
  rewrite (Array_map_total _ (consoleOf checker SymbolFlags_Optional)
             (propertyOf checker SymbolFlags_Optional))
    by (intros; apply exportProperty_total).
  unfold mbind, Eval_bind, mret, Eval_ret. by rewrite app_nil_r.
Qed.

Lemma assignedKeys_propertyOf (exports : list Symbol) :
  NoDup (map escapedName exports) ->
  NoDup (assignedKeys (map (propertyOf checker SymbolFlags_Optional) exports))
  /\ (forall k, k ∈ assignedKeys (map (propertyOf checker SymbolFlags_Optional) exports) ->
                k ∈ map escapedName exports).
Proof.
  unfold assignedKeys.
  induction exports as [|exp exports IH]; simpl; intros Hdup.
  - split; [constructor | done].
  - apply NoDup_cons in Hdup as [Hnotin Hdup]. destruct (IH Hdup) as [IH1 IH2].
    destruct (propertyOf checker SymbolFlags_Optional exp) as [[k0 v0]|] eqn:Hp; simpl.
    + assert (k0 = escapedName exp) as ->.
      { unfold propertyOf in Hp.
        destruct ((exportTypeOf checker SymbolFlags_Optional exp).2) as [[entry|e]|];
          by simplify_eq. }
      split; [apply NoDup_cons; split; [intros H; by apply Hnotin, IH2 | done]|].
      intros k [->|H]%elem_of_cons; [by left | right; by apply IH2].
    + split; [done|]. intros k H. right. by apply IH2.
Qed.

Lemma docsOfModule_lookup (exports : list Symbol) name entry :
  NoDup (map escapedName exports) ->
  assignAll (map (propertyOf checker SymbolFlags_Optional) exports) !! name = Some entry
  <-> exists exp, exp ∈ exports /\ escapedName exp = name
        /\ (exportTypeOf checker SymbolFlags_Optional exp).2 = Some (Normal entry).
Proof.
  intros Hdup. rewrite assignAll_lookup by (by apply assignedKeys_propertyOf).
  rewrite list_elem_of_fmap. unfold propertyOf.
  split; intros (exp & H1 & H2); exists exp.
  - destruct ((exportTypeOf checker SymbolFlags_Optional exp).2) as [[entry'|e]|];
      try discriminate. by injection H1 as -> ->.
  - destruct H2 as [<- ->]. done.
Qed.


(** C5 on the code: for a component export without a resolvable props
    parameter, [getComponentDocs] returns the object
    [{ type: 'interface', props: {} }], and that object, which has no
    [exportType], is the export's entry in the result. *)
Theorem getComponentDocs_bare_interface (moduleSymbol exp : Symbol) (propsObj : option Symbol) :
  NoDup (map escapedName (getExportsOfModule checker moduleSymbol)) ->
  exp ∈ getExportsOfModule checker moduleSymbol ->
  String.prefix "use" (getName exp) = false ->
  getComponentPropsType checker exp = mret propsObj ->
  (forall p, propsObj = Some p -> valueDeclaration p = None) ->
  getComponentDocs checker SymbolFlags_Optional exp = mret (BareInterface (Interface []))
  /\ exists console result,
       docsOfModule checker SymbolFlags_Optional moduleSymbol
       = (console, Some (Normal result))
       /\ result !! escapedName exp = Some (BareInterface (Interface [])).
Proof.
  intros Hdup Hin Hname Hprops Hdecl.
  assert (Hdocs : getComponentDocs checker SymbolFlags_Optional exp
                  = mret (BareInterface (Interface []))).
  { unfold getComponentDocs. rewrite Hprops, ret_bind.
    destruct propsObj as [p|]; [|done]. by rewrite (Hdecl p eq_refl). }
  split; [done|]. eexists _, _. split; [apply docsOfModule_total|].
  apply docsOfModule_lookup; [done|]. exists exp. split; [done|]. split; [done|].
  unfold exportTypeOf. by rewrite Hname, Hdocs.
Qed.

End ExtractorFacts.

(** ** The extractor on the sample program *)

(** The type that never stops expanding is normalised to six interfaces
    inside one another and, past the maximum depth, its display string, with
    one warning. *)
Lemma Nested_bottoms_out :
  normaliseType Sample.checker Sample.Optional 100%N Sample.Box 0
  = ([console_warn maxDepthWarning], Some (Normal (Sample.nested 6)))
  /\ normaliseType Sample.checker Sample.Optional 100%N Sample.Box 11
     = ([console_warn maxDepthWarning], Some (Normal (TypeString "Nested"))).
Proof. vm_compute. auto. Qed.

(** [boolean] is a union of [false] and [true] in the checker, and is kept
    as the string at every depth. *)
Lemma boolean_passthrough :
  typeToString Sample.checker 0%N ∈ keys stringAliases
  /\ unionTypes (typeObject Sample.checker 0%N) = Some [1%N; 2%N]
  /\ normaliseType Sample.checker Sample.Optional 0%N Sample.Box 0
     = mret (TypeString "boolean")
  /\ normaliseType Sample.checker Sample.Optional 0%N Sample.Box 50
     = mret (TypeString "boolean").
Proof.
  assert (H : typeToString Sample.checker 0%N ∈ keys stringAliases)
    by apply list_elem_of_here.
  split; [exact H|]. split; [reflexivity|]. split.
  - exact (proj1 (normaliseType_passthrough Sample.checker Sample.Optional 0%N Sample.Box 0 H)).
  - exact (proj1 (normaliseType_passthrough Sample.checker Sample.Optional 0%N Sample.Box 50 H)).
Defined.

(** C4, as stated, at a component with three call signatures: none, then
    [(first, second)], then [(options)]. The first signature with a
    parameter is the second one, which is not usable; the code goes on to the
    third and takes [options] from it. *)
Lemma propsParam_from_later_signature :
  let callSignatures := getCallSignatures (typeObject Sample.checker 12%N) in
  map (fun sig => map getName (getParameters sig)) callSignatures
  = [[]; ["first"; "second"]; ["options"]]
  /\ propsParamFirstSignatureOnly callSignatures = None
  /\ propsParamOf callSignatures = Some (Sample.symbol "options" (Some 11%N) 0%N [])
  /\ getComponentPropsType Sample.checker Sample.Stack
     = mret (Some (Sample.symbol "options" (Some 11%N) 0%N [])).
Proof. vm_compute. auto. Qed.

Lemma Sample_exports_NoDup :
  NoDup (map escapedName (getExportsOfModule Sample.checker Sample.componentsModule)).
Proof. apply (bool_decide_unpack _). vm_compute. reflexivity. Defined.

(** [Badge] is not callable: no props parameter is found, and its entry in
    the result is the bare interface object. *)
Lemma Badge_entry_is_bare_interface :
  getComponentPropsType Sample.checker Sample.Badge = mret None
  /\ getComponentDocs Sample.checker Sample.Optional Sample.Badge
     = mret (BareInterface (Interface []))
  /\ exists console result,
       docsOfModule Sample.checker Sample.Optional Sample.componentsModule
       = (console, Some (Normal result))
       /\ result !! "Badge" = Some (BareInterface (Interface [])).
Proof.
  split; [reflexivity|].
  apply (getComponentDocs_bare_interface Sample.checker Sample.Optional
           Sample.componentsModule Sample.Badge None).
  - exact Sample_exports_NoDup.
  - do 2 apply list_elem_of_further. apply list_elem_of_here.
  - reflexivity.
  - reflexivity.
  - discriminate.
Defined.



(** An escaped name is never [__proto__]. *)
Lemma escapeLeadingUnderscores_not_proto (identifier : string) :
  escapeLeadingUnderscores identifier <> "__proto__".
Proof.
  unfold escapeLeadingUnderscores.
  destruct (String.prefix "__" identifier) eqn:Hprefix.
  - change ("_" +:+ identifier) with (String "_" identifier).
    intros [= ->]. discriminate Hprefix.
  - intros ->. discriminate Hprefix.
Qed.

(** C3, at a type displayed as [valueOf], past the maximum depth: the
    lookup in [stringAliases] finds the function [Object.prototype.valueOf],
    which is returned in place of the display string, and no warning is
    written. *)
Lemma valueOf_is_not_a_display_string :
  typeToString Sample.checker 5%N = "valueOf"
  /\ get stringAliases "valueOf" = None
  /\ read stringAliases "valueOf" = Inherited "valueOf"
  /\ prototypeMemberToString "valueOf" = "function valueOf() { [native code] }"
  /\ normaliseType Sample.checker Sample.Optional 5%N Sample.Box 11
     = ([], Some (Normal (TypeInherited "valueOf")))
  /\ normaliseType Sample.checker Sample.Optional 5%N Sample.Box 0
     = ([], Some (Normal (TypeInherited "valueOf"))).
Proof.
  do 4 (split; [reflexivity|]). split; [|vm_compute; reflexivity].
  destruct (normaliseType_depth_bound Sample.checker Sample.Optional 5%N Sample.Box 11)
    as (_ & _ & _ & H).
  destruct H as [_ H]; [unfold MAX_DEPTH; lia | reflexivity |].
  exact H.
Defined.

(** ** More facts about evaluation *)

Lemma bind_Normal {A B} (m : Eval A) (k : A -> Eval B) log b :
  m ≫= k = (log, Some (Normal b)) ->
  exists log1 a log2,
    m = (log1, Some (Normal a)) /\ k a = (log2, Some (Normal b)) /\ log = log1 ++ log2.
Proof.
  destruct m as [log1 [[a|e]|]]; unfold mbind, Eval_bind; try discriminate.
  destruct (k a) as [log2 r] eqn:Hk. intros [= <- ->]. by exists log1, a, log2.
Qed.

Lemma fmap_Normal {A B} (f : A -> B) (m : Eval A) log b :
  f <$> m = (log, Some (Normal b)) ->
  exists a, m = (log, Some (Normal a)) /\ b = f a.
Proof.
  destruct m as [log1 [[a|e]|]]; unfold fmap, Eval_fmap; try discriminate.
  intros [= <- <-]. by exists a.
Qed.

Lemma lift_Normal {A} (c : Completion A) log a :
  lift c = (log, Some (Normal a)) -> c = Normal a /\ log = [].
Proof. unfold lift. by intros [= <- ->]. Qed.

Lemma ret_Normal {A} (x : A) log a :
  (mret x : Eval A) = (log, Some (Normal a)) -> x = a /\ log = [].
Proof. unfold mret, Eval_ret. by intros [= <- ->]. Qed.

Lemma Array_map_Normal {A B} (f : A -> Eval B) l : forall log ys,
  Array_map f l = (log, Some (Normal ys)) ->
  Forall2 (fun x y => exists log', f x = (log', Some (Normal y))) l ys.
Proof.
  induction l as [|x l IH]; simpl; intros log ys H.
  - apply ret_Normal in H as [<- _]. constructor.
  - apply bind_Normal in H as (log1 & y & log2 & Hy & H & _).
    apply bind_Normal in H as (log3 & ys' & log4 & Hys & H & _).
    apply ret_Normal in H as [<- _]. constructor; eauto.
Qed.

(** What an evaluation wrote, entry by entry. *)
Lemma log_bind {A B} (P : LogEntry -> Prop) (m : Eval A) (k : A -> Eval B) :
  Forall P m.1 -> (forall a, Forall P (k a).1) -> Forall P (m ≫= k).1.
Proof.
  destruct m as [log [[a|e]|]]; unfold mbind, Eval_bind; simpl; try done.
  intros H Hk. specialize (Hk a). destruct (k a) as [log' r]. simpl in *.
  by apply Forall_app.
Qed.

Lemma log_fmap {A B} (P : LogEntry -> Prop) (f : A -> B) (m : Eval A) :
  Forall P m.1 -> Forall P (f <$> m).1.
Proof. by destruct m as [log [[a|e]|]]. Qed.

Lemma log_Array_map {A B} (P : LogEntry -> Prop) (f : A -> Eval B) (l : list A) :
  (forall x, Forall P (f x).1) -> Forall P (Array_map f l).1.
Proof.
  intros H. induction l as [|x l IH]; simpl; [constructor|].
  apply log_bind; [apply H|]. intros y.
  apply log_bind; [apply IH|]. intros ys. constructor.
Qed.

(** Where a throw comes from. *)
Definition throwsOnly {A} (P : JsError -> Prop) (m : Eval A) : Prop :=
  forall e, m.2 = Some (Throw e) -> P e.

Lemma throwsOnly_ret {A} (P : JsError -> Prop) (a : A) : throwsOnly P (mret a).
Proof. intros e H. discriminate. Qed.

Lemma throwsOnly_lift {A} (P : JsError -> Prop) (c : Completion A) :
  (forall e, c = Throw e -> P e) -> throwsOnly P (lift c).
Proof. intros H e [= ->]. by apply H. Qed.

Lemma throwsOnly_bind {A B} (P : JsError -> Prop) (m : Eval A) (k : A -> Eval B) :
  throwsOnly P m -> (forall a, throwsOnly P (k a)) -> throwsOnly P (m ≫= k).
Proof.
  unfold throwsOnly. destruct m as [log [[a|e']|]]; unfold mbind, Eval_bind; simpl.
  - intros _ Hk e. specialize (Hk a e). by destruct (k a).
  - intros H _ e [= ->]. by apply H.
  - intros _ _ e. discriminate.
Qed.

Lemma throwsOnly_fmap {A B} (P : JsError -> Prop) (f : A -> B) (m : Eval A) :
  throwsOnly P m -> throwsOnly P (f <$> m).
Proof.
  unfold throwsOnly. destruct m as [log [[a|e']|]]; unfold fmap, Eval_fmap; simpl.
  - intros _ e. discriminate.
  - intros H e [= ->]. by apply H.
  - intros _ e. discriminate.
Qed.

Lemma throwsOnly_Array_map {A B} (P : JsError -> Prop) (f : A -> Eval B) (l : list A) :
  (forall x, throwsOnly P (f x)) -> throwsOnly P (Array_map f l).
Proof.
  intros H. induction l as [|x l IH]; simpl; [apply throwsOnly_ret|].
  apply throwsOnly_bind; [apply H|]. intros y.
  apply throwsOnly_bind; [apply IH|]. intros ys. apply throwsOnly_ret.
Qed.

(** ** What the normalised output looks like *)

(** How deep a normalised type nests: a string or an inherited member is
    0, a union, an alias or an interface is one more than the deepest type
    inside it. *)
Fixpoint heightOf (t : NormalisedPropType) : nat :=
  match t with
  | TypeString _ | TypeInherited _ => 0
  | TypeUnion types => S (foldr (fun t h => Nat.max (heightOf t) h) 0 types)
  | TypeAlias _ params => S (foldr (fun t h => Nat.max (heightOf t) h) 0 params)
  | TypeInterface (Interface props) =>
      S (foldr (fun kv h =>
                  match kv with
                  | (_, Prop_ _ _ type _ _ _) => Nat.max (heightOf type) h
                  end) 0 props)
  end.

(** [P key doc] holds of every property of every interface inside [t]. *)
Fixpoint everyProp (P : string -> PropDoc -> Prop) (t : NormalisedPropType) : Prop :=
  match t with
  | TypeString _ | TypeInherited _ => True
  | TypeUnion types => foldr (fun t rest => everyProp P t /\ rest) True types
  | TypeAlias _ params => foldr (fun t rest => everyProp P t /\ rest) True params
  | TypeInterface (Interface props) =>
      foldr (fun kv rest =>
               match kv with
               | (key, Prop_ propName required type deprecated tags description) =>
                   P key (Prop_ propName required type deprecated tags description)
                   /\ everyProp P type /\ rest
               end) True props
  end.

Definition propName_of (doc : PropDoc) : string :=
  match doc with Prop_ propName _ _ _ _ _ => propName end.
Definition required_of (doc : PropDoc) : bool :=
  match doc with Prop_ _ required _ _ _ _ => required end.
Definition type_of (doc : PropDoc) : NormalisedPropType :=
  match doc with Prop_ _ _ type _ _ _ => type end.
Definition deprecated_of (doc : PropDoc) : bool :=
  match doc with Prop_ _ _ _ deprecated _ _ => deprecated end.
Definition tags_of (doc : PropDoc) : list Tag :=
  match doc with Prop_ _ _ _ _ tags _ => tags end.
Definition description_of (doc : PropDoc) : string :=
  match doc with Prop_ _ _ _ _ _ description => description end.

Section MoreExtractorFacts.

Variable checker : TypeChecker.
Variable SymbolFlags_Optional : N.
Variable componentsFile : string.

(** The object [normalizeInterface] builds for the property [prop], around
    its normalised type. *)
Definition propDocOf (extractComments : bool) (prop : Symbol) (type : NormalisedPropType)
    : PropDoc :=
  let tags := filter (fun tag => tag_name tag <> "see") (getJsDocTags prop) in
  Prop_ (getName prop) (N.land (getFlags prop) SymbolFlags_Optional =? 0)%N type
        (existsb (fun tag => isDeprecatedTag (tag_name tag)) tags) tags
        (if extractComments then String.concat newline (getDocumentationComment prop)
         else EmptyString).

Lemma normalizeProp_Normal n propsObj depth extractComments prop log entry :
  normalizeProp checker SymbolFlags_Optional n propsObj depth extractComments prop
  = (log, Some (Normal entry)) ->
  exists type,
    entry = (getName prop, propDocOf extractComments prop type)
    /\ (type = TypeString "ResponsiveProp"
        \/ exists propType, n propType propsObj (depth + 1) = (log, Some (Normal type))).
Proof.
  unfold normalizeProp. intros H.
  apply bind_Normal in H as (log1 & symbolType & log2 & H1 & H & ->).
  apply lift_Normal in H1 as [_ ->].
  apply bind_Normal in H as (log3 & declaredType & log4 & H3 & H & ->).
  apply lift_Normal in H3 as [_ ->].
  apply bind_Normal in H as (log5 & type & log6 & H5 & H & ->).
  apply ret_Normal in H as [<- ->]. exists type.
  split; [unfold propDocOf; by rewrite negb_involutive|].
  destruct (includes aliasWhitelist _) eqn:Hw.
  - left. apply ret_Normal in H5 as [<- _]. f_equal.
    unfold includes, aliasWhitelist in Hw. simpl in Hw.
    rewrite orb_false_r in Hw. by apply String.eqb_eq in Hw.
  - right. eexists. simpl. rewrite app_nil_r. exact H5.
Qed.

Lemma normalizeInterfaceWith_Normal n propsType propsObj depth extractComments log props :
  normalizeInterfaceWith checker SymbolFlags_Optional n propsType propsObj depth extractComments
  = (log, Some (Normal (Interface props))) ->
  exists entries,
    props = Object_assign entries
    /\ Forall2 (fun prop entry =>
          exists type,
            entry = (getName prop, propDocOf extractComments prop type)
            /\ (type = TypeString "ResponsiveProp"
                \/ exists propType log',
                     n propType propsObj (depth + 1) = (log', Some (Normal type))))
         (filter (fun prop => negb (includes propBlacklist (getName prop)))
                 (getProperties (typeObject checker propsType)))
         entries.
Proof.
  unfold normalizeInterfaceWith. intros H.
  apply bind_Normal in H as (log1 & entries & log2 & H1 & H & ->).
  apply ret_Normal in H as [[= <-] ->]. exists entries. split; [done|].
  apply Array_map_Normal in H1. eapply Forall2_impl; [exact H1|].
  intros prop entry [log' (type & -> & Ht)%normalizeProp_Normal].
  exists type. split; [done|]. destruct Ht as [->|[propType Ht]]; [by left | right; eauto].
Qed.

Lemma includes_propBlacklist (name : string) :
  includes propBlacklist name = false <-> name <> "key".
Proof.
  unfold includes, propBlacklist. simpl. rewrite orb_false_r. apply String.eqb_neq.
Qed.

(** Every property of a normalised interface comes from a property of the
    type that is not named [key]. *)
Lemma normalizeInterfaceWith_elem_of n propsType propsObj depth extractComments log props kv :
  normalizeInterfaceWith checker SymbolFlags_Optional n propsType propsObj depth extractComments
  = (log, Some (Normal (Interface props))) ->
  kv ∈ props ->
  exists prop type,
    prop ∈ getProperties (typeObject checker propsType)
    /\ getName prop <> "key"
    /\ kv = (getName prop, propDocOf extractComments prop type)
    /\ (type = TypeString "ResponsiveProp"
        \/ exists propType log',
             n propType propsObj (depth + 1) = (log', Some (Normal type))).
Proof.
  intros (entries & -> & Hentries)%normalizeInterfaceWith_Normal Hin.
  apply elem_of_spread in Hin as [Hin|Hin]; [inversion Hin|].
  apply list_elem_of_filter in Hin as [_ Hin].
  apply list_elem_of_lookup in Hin as [i Hi].
  destruct (Forall2_lookup_r _ _ _ _ _ Hentries Hi) as (prop & Hprop & type & -> & Ht).
  apply list_elem_of_lookup_2, list_elem_of_filter in Hprop as [Hname Hprop].
  exists prop, type. split; [done|]. split; [|done].
  apply includes_propBlacklist. by destruct (includes propBlacklist (getName prop)).
Qed.

(** A property of normalised types that holds of strings and goes through
    aliases, unions and interfaces holds of everything [normaliseType]
    returns. The depth of a result is the depth of the call it comes from. *)
Lemma normaliseTypeFuel_results (Q : nat -> NormalisedPropType -> Prop) :
  (forall depth s, Q depth (TypeString s)) ->
  (forall depth member, Q depth (TypeInherited member)) ->
  (forall depth alias params,
     depth <= MAX_DEPTH -> Forall (Q (depth + 1)) params -> Q depth (TypeAlias alias params)) ->
  (forall depth types,
     depth <= MAX_DEPTH -> Forall (Q (depth + 1)) types -> Q depth (TypeUnion types)) ->
  (forall depth props,
     depth <= MAX_DEPTH ->
     Forall (fun kv => exists prop type,
               getName prop <> "key"
               /\ kv = (getName prop, propDocOf false prop type)
               /\ Q (depth + 1 + 1) type) props ->
     Q depth (TypeInterface (Interface props))) ->
  forall fuel type propsObj depth log r,
    normaliseTypeFuel checker SymbolFlags_Optional fuel type propsObj depth
    = (log, Some (Normal r)) ->
    Q depth r.
Proof.
  intros Hstring Hmember Hparams Hunion Hinterface.
  induction fuel as [|fuel IH]; intros type propsObj depth log r; [discriminate|].
  assert (Hmap : forall l log' rs,
            Array_map (fun t => normaliseTypeFuel checker SymbolFlags_Optional fuel t
                                  propsObj (depth + 1)) l = (log', Some (Normal rs)) ->
            Forall (Q (depth + 1)) rs).
  { intros l log' rs H%Array_map_Normal.
    induction H as [|t r' l rs [log'' Hr] _ IH']; constructor; eauto. }
  alias_cases (typeToString checker type);
    [ intros [<- _]%ret_Normal; apply Hstring
    | intros [<- _]%ret_Normal; apply Hmember |].
  all: destruct (MAX_DEPTH <? depth) eqn:Hdepth;
       [ intros (? & ? & ? & _ & [<- _]%ret_Normal & _)%bind_Normal; apply Hstring |].
  all: apply Nat.ltb_ge in Hdepth.
  all: destruct (whitelistedAlias _);
       [ intros (? & params & ? & Hp & [<- _]%ret_Normal & _)%bind_Normal;
         apply Hparams; [done | by eapply Hmap] |].
  all: destruct (unionTypes _);
       [ repeat case_bool_decide; try (intros [<- _]%ret_Normal; apply Hstring);
         intros (? & types & ? & Hp & [<- _]%ret_Normal & _)%bind_Normal;
         apply Hunion; [done | by eapply Hmap] |].
  all: destruct (isClassOrInterface _); [|intros [<- _]%ret_Normal; apply Hstring].
  all: intros ([props] & Hprops & ->)%fmap_Normal; apply Hinterface; [done|].
  all: apply Forall_forall; intros kv Hkv.
  all: destruct (normalizeInterfaceWith_elem_of _ _ _ _ _ _ _ _ Hprops Hkv)
         as (prop & ptype & _ & Hname & -> & Ht).
  all: exists prop, ptype; split; [done|]; split; [done|].
  all: destruct Ht as [->|(propType & log' & Ht)]; [apply Hstring | by eapply IH].
Qed.


Lemma foldr_max_le {A} (f : A -> nat) (l : list A) (bound : nat) :
  Forall (fun x => f x <= bound) l -> foldr (fun x h => Nat.max (f x) h) 0 l <= bound.
Proof. induction 1; simpl; lia. Qed.

(** X7: what [normaliseType] returns nests no deeper than the depths left
    below [MAX_DEPTH]: a result of a call at [depth] has height at most
    [MAX_DEPTH + 1 - depth], so at most 11 from depth 0. Past the maximum
    depth it is the display string of the type or, when that string names a
    member of [Object.prototype], that member. *)
Theorem normaliseType_output_depth type propsObj depth log r :
  normaliseType checker SymbolFlags_Optional type propsObj depth
  = (log, Some (Normal r)) ->
  heightOf r <= MAX_DEPTH + 1 - depth
  /\ (MAX_DEPTH < depth ->
      if isInherited (typeToString checker type)
      then r = TypeInherited (typeToString checker type)
      else r = TypeString (typeToString checker type)).
Proof.
  intros H. split.
  - revert H. unfold normaliseType.
    apply (normaliseTypeFuel_results (fun depth r => heightOf r <= MAX_DEPTH + 1 - depth)).
    + intros; simpl; lia.
    + intros; simpl; lia.
    + intros d alias params Hd H. simpl.
      apply (foldr_max_le heightOf _ (MAX_DEPTH + 1 - (d + 1))) in H.
      unfold MAX_DEPTH in *. lia.
    + intros d types Hd H. simpl.
      apply (foldr_max_le heightOf _ (MAX_DEPTH + 1 - (d + 1))) in H.
      unfold MAX_DEPTH in *. lia.
    + intros d props Hd H. simpl.
      assert (foldr (fun kv h => match kv with
                                 | (_, Prop_ _ _ type _ _ _) => Nat.max (heightOf type) h
                                 end) 0 props <= MAX_DEPTH + 1 - (d + 1 + 1));
        [|unfold MAX_DEPTH in *; lia].
      induction H as [|kv props' (prop & ptype & _ & -> & Htype) _ IH]; cbn [foldr]; [lia|].
      unfold propDocOf. lia.
  - intros Hdepth. revert H. unfold normaliseType, fuelFor.
    alias_cases (typeToString checker type).
    + intros [<- _]%ret_Normal. rewrite <- Hdisplay.
      destruct (isInherited (typeToString checker type)) eqn:Hi; [|done].
      exfalso. clear -Hget Hi.
      apply get_Some_elem_of in Hget. unfold stringAliases in Hget.
      repeat (apply elem_of_cons in Hget as [[= Hk _]|Hget]);
        try (by rewrite Hk in Hi); by apply elem_of_nil in Hget.
    + intros [<- _]%ret_Normal. by rewrite Hinherited.
    + rewrite Hinherited. apply Nat.ltb_lt in Hdepth. rewrite Hdepth.
      by intros (? & ? & ? & _ & [<- _]%ret_Normal & _)%bind_Normal.
Qed.

(** X8: the properties of the interfaces inside a normalised type. Each is
    filed under its own name, none is named [key], none has a description
    (comments are extracted only for the props of the component itself), and
    none keeps a [see] tag. *)
Theorem normaliseType_nested_props type propsObj depth log r :
  normaliseType checker SymbolFlags_Optional type propsObj depth
  = (log, Some (Normal r)) ->
  everyProp (fun key doc =>
               key <> "key" /\ propName_of doc = key /\ description_of doc = EmptyString
               /\ Forall (fun tag => tag_name tag <> "see") (tags_of doc)) r.
Proof.
  unfold normaliseType.
  apply (normaliseTypeFuel_results (fun _ r => everyProp _ r)).
  - done.
  - done.
  - intros d alias params _ H. simpl. induction H; simpl; auto.
  - intros d types _ H. simpl. induction H; simpl; auto.
  - intros d props _ H. simpl.
    induction H as [|kv props (prop & ptype & Hname & -> & Htype) _ IH]; simpl; [done|].
    repeat split; try done.
    apply Forall_forall. by intros tag [Htag _]%list_elem_of_filter.
Qed.

Lemma Forall2_keys (l : list Symbol) (entries : list (string * PropDoc)) R :
  Forall2 (fun prop entry => exists type : NormalisedPropType,
             entry = (getName prop, R prop type) /\ True) l entries ->
  keys entries = map getName l.
Proof.
  unfold keys. induction 1 as [|prop entry l entries (type & -> & _) _ IH]; simpl; [done|].
  by rewrite IH.
Qed.

Lemma keys_filter_not_proto {V} (entries : JsObject V) (name : string) :
  name ∈ keys (filter (fun entry => entry.1 <> "__proto__") entries)
  <-> name <> "__proto__" /\ name ∈ keys entries.
Proof.
  unfold keys. rewrite !list_elem_of_fmap. split.
  - intros ([k v] & -> & [Hk Hin]%list_elem_of_filter). split; [done|]. by exists (k, v).
  - intros [Hname ([k v] & -> & Hin)]. exists (k, v). split; [done|].
    by apply list_elem_of_filter.
Qed.

(** X9: the props of a normalised interface. The interface has one property
    for each name, other than [key] and [__proto__], of a property of the
    type ([Object.assign] makes a property named [__proto__] the prototype of
    the props object, not a property of it); each is the description of a
    property of that name: required exactly when the [Optional] flag is not
    set, with the property's tags other than [see], deprecated when one of
    them is [deprecated] in any letter case, and with the documentation
    comment only when comments are extracted. *)
Theorem normalizeInterface_props propsType propsObj depth extractComments log props :
  normalizeInterface checker SymbolFlags_Optional propsType propsObj depth extractComments
  = (log, Some (Normal (Interface props))) ->
  NoDup (keys props)
  /\ (forall name, name ∈ keys props <->
        name <> "key" /\ name <> "__proto__"
        /\ exists prop, prop ∈ getProperties (typeObject checker propsType)
                        /\ getName prop = name)
  /\ (forall name doc, get props name = Some doc ->
        exists prop type,
          prop ∈ getProperties (typeObject checker propsType)
          /\ getName prop = name
          /\ doc = propDocOf extractComments prop type).
Proof.
  unfold normalizeInterface. intros H. split; [|split].
  - apply normalizeInterfaceWith_Normal in H as (entries & -> & _).
    apply keys_spread. constructor.
  - intros name. pose proof H as (entries & -> & Hentries)%normalizeInterfaceWith_Normal.
    destruct (keys_spread [] (filter (fun entry => entry.1 <> "__proto__") entries)
                (NoDup_nil_2)) as [_ Hkeys].
    unfold Object_assign. rewrite Hkeys, keys_filter_not_proto.
    assert (Hk : keys entries
                 = map getName (filter (fun prop => negb (includes propBlacklist (getName prop)))
                                  (getProperties (typeObject checker propsType)))).
    { apply (Forall2_keys _ _ (propDocOf extractComments)).
      eapply Forall2_impl; [exact Hentries|]. intros prop entry (type & -> & _). eauto. }
    rewrite Hk, list_elem_of_fmap. split.
    + intros [Hnil|[Hproto (prop & -> & [Hname Hprop]%list_elem_of_filter)]];
        [inversion Hnil|].
      split; [|split; [done | eauto]]. apply includes_propBlacklist.
      by destruct (includes propBlacklist (getName prop)).
    + intros (Hname & Hproto & prop & Hprop & <-). right. split; [done|].
      exists prop. split; [done|].
      apply list_elem_of_filter. split; [|done].
      apply includes_propBlacklist in Hname. by rewrite Hname.
  - intros name doc Hget%get_Some_elem_of.
    destruct (normalizeInterfaceWith_elem_of _ _ _ _ _ _ _ _ H Hget)
      as (prop & type & Hprop & _ & [= -> ->] & _).
    by exists prop, type.
Qed.

Lemma Array_map_length {A B} (f : A -> Eval B) l log ys :
  Array_map f l = (log, Some (Normal ys)) -> length ys = length l.
Proof. intros H%Array_map_Normal. symmetry. by eapply Forall2_length. Qed.

Lemma whitelistedAlias_Some (type : TypeObject) alias :
  whitelistedAlias type = Some alias ->
  alias = "ResponsiveProp"
  /\ exists symbol, aliasSymbol type = Some symbol /\ getName symbol = alias.
Proof.
  unfold whitelistedAlias. destruct (aliasSymbol type) as [symbol|]; [|done].
  destruct (includes aliasWhitelist (getName symbol)) eqn:Hw; [|done].
  intros [= <-]. split; [|eauto].
  unfold includes, aliasWhitelist in Hw. simpl in Hw.
  rewrite orb_false_r in Hw. by apply String.eqb_eq in Hw.
Qed.

(** ** How the calls of [normaliseType] nest *)

Lemma fuelFor_next depth : depth <= MAX_DEPTH -> fuelFor depth = S (fuelFor (depth + 1)).
Proof. unfold fuelFor, MAX_DEPTH. lia. Qed.

Lemma Array_map_normaliseType fuel propsObj depth l log rs :
  fuelFor (depth + 1) <= fuel ->
  Array_map (fun t => normaliseTypeFuel checker SymbolFlags_Optional fuel t propsObj
                        (depth + 1)) l = (log, Some (Normal rs)) ->
  Forall2 (fun t r => exists console,
             normaliseType checker SymbolFlags_Optional t propsObj (depth + 1)
             = (console, Some (Normal r))) l rs.
Proof.
  intros Hfuel H%Array_map_Normal. eapply Forall2_impl; [exact H|].
  intros t r [console Hr]. exists console. unfold normaliseType.
  by rewrite (normaliseTypeFuel_stable checker SymbolFlags_Optional _ fuel).
Qed.

(** X10: what the shape of a result says about the type it was normalised
    from, and how results are made of results. An alias node is only made for
    the whitelisted alias [ResponsiveProp], and its parameters are the alias
    type arguments, normalised one level deeper, in order; a union node is only
    made for a union that is neither of the two React node unions, and its
    entries are the members, normalised one level deeper, in order; an
    interface node is only made for a class or interface that is not a union,
    and is what [normalizeInterface] gives for the type one level deeper,
    without comments. A string is the display string of the type or one of
    the two React node names. Nodes are only made at depths up to
    [MAX_DEPTH]. A member of [Object.prototype] is only returned for a type
    whose display string is the member's name. *)
Theorem normaliseType_shape type propsObj depth log r :
  normaliseType checker SymbolFlags_Optional type propsObj depth
  = (log, Some (Normal r)) ->
  match r with
  | TypeString s =>
      s = typeToString checker type \/ s = "ReactNode" \/ s = "ReactNodeNoStrings"
  | TypeAlias alias params =>
      depth <= MAX_DEPTH /\ alias = "ResponsiveProp"
      /\ (exists symbol, aliasSymbol (typeObject checker type) = Some symbol
                         /\ getName symbol = alias)
      /\ Forall2 (fun aliasArg param => exists console,
                    normaliseType checker SymbolFlags_Optional aliasArg propsObj (depth + 1)
                    = (console, Some (Normal param)))
           (default [] (aliasTypeArguments (typeObject checker type))) params
  | TypeUnion types =>
      depth <= MAX_DEPTH
      /\ exists members,
           unionTypes (typeObject checker type) = Some members
           /\ take 6 (map (typeToString checker) members) <> reactNodeTypes
           /\ map (typeToString checker) members <> reactNodeNoStringsTypes
           /\ Forall2 (fun unionItem entry => exists console,
                         normaliseType checker SymbolFlags_Optional unionItem propsObj
                           (depth + 1)
                         = (console, Some (Normal entry)))
                members types
  | TypeInterface interface =>
      depth <= MAX_DEPTH
      /\ isClassOrInterface (typeObject checker type) = true
      /\ unionTypes (typeObject checker type) = None
      /\ normalizeInterface checker SymbolFlags_Optional type propsObj (depth + 1) false
         = (log, Some (Normal interface))
  | TypeInherited member =>
      member = typeToString checker type /\ member ∈ objectPrototypeKeys
  end.
Proof.
  assert (Hmember : isInherited (typeToString checker type) = true ->
            typeToString checker type ∈ objectPrototypeKeys).
  { unfold isInherited. intros (k & Hk & ->%String.eqb_eq)%existsb_exists.
    by apply list_elem_of_In. }
  unfold normaliseType at 1.
  destruct (decide (depth <= MAX_DEPTH)) as [Hd|Hd].
  2: { unfold fuelFor.
       alias_cases (typeToString checker type);
         [ intros [<- _]%ret_Normal; by left
         | intros [<- _]%ret_Normal; split; [done | by apply Hmember] |].
       destruct (MAX_DEPTH <? depth) eqn:Hdepth;
         [ intros (? & ? & ? & _ & [<- _]%ret_Normal & _)%bind_Normal; by left
         | apply Nat.ltb_ge in Hdepth; lia ]. }
  rewrite (fuelFor_next depth Hd).
  alias_cases (typeToString checker type);
    [ intros [<- _]%ret_Normal; by left
    | intros [<- _]%ret_Normal; split; [done | by apply Hmember] |].
  all: destruct (MAX_DEPTH <? depth) eqn:Hdepth;
       [ intros (? & ? & ? & _ & [<- _]%ret_Normal & _)%bind_Normal; by left |].
  all: destruct (whitelistedAlias _) as [alias'|] eqn:Hw;
       [ intros (? & params & ? & Hp & [<- _]%ret_Normal & _)%bind_Normal;
         apply Array_map_normaliseType in Hp; [|done];
         apply whitelistedAlias_Some in Hw as [-> Hw]; done |].
  all: destruct (unionTypes _) as [members|] eqn:Hu;
       [ repeat case_bool_decide; try (intros [<- _]%ret_Normal; by auto);
         intros (? & types & ? & Hp & [<- _]%ret_Normal & _)%bind_Normal;
         apply Array_map_normaliseType in Hp; [|done];
         split; [done|]; by exists members |].
  all: destruct (isClassOrInterface _) eqn:Hc; [|intros [<- _]%ret_Normal; by left].
  all: intros (interface & Hprops & ->)%fmap_Normal.
  all: repeat (split; [done|]).
  all: rewrite <- Hprops; unfold normalizeInterface.
  all: apply normalizeInterfaceWith_ext; intros t; unfold normaliseType.
  all: apply normaliseTypeFuel_stable; [done|].
  all: unfold fuelFor; lia.
Qed.


(** ** What is written to the console *)

Definition isMaxDepthWarning (entry : LogEntry) : Prop :=
  entry = console_warn maxDepthWarning.

Lemma log_normalizeInterfaceWith (P : LogEntry -> Prop) n propsType propsObj depth
    extractComments :
  (forall type, Forall P (n type propsObj (depth + 1)).1) ->
  Forall P (normalizeInterfaceWith checker SymbolFlags_Optional n propsType propsObj
              depth extractComments).1.
Proof.
  intros H. unfold normalizeInterfaceWith, normalizeProp.
  apply log_bind; [|intros; constructor].
  apply log_Array_map. intros prop.
  apply log_bind; [constructor|]. intros symbolType.
  apply log_bind; [constructor|]. intros declaredType.
  apply log_bind; [|intros; constructor].
  destruct (includes _ _); [constructor | apply H].
Qed.

Lemma normaliseTypeFuel_log fuel : forall type propsObj depth,
  Forall isMaxDepthWarning
    (normaliseTypeFuel checker SymbolFlags_Optional fuel type propsObj depth).1.
Proof.
  induction fuel as [|fuel IH]; intros type propsObj depth; [constructor|].
  alias_cases (typeToString checker type); [by constructor..|].
  all: destruct (MAX_DEPTH <? depth); [by repeat constructor|].
  all: destruct (whitelistedAlias _);
       [ apply log_bind; [apply log_Array_map; intros; apply IH | intros; constructor] |].
  all: destruct (unionTypes _);
       [ repeat case_bool_decide; try (by constructor);
         apply log_bind; [apply log_Array_map; intros; apply IH | intros; constructor] |].
  all: destruct (isClassOrInterface _); [|by constructor].
  all: apply log_fmap, log_normalizeInterfaceWith; intros; apply IH.
Qed.

Lemma getComponentDocs_log exp :
  Forall isMaxDepthWarning (getComponentDocs checker SymbolFlags_Optional exp).1.
Proof.
  unfold getComponentDocs, getComponentPropsType.
  apply log_bind; [apply log_bind; [constructor | intros; constructor]|].
  intros [propsObj|]; [|constructor].
  destruct (valueDeclaration propsObj); [|constructor].
  apply log_bind; [constructor|]. intros propsType.
  apply log_bind; [|intros; constructor].
  apply log_normalizeInterfaceWith. intros. apply normaliseTypeFuel_log.
Qed.

Lemma getHookDocs_log exp :
  Forall isMaxDepthWarning (getHookDocs checker SymbolFlags_Optional exp).1.
Proof.
  unfold getHookDocs. apply log_bind; [constructor|]. intros type.
  destruct (head _); [|constructor].
  apply log_bind.
  - apply log_Array_map. intros param. apply log_bind; [constructor|].
    intros. apply normaliseTypeFuel_log.
  - intros params. apply log_bind; [apply normaliseTypeFuel_log | intros; constructor].
Qed.

Lemma exportTypeOf_log exp :
  Forall isMaxDepthWarning (exportTypeOf checker SymbolFlags_Optional exp).1.
Proof.
  unfold exportTypeOf. destruct (String.prefix _ _).
  - apply log_fmap, getHookDocs_log.
  - apply getComponentDocs_log.
Qed.

(** X11: all that the pass over the exports of a module writes to the
    console: warnings that the maximum depth was reached, and, for an export
    whose documentation threw, the failure line with its name and the error
    thrown. No failure is reported for an export that was documented. *)
Theorem docsOfModule_console (moduleSymbol : Symbol) :
  Forall (fun entry =>
            entry = console_warn maxDepthWarning
            \/ exists exp e,
                 exp ∈ getExportsOfModule checker moduleSymbol
                 /\ (exportTypeOf checker SymbolFlags_Optional exp).2 = Some (Throw e)
                 /\ (entry = console_log failedToExtract (escapedName exp)
                     \/ entry = console_error e))
         (docsOfModule checker SymbolFlags_Optional moduleSymbol).1.
Proof.
  rewrite docsOfModule_total. simpl.
  induction (getExportsOfModule checker moduleSymbol) as [|exp exports IH]; simpl;
    [constructor|].
  apply Forall_app. split.
  - unfold consoleOf. apply Forall_app. split.
    + eapply Forall_impl; [apply exportTypeOf_log|]. intros entry H. by left.
    + destruct ((exportTypeOf checker SymbolFlags_Optional exp).2) as [[entry|e]|] eqn:He;
        try constructor.
      * right. exists exp, e. split; [by left|]. split; [done | by left].
      * constructor; [|constructor].
        right. exists exp, e. split; [by left|]. split; [done | by right].
  - eapply Forall_impl; [exact IH|]. intros entry [H|(exp' & e & Hin & He & H)]; [by left|].
    right. exists exp', e. split; [by right | done].
Qed.

(** ** Hooks *)

(** X12: the documentation of a hook describes its first call signature: one
    parameter type for each parameter of that signature, and the normalised
    return type of that signature. Later signatures are not looked at. *)
Theorem getHookDocs_first_signature (exp : Symbol) log (doc : HookDoc) :
  getHookDocs checker SymbolFlags_Optional exp = (log, Some (Normal doc)) ->
  exists type callSignature overloads console,
    getTypeOfSymbolAtLocation checker exp (declarationOf exp) = Normal type
    /\ getCallSignatures (typeObject checker type) = callSignature :: overloads
    /\ length (hd_params doc) = length (getParameters callSignature)
    /\ normaliseType checker SymbolFlags_Optional (getReturnType callSignature) exp 0
       = (console, Some (Normal (hd_returnType doc))).
Proof.
  unfold getHookDocs.
  intros (? & type & ? & [Htype _]%lift_Normal & H & _)%bind_Normal.
  destruct (getCallSignatures (typeObject checker type)) as [|callSignature overloads] eqn:Hs;
    [discriminate|]. simpl in H.
  apply bind_Normal in H as (? & params & ? & Hparams%Array_map_length & H & _).
  apply bind_Normal in H as (console & returnType & ? & Hreturn & [<- _]%ret_Normal & _).
  by exists type, callSignature, overloads, console.
Qed.

(** X13: an export named as a hook whose type has no call signature: reading
    the parameters of the missing signature throws, the throw is caught, and
    the export contributes the failure line and the error to the console and
    no entry to the result. *)
Theorem hook_without_call_signature (exp : Symbol) (type : TsType) :
  String.prefix "use" (getName exp) = true ->
  getTypeOfSymbolAtLocation checker exp (declarationOf exp) = Normal type ->
  getCallSignatures (typeObject checker type) = [] ->
  exists e,
    exportProperty checker SymbolFlags_Optional exp
    = ([console_log failedToExtract (escapedName exp); console_error e],
       Some (Normal None)).
Proof.
  intros Hname Htype Hs. eexists.
  unfold exportProperty, exportTypeOf, getHookDocs. rewrite Hname, Htype.
  change (lift (Normal type)) with (mret type : Eval TsType).
  rewrite ret_bind, Hs. reflexivity.
Qed.

(** X14: which kind of entry an export gets is decided by its name alone: an
    export whose name starts with [use] is documented as a hook; any other is
    documented as a component or is the bare interface without props. *)
Theorem exportTypeOf_entry_kind (exp : Symbol) log (entry : ExportEntry) :
  exportTypeOf checker SymbolFlags_Optional exp = (log, Some (Normal entry)) ->
  if String.prefix "use" (getName exp)
  then exists doc, entry = Documented (ExportHook doc)
  else entry = BareInterface (Interface [])
       \/ exists doc, entry = Documented (ExportComponent doc).
Proof.
  unfold exportTypeOf. destruct (String.prefix _ _).
  - intros (doc & _ & ->)%fmap_Normal. by exists doc.
  - unfold getComponentDocs.
    intros (? & propsObj & ? & _ & H & _)%bind_Normal.
    destruct propsObj as [propsObj|]; [|apply ret_Normal in H as [<- _]; by left].
    destruct (valueDeclaration propsObj); [|apply ret_Normal in H as [<- _]; by left].
    apply bind_Normal in H as (? & ? & ? & _ & H & _).
    apply bind_Normal in H as (? & ? & ? & _ & [<- _]%ret_Normal & _).
    right. by eexists.
Qed.

(** ** The loop over the source files *)

(** A source file the loop stops at: not a declaration file, named as the
    components file, and with a module symbol. *)
Definition isComponentsModule (sourceFile : SourceFile) : bool :=
  negb (isDeclarationFile sourceFile)
  && String.eqb (fileName sourceFile) componentsFile
  && bool_decide (is_Some (getSymbolAtLocation checker sourceFile)).

(** X15: the loop over the source files never throws. It returns the docs of
    the module of the first source file that is the components file, is not a
    declaration file and has a module symbol, with what documenting that
    module wrote to the console; without such a file it returns [undefined]
    and writes nothing. *)
Theorem extractDocs_returns (sourceFiles : list SourceFile) :
  exists console result,
    extractDocs checker SymbolFlags_Optional componentsFile sourceFiles
    = (console, Some (Normal result))
    /\ match List.find isComponentsModule sourceFiles with
       | Some sourceFile =>
           exists moduleSymbol docs,
             getSymbolAtLocation checker sourceFile = Some moduleSymbol
             /\ docsOfModule checker SymbolFlags_Optional moduleSymbol
                = (console, Some (Normal docs))
             /\ result = Some docs
       | None => result = None /\ console = []
       end.
Proof.
  induction sourceFiles as [|sourceFile rest IH]; simpl.
  - by exists [], None.
  - unfold isComponentsModule at 1.
    destruct (negb (isDeclarationFile sourceFile)
              && String.eqb (fileName sourceFile) componentsFile); simpl; [|exact IH].
    destruct (getSymbolAtLocation checker sourceFile) as [moduleSymbol|] eqn:Hm.
    + rewrite bool_decide_eq_true_2 by eauto.
      rewrite docsOfModule_total. eexists _, _. split; [reflexivity|].
      eexists moduleSymbol, _. by rewrite docsOfModule_total.
    + rewrite bool_decide_eq_false_2 by (by intros [? ?]). exact IH.
Qed.

(** ** Components *)

(** X20: the documentation of a component is the normalised interface of
    the type of its props parameter, looked up at the parameter's own
    declaration, from depth 0 and with the documentation comments; the props
    parameter is the one [getComponentPropsType] finds among the call
    signatures of the export's type. *)
Theorem getComponentDocs_props (exp : Symbol) log (doc : ComponentDoc) :
  getComponentDocs checker SymbolFlags_Optional exp
  = (log, Some (Normal (Documented (ExportComponent doc)))) ->
  exists type propsObj declaration propsType,
    getTypeOfSymbolAtLocation checker exp (declarationOf exp) = Normal type
    /\ propsParamOf (getCallSignatures (typeObject checker type)) = Some propsObj
    /\ valueDeclaration propsObj = Some declaration
    /\ getTypeOfSymbolAtLocation checker propsObj (Some declaration) = Normal propsType
    /\ normalizeInterface checker SymbolFlags_Optional propsType propsObj 0 true
       = (log, Some (Normal (cd_props doc))).
Proof.
  unfold getComponentDocs, getComponentPropsType.
  intros (? & propsObj & ? & H1 & H & ->)%bind_Normal.
  apply bind_Normal in H1 as (? & type & ? & [Htype ->]%lift_Normal & [<- ->]%ret_Normal & ->).
  destruct (propsParamOf _) as [propsObj|] eqn:Hparam;
    [|by apply ret_Normal in H as [[=] _]].
  destruct (valueDeclaration propsObj) as [declaration|] eqn:Hdecl;
    [|by apply ret_Normal in H as [[=] _]].
  apply bind_Normal in H as (? & propsType & ? & [Hprops ->]%lift_Normal & H & ->).
  apply bind_Normal in H as (console & props & ? & Hinterface & [[= <-] ->]%ret_Normal & ->).
  exists type, propsObj, declaration, propsType.
  repeat (split; [done|]). simpl. by rewrite app_nil_r.
Qed.

(** ** Where failures come from *)

(** An error one of the checker's lookups threw. *)
Definition thrownByChecker (e : JsError) : Prop :=
  (exists symbol location, getTypeOfSymbolAtLocation checker symbol location = Throw e)
  \/ (exists location, getTypeAtLocation checker location = Throw e).

Lemma throwsOnly_normalizeInterfaceWith n propsType propsObj depth extractComments :
  (forall type, throwsOnly thrownByChecker (n type propsObj (depth + 1))) ->
  throwsOnly thrownByChecker
    (normalizeInterfaceWith checker SymbolFlags_Optional n propsType propsObj
       depth extractComments).
Proof.
  intros H. unfold normalizeInterfaceWith, normalizeProp.
  apply throwsOnly_bind; [|intros; apply throwsOnly_ret].
  apply throwsOnly_Array_map. intros prop.
  apply throwsOnly_bind; [apply throwsOnly_lift; intros e He; left; eauto|].
  intros symbolType.
  apply throwsOnly_bind; [apply throwsOnly_lift; intros e He; right; eauto|].
  intros declaredType.
  apply throwsOnly_bind; [|intros; apply throwsOnly_ret].
  destruct (includes _ _); [apply throwsOnly_ret | apply H].
Qed.

Lemma throwsOnly_normaliseTypeFuel fuel : forall type propsObj depth,
  throwsOnly thrownByChecker
    (normaliseTypeFuel checker SymbolFlags_Optional fuel type propsObj depth).
Proof.
  induction fuel as [|fuel IH]; intros type propsObj depth; [by intros e|].
  alias_cases (typeToString checker type); [apply throwsOnly_ret..|].
  all: destruct (MAX_DEPTH <? depth); [by intros e|].
  all: destruct (whitelistedAlias _);
       [ apply throwsOnly_bind;
         [apply throwsOnly_Array_map; intros; apply IH | intros; apply throwsOnly_ret] |].
  all: destruct (unionTypes _);
       [ repeat case_bool_decide; try apply throwsOnly_ret;
         apply throwsOnly_bind;
         [apply throwsOnly_Array_map; intros; apply IH | intros; apply throwsOnly_ret] |].
  all: destruct (isClassOrInterface _); [|apply throwsOnly_ret].
  all: apply throwsOnly_fmap, throwsOnly_normalizeInterfaceWith; intros; apply IH.
Qed.

Lemma throwsOnly_normaliseType type propsObj depth :
  throwsOnly thrownByChecker
    (normaliseType checker SymbolFlags_Optional type propsObj depth).
Proof. apply throwsOnly_normaliseTypeFuel. Qed.

(** X21: documenting an export has two ways to fail: one of the checker's
    lookups throws, or the export is named as a hook and its type has no call
    signature. Neither [normaliseType] nor [normalizeInterface] throws an
    error of its own. *)
Theorem exportTypeOf_throws (exp : Symbol) log (e : JsError) :
  exportTypeOf checker SymbolFlags_Optional exp = (log, Some (Throw e)) ->
  thrownByChecker e
  \/ (String.prefix "use" (getName exp) = true
      /\ exists type message,
           getTypeOfSymbolAtLocation checker exp (declarationOf exp) = Normal type
           /\ getCallSignatures (typeObject checker type) = []
           /\ e = TypeError message).
Proof.
  intros H.
  assert (He : (exportTypeOf checker SymbolFlags_Optional exp).2 = Some (Throw e))
    by (by rewrite H).
  clear H. revert e He. unfold exportTypeOf.
  destruct (String.prefix "use" (getName exp)) eqn:Hname.
  - assert (Hhook : throwsOnly
              (fun e => thrownByChecker e
                        \/ exists type message,
                             getTypeOfSymbolAtLocation checker exp (declarationOf exp)
                             = Normal type
                             /\ getCallSignatures (typeObject checker type) = []
                             /\ e = TypeError message)
              (getHookDocs checker SymbolFlags_Optional exp)).
    { unfold getHookDocs.
      destruct (getTypeOfSymbolAtLocation checker exp (declarationOf exp))
        as [type|e'] eqn:Htype.
      - change (lift (Normal type)) with (mret type : Eval TsType). rewrite ret_bind.
        destruct (getCallSignatures (typeObject checker type)) as [|sig sigs] eqn:Hs;
          cbn [head].
        + intros e [= <-]. right. by eexists type, _.
        + apply throwsOnly_bind.
          * apply throwsOnly_Array_map. intros param. apply throwsOnly_bind.
            -- apply throwsOnly_lift. intros e He. left. left. eauto.
            -- intros paramType e He. left.
               exact (throwsOnly_normaliseType _ _ _ e He).
          * intros params. apply throwsOnly_bind; [|intros; apply throwsOnly_ret].
            intros e He. left. exact (throwsOnly_normaliseType _ _ _ e He).
      - intros e [= <-]. left. left. eauto. }
    intros e He.
    apply (throwsOnly_fmap _ (fun doc => Documented (ExportHook doc))) in Hhook.
    destruct (Hhook e He) as [?|?]; [by left | right; by split].
  - intros e He. left. revert e He.
    unfold getComponentDocs, getComponentPropsType.
    apply throwsOnly_bind.
    + apply throwsOnly_bind; [|intros; apply throwsOnly_ret].
      apply throwsOnly_lift. intros e He. left. eauto.
    + intros [propsObj|]; [|apply throwsOnly_ret].
      destruct (valueDeclaration propsObj); [|apply throwsOnly_ret].
      apply throwsOnly_bind; [apply throwsOnly_lift; intros e He; left; eauto|].
      intros propsType. apply throwsOnly_bind; [|intros; apply throwsOnly_ret].
      apply throwsOnly_normalizeInterfaceWith. intros.
      apply throwsOnly_normaliseType.
Qed.

End MoreExtractorFacts.

(** ** The normaliser on the sample program *)

(** The type that never stops expanding, from depth 0: six interfaces
    deep. Past the maximum depth, the type displayed as [valueOf] is returned
    as the member [valueOf] of [Object.prototype]. *)
Lemma Nested_height :
  normaliseType Sample.checker Sample.Optional 100%N Sample.Box 0
  = ([console_warn maxDepthWarning], Some (Normal (Sample.nested 6)))
  /\ heightOf (Sample.nested 6) = 6
  /\ heightOf (Sample.nested 6) <= MAX_DEPTH + 1 - 0
  /\ normaliseType Sample.checker Sample.Optional 5%N Sample.Box 11
     = ([], Some (Normal (TypeInherited "valueOf")))
  /\ heightOf (TypeInherited "valueOf") <= MAX_DEPTH + 1 - 11
  /\ (MAX_DEPTH < 11 ->
      if isInherited (typeToString Sample.checker 5%N)
      then TypeInherited "valueOf" = TypeInherited (typeToString Sample.checker 5%N)
      else TypeInherited "valueOf" = TypeString (typeToString Sample.checker 5%N)).
Proof.
  split; [vm_compute; reflexivity|]. split; [reflexivity|].
  split.
  { apply (normaliseType_output_depth Sample.checker Sample.Optional 100%N Sample.Box 0
             [console_warn maxDepthWarning]).
    vm_compute. reflexivity. }
  split; [vm_compute; reflexivity|].
  apply (normaliseType_output_depth Sample.checker Sample.Optional 5%N Sample.Box 11 []).
  vm_compute. reflexivity.
Defined.

(** The props of [Box], as a nested type: [key] is left out, [hidden] loses
    its [see] tag, and no property has a description. *)
Lemma BoxProps_nested_props :
  exists log props,
    normaliseType Sample.checker Sample.Optional 11%N Sample.Box 0
    = (log, Some (Normal (TypeInterface (Interface props))))
    /\ keys props = ["padding"; "hidden"; "content"]
    /\ (tags_of <$> get props "hidden")
       = Some [ {| tag_name := "Deprecated"; tag_text := "use display" |} ]
    /\ everyProp (fun key doc =>
                    key <> "key" /\ propName_of doc = key
                    /\ description_of doc = EmptyString
                    /\ Forall (fun tag => tag_name tag <> "see") (tags_of doc))
                 (TypeInterface (Interface props)).
Proof.
  eexists _, _. split; [vm_compute; reflexivity|].
  split; [reflexivity|]. split; [reflexivity|].
  apply (normaliseType_nested_props Sample.checker Sample.Optional 11%N Sample.Box 0
           [console_warn maxDepthWarning]).
  vm_compute. reflexivity.
Defined.

(** The props of [Box] as [getComponentDocs] normalises them. *)
Lemma BoxProps_props :
  let propsObj := Sample.symbol "props" (Some 11%N) 0 [] in
  exists log props,
    normalizeInterface Sample.checker Sample.Optional 11%N propsObj 0 true
    = (log, Some (Normal (Interface props)))
    /\ keys props = ["padding"; "hidden"; "content"]
    /\ (deprecated_of <$> get props "hidden") = Some true
    /\ (required_of <$> get props "padding") = Some false
    /\ NoDup (keys props)
    /\ (forall name, name ∈ keys props <->
          name <> "key" /\ name <> "__proto__"
          /\ exists prop, prop ∈ getProperties (typeObject Sample.checker 11%N)
                          /\ getName prop = name)
    /\ (forall name doc, get props name = Some doc ->
          exists prop type,
            prop ∈ getProperties (typeObject Sample.checker 11%N)
            /\ getName prop = name
            /\ doc = propDocOf Sample.Optional true prop type).
Proof.
  intros propsObj. eexists _, _. split; [vm_compute; reflexivity|].
  do 3 (split; [reflexivity|]).
  apply (normalizeInterface_props Sample.checker Sample.Optional 11%N propsObj 0 true
           [console_warn maxDepthWarning]).
  vm_compute. reflexivity.
Defined.

(** An interface with a property named [__proto__]: the props object has
    no such property. *)
Lemma ProtoProps_props :
  map getName (getProperties (typeObject Sample.checker 16%N)) = ["__proto__"; "size"]
  /\ normalizeInterface Sample.checker Sample.Optional 16%N
       (Sample.symbol "props" (Some 16%N) 0 []) 0 false
     = ([], Some (Normal (Interface
              [("size", Prop_ "size" true (TypeString "number") false [] "")]))).
Proof. split; vm_compute; reflexivity. Qed.

(** The props of [Box] make an interface node: [BoxProps] is an interface
    and not a union. *)
Lemma BoxProps_shape :
  exists log interface,
    normaliseType Sample.checker Sample.Optional 11%N Sample.Box 0
    = (log, Some (Normal (TypeInterface interface)))
    /\ 0 <= MAX_DEPTH
    /\ isClassOrInterface (typeObject Sample.checker 11%N) = true
    /\ unionTypes (typeObject Sample.checker 11%N) = None
    /\ normalizeInterface Sample.checker Sample.Optional 11%N Sample.Box (0 + 1) false
       = (log, Some (Normal interface)).
Proof.
  eexists _, _. split; [vm_compute; reflexivity|].
  refine (normaliseType_shape Sample.checker Sample.Optional 11%N Sample.Box 0
            [console_warn maxDepthWarning] (TypeInterface _) _).
  vm_compute. reflexivity.
Defined.

(** [useColor] takes a string and returns a boolean. *)
Lemma useColor_docs :
  let doc := {| hd_params := [TypeString "string"]; hd_returnType := TypeString "boolean" |} in
  getHookDocs Sample.checker Sample.Optional Sample.useColor = ([], Some (Normal doc))
  /\ exists type callSignature overloads console,
       getTypeOfSymbolAtLocation Sample.checker Sample.useColor
         (declarationOf Sample.useColor) = Normal type
       /\ getCallSignatures (typeObject Sample.checker type) = callSignature :: overloads
       /\ length (hd_params doc) = length (getParameters callSignature)
       /\ normaliseType Sample.checker Sample.Optional (getReturnType callSignature)
            Sample.useColor 0
          = (console, Some (Normal (hd_returnType doc))).
Proof.
  intros doc. split; [vm_compute; reflexivity|].
  apply (getHookDocs_first_signature Sample.checker Sample.Optional Sample.useColor []).
  vm_compute. reflexivity.
Defined.

(** [useToggle] is named as a hook and is not callable. *)
Lemma useToggle_is_not_callable :
  String.prefix "use" (getName Sample.useToggle) = true
  /\ getTypeOfSymbolAtLocation Sample.checker Sample.useToggle
       (declarationOf Sample.useToggle) = Normal 14%N
  /\ getCallSignatures (typeObject Sample.checker 14%N) = []
  /\ exists e,
       exportProperty Sample.checker Sample.Optional Sample.useToggle
       = ([console_log failedToExtract "useToggle"; console_error e], Some (Normal None)).
Proof.
  do 3 (split; [reflexivity|]).
  apply (hook_without_call_signature Sample.checker Sample.Optional Sample.useToggle 14%N);
    reflexivity.
Defined.

(** [useColor] is documented as a hook, [Badge] is the bare interface. *)
Lemma useColor_entry_is_a_hook :
  let doc := {| hd_params := [TypeString "string"]; hd_returnType := TypeString "boolean" |} in
  exportTypeOf Sample.checker Sample.Optional Sample.useColor
  = ([], Some (Normal (Documented (ExportHook doc))))
  /\ exportTypeOf Sample.checker Sample.Optional Sample.Badge
     = ([], Some (Normal (BareInterface (Interface []))))
  /\ (exists doc', Documented (ExportHook doc) = Documented (ExportHook doc'))
  /\ (BareInterface (Interface []) = BareInterface (Interface [])
      \/ exists doc', BareInterface (Interface []) = Documented (ExportComponent doc')).
Proof.
  intros doc. do 2 (split; [vm_compute; reflexivity|]). split.
  - apply (exportTypeOf_entry_kind Sample.checker Sample.Optional Sample.useColor []).
    vm_compute. reflexivity.
  - apply (exportTypeOf_entry_kind Sample.checker Sample.Optional Sample.Badge []).
    vm_compute. reflexivity.
Defined.

(** [Box] is documented from the type of its [props] parameter. *)
Lemma Box_props :
  exists log doc,
    getComponentDocs Sample.checker Sample.Optional Sample.Box
    = (log, Some (Normal (Documented (ExportComponent doc))))
    /\ (match cd_props doc with Interface props => keys props end)
       = ["padding"; "hidden"; "content"]
    /\ exists type propsObj declaration propsType,
         getTypeOfSymbolAtLocation Sample.checker Sample.Box (declarationOf Sample.Box)
         = Normal type
         /\ propsParamOf (getCallSignatures (typeObject Sample.checker type)) = Some propsObj
         /\ valueDeclaration propsObj = Some declaration
         /\ getTypeOfSymbolAtLocation Sample.checker propsObj (Some declaration)
            = Normal propsType
         /\ normalizeInterface Sample.checker Sample.Optional propsType propsObj 0 true
            = (log, Some (Normal (cd_props doc))).
Proof.
  eexists _, _. split; [vm_compute; reflexivity|]. split; [reflexivity|].
  refine (getComponentDocs_props Sample.checker Sample.Optional Sample.Box
            [console_warn maxDepthWarning] {| cd_props := _ |} _).
  vm_compute. reflexivity.
Defined.

(** [useToggle] fails for want of a call signature, not in the checker. *)
Lemma useToggle_throws :
  let e := TypeError "Cannot read property 'getParameters' of undefined" in
  exportTypeOf Sample.checker Sample.Optional Sample.useToggle = ([], Some (Throw e))
  /\ (thrownByChecker Sample.checker e
      \/ (String.prefix "use" (getName Sample.useToggle) = true
          /\ exists type message,
               getTypeOfSymbolAtLocation Sample.checker Sample.useToggle
                 (declarationOf Sample.useToggle) = Normal type
               /\ getCallSignatures (typeObject Sample.checker type) = []
               /\ e = TypeError message)).
Proof.
  intros e. split; [vm_compute; reflexivity|].
  apply (exportTypeOf_throws Sample.checker Sample.Optional Sample.useToggle []).
  vm_compute. reflexivity.
Defined.

End Docs.

(** * Rating: the assertion on the [rating] prop *)

Module Rating.
Import Js.

(** [ToBoolean] on a number: [+0], [-0] and [NaN] are falsy. *)
Definition ToBoolean (x : float) : bool :=
  negb (PrimFloat.eqb x 0 || PrimFloat.is_nan x).

(** [rating >= 0 && rating <= 5] on IEEE-754 doubles. *)
Definition inRange (rating : float) : bool :=
  PrimFloat.leb 0 rating && PrimFloat.leb rating 5.

(** The component up to its assertion; the element tree it goes on to render
    is abstracted to [tt]. *)
Definition Rating (rating : float) : Completion unit :=
  assert (negb (ToBoolean rating) || inRange rating)
         "Rating must be between 0 and 5".

(** ** Comparison of doubles through their specification *)

Lemma SFcompare_antisym x y :
  SFcompare y x = option_map CompOpp (SFcompare x y).
Proof.
  destruct x as [[]|[]| |[] m1 e1], y as [[]|[]| |[] m2 e2]; simpl; try reflexivity.
  all: rewrite (Z.compare_antisym e2 e1); destruct (e2 ?= e1)%Z; simpl; try reflexivity.
  all: change (PosDef.Pos.compare_cont Eq m2 m1) with (Pos.compare m2 m1);
       change (PosDef.Pos.compare_cont Eq m1 m2) with (Pos.compare m1 m2);
       rewrite (Pos.compare_antisym m1 m2); destruct (m1 ?= m2)%positive; reflexivity.
Qed.

Lemma ltb_negb_leb (x y : float) :
  PrimFloat.is_nan x = false -> PrimFloat.is_nan y = false ->
  PrimFloat.ltb y x = negb (PrimFloat.leb x y).
Proof.
  unfold PrimFloat.is_nan.
  rewrite !FloatAxioms.eqb_spec, FloatAxioms.ltb_spec, FloatAxioms.leb_spec.
  unfold SFltb, SFleb, SFeqb. rewrite (SFcompare_antisym (Prim2SF x) (Prim2SF y)).
  intros Hx Hy.
  destruct (SFcompare (Prim2SF x) (Prim2SF y)) as [[]|] eqn:E; simpl; try reflexivity.
  destruct (Prim2SF x) as [[]|[]| |[] ? ?], (Prim2SF y) as [[]|[]| |[] ? ?];
    simpl in *; discriminate.
Qed.

Lemma is_nan_Prim2SF (x : float) :
  PrimFloat.is_nan x = true -> Prim2SF x = S754_nan.
Proof.
  unfold PrimFloat.is_nan. rewrite FloatAxioms.eqb_spec. unfold SFeqb.
  destruct (Prim2SF x) as [[]|[]| |[] m e]; simpl; try discriminate; try reflexivity.
  all: rewrite Z.compare_refl; change (PosDef.Pos.compare_cont Eq m m) with (Pos.compare m m);
       rewrite Pos.compare_refl; discriminate.
Qed.

Lemma ltb_nan (x : float) :
  PrimFloat.is_nan x = true ->
  forall y, PrimFloat.ltb x y = false /\ PrimFloat.ltb y x = false.
Proof.
  intros H y. rewrite !FloatAxioms.ltb_spec, (is_nan_Prim2SF x H). unfold SFltb.
  split; [reflexivity|]. destruct (Prim2SF y) as [[]|[]| |[] ? ?]; reflexivity.
Qed.

(** ** The assertion *)

Lemma Rating_throws_iff rating :
  isThrow (Rating rating) = true <->
  PrimFloat.ltb rating 0 = true \/ PrimFloat.ltb 5 rating = true.
Proof.
  unfold Rating, assert, ToBoolean, inRange.
  destruct (PrimFloat.is_nan rating) eqn:Hnan.
  - rewrite orb_true_r. simpl. split; [discriminate|].
    destruct (ltb_nan rating Hnan 0) as [-> _], (ltb_nan rating Hnan 5) as [_ ->].
    intros [|]; discriminate.
  - rewrite <- (negb_involutive (PrimFloat.leb 0 rating)),
            <- (negb_involutive (PrimFloat.leb rating 5)).
    rewrite <- !ltb_negb_leb by (assumption || reflexivity).
    rewrite orb_false_r.
    assert (Hz : PrimFloat.eqb rating 0 = true ->
                 PrimFloat.ltb rating 0 = false /\ PrimFloat.ltb 5 rating = false).
    { rewrite !FloatAxioms.eqb_spec, !FloatAxioms.ltb_spec. unfold SFltb, SFeqb.
      change (Prim2SF 0) with (S754_zero false).
      change (Prim2SF 5) with (S754_finite false 5629499534213120 (-50)).
      destruct (Prim2SF rating) as [[]|[]| |[] ? ?]; simpl; try discriminate; auto. }
    destruct (PrimFloat.eqb rating 0).
    + destruct Hz as [-> ->]; [reflexivity|]. simpl.
      split; [discriminate | intros [|]; discriminate].
    + simpl. destruct (PrimFloat.ltb rating 0), (PrimFloat.ltb 5 rating); simpl;
        intuition discriminate.
Qed.

(** C10, as stated, at [NaN]: it is outside [0,5], and the assertion
    passes, because [!rating] holds of it. *)
Lemma Rating_NaN_passes :
  inRange nan = false /\ Rating nan = Normal tt.
Proof. vm_compute. auto. Qed.

(** C10, amended: the assertion raises exactly when [rating < 0] or
    [rating > 5] as comparisons of doubles, which includes both infinities
    and excludes [NaN]; in particular it does not raise within [0,5]. *)
Theorem Rating_raises_iff (rating : float) :
  Rating rating = Throw (AssertionError "Rating must be between 0 and 5") <->
  PrimFloat.ltb rating 0 = true \/ PrimFloat.ltb 5 rating = true.
Proof.
  rewrite <- Rating_throws_iff. unfold Rating, assert.
  destruct (negb (ToBoolean rating) || inRange rating); simpl; intuition discriminate.
Qed.

Lemma Rating_in_range (rating : float) :
  inRange rating = true -> Rating rating = Normal tt.
Proof. unfold Rating. intros ->. by rewrite orb_true_r. Qed.

Lemma Rating_examples :
  Rating 0 = Normal tt /\ Rating 3.5 = Normal tt /\ Rating 5 = Normal tt
  /\ isThrow (Rating (-0.5)) = true /\ isThrow (Rating 5.5) = true
  /\ isThrow (Rating infinity) = true /\ isThrow (Rating neg_infinity) = true.
Proof. vm_compute. repeat split. Qed.

(** ** The icon of a star *)

Inductive StarIcon := IconStarEmptySvg | IconStarHalfSvg | IconStarFullSvg.

(** The [component] that [RatingStar] renders for [percent]. *)
Definition RatingStar (percent : float) : StarIcon :=
  let component := IconStarEmptySvg in
  let component :=
    if PrimFloat.leb 25 percent && PrimFloat.ltb percent 75 then IconStarHalfSvg
    else component in
  let component :=
    if PrimFloat.ltb 50 percent then IconStarFullSvg else component in
  component.

Lemma SF_25 : Prim2SF 25 = S754_finite false 7036874417766400 (-48).
Proof. reflexivity. Qed.
Lemma SF_50 : Prim2SF 50 = S754_finite false 7036874417766400 (-47).
Proof. reflexivity. Qed.
Lemma SF_75 : Prim2SF 75 = S754_finite false 5277655813324800 (-46).
Proof. reflexivity. Qed.

Lemma above_50_above_25 (percent : float) :
  PrimFloat.ltb 50 percent = true -> PrimFloat.leb 25 percent = true.
Proof.
  rewrite FloatAxioms.ltb_spec, FloatAxioms.leb_spec, SF_25, SF_50.
  unfold SFltb, SFleb.
  destruct (Prim2SF percent) as [[]|[]| |[] m e]; cbv beta iota delta [SFcompare];
    try first [discriminate | reflexivity].
  destruct (Z.compare_spec (-47) e), (Z.compare_spec (-48) e);
    first [lia | discriminate | reflexivity].
Qed.

Lemma up_to_50_below_75 (percent : float) :
  PrimFloat.leb percent 50 = true -> PrimFloat.ltb percent 75 = true.
Proof.
  rewrite FloatAxioms.ltb_spec, FloatAxioms.leb_spec, SF_75, SF_50.
  unfold SFltb, SFleb.
  destruct (Prim2SF percent) as [[]|[]| |[] m e]; cbv beta iota delta [SFcompare];
    try first [discriminate | reflexivity].
  destruct (Z.compare_spec e (-47)), (Z.compare_spec e (-46));
    first [lia | discriminate | reflexivity].
Qed.

Lemma leb_not_nan (x y : float) :
  PrimFloat.leb x y = true -> PrimFloat.is_nan x = false /\ PrimFloat.is_nan y = false.
Proof.
  intros H. split.
  - destruct (PrimFloat.is_nan x) eqn:Hx; [|done].
    rewrite FloatAxioms.leb_spec, (is_nan_Prim2SF x Hx) in H. discriminate.
  - destruct (PrimFloat.is_nan y) eqn:Hy; [|done].
    rewrite FloatAxioms.leb_spec, (is_nan_Prim2SF y Hy) in H. unfold SFleb in H.
    destruct (Prim2SF x) as [[]|[]| |[] ? ?]; discriminate.
Qed.

(** X19: the icon of a star. It is the full star exactly when [percent] is
    above 50, the half star exactly when [percent] is from 25 to 50, and the
    empty star otherwise, which includes [NaN]. The upper bound 75 of the
    half star never decides: above 50 the full star replaces it. *)
Theorem RatingStar_icon (percent : float) :
  (RatingStar percent = IconStarFullSvg <-> PrimFloat.ltb 50 percent = true)
  /\ (RatingStar percent = IconStarHalfSvg <->
        PrimFloat.leb 25 percent = true /\ PrimFloat.leb percent 50 = true)
  /\ (RatingStar percent = IconStarEmptySvg <-> PrimFloat.leb 25 percent = false).
Proof.
  unfold RatingStar.
  destruct (PrimFloat.ltb 50 percent) eqn:H50.
  - pose proof (above_50_above_25 percent H50) as H25.
    destruct (leb_not_nan _ _ H25) as [_ Hnan].
    rewrite (ltb_negb_leb percent 50 Hnan eq_refl) in H50.
    apply negb_true_iff in H50. rewrite H25, H50.
    repeat split; try done; intros [? ?]; done.
  - destruct (PrimFloat.leb 25 percent) eqn:H25; simpl.
    + destruct (leb_not_nan _ _ H25) as [_ Hnan].
      rewrite (ltb_negb_leb percent 50 Hnan eq_refl) in H50.
      apply negb_false_iff in H50.
      rewrite (up_to_50_below_75 percent H50), H50. repeat split; done.
    + repeat split; try done. intros [? ?]; done.
Qed.

Lemma RatingStar_examples :
  RatingStar 0 = IconStarEmptySvg /\ RatingStar 24 = IconStarEmptySvg
  /\ RatingStar 25 = IconStarHalfSvg /\ RatingStar 50 = IconStarHalfSvg
  /\ RatingStar 51 = IconStarFullSvg /\ RatingStar 74 = IconStarFullSvg
  /\ RatingStar 100 = IconStarFullSvg /\ RatingStar nan = IconStarEmptySvg.
Proof. vm_compute. repeat split. Qed.

End Rating.

